(** * Booking ETL pipeline

    A shallow embedding of [extract.py] (the paginated fetcher,
    [extract_all_pages]), of [transform.py] (the record normaliser,
    [transform_data]), of the database stages ([load.py],
    [create_country_currency.py], [create_final_table.py],
    [present_final_table.py]) and of [main.py], with the properties
    the specification states about the fetcher and the normaliser, and
    further properties of the code.

    Scope of the embedding.
    - A [string] holds the UTF-8 bytes of a Python text.  [str.strip]
      and [str.title] are taken as given ([py_strip], [py_title]); on
      ASCII text they are the functions [Text.strip] and [Text.title]
      written out below.
    - A page body is a JSON object; the values of its ['total'] and
      ['results'] that are covered are null, an integer and a list of
      records.  A JSON scalar in a booking record is null, an integer
      or a text.
    - A pandas cell holds one of these, the missing-value marker NaN,
      a float of integral value, a timestamp or the missing timestamp
      NaT.  In a column that pandas holds as float64 an integer is the
      float nearest to it and a null is NaN; which columns these are
      is taken as given ([upcasts]), and known for the columns that
      have a text, that have only integers and texts, and that have
      nulls and 64-bit integers with at least one of each.
    - A timestamp is its number of nanoseconds since the epoch.  That
      the comparison of a column of zoned timestamps with a column
      of timestamps without zone raises is taken as given
      ([tz_clash]), as is the parser of dates ([to_datetime]).
    - A table is its set of column labels and its rows in order, each
      row a map from labels to cells, with its index label.
    - HTTP is a state-passing function from a page number to a
      response; what [requests.get] and [raise_for_status] raise is one
      outcome, [TransportFailure].
    - [total / PER_PAGE] is the float nearest to the quotient, ties to
      even, and [OverflowError] beyond the range of floats;
      [math.ceil] is exact on that float.
    - The database, the file system and the terminal are an
      environment that decides the outcome of each action; a run
      leaves the trace of the actions it attempted. *)

From Stdlib Require Import ZArith String Ascii Lia.
From Stdlib Require Import DecimalString DecimalPos DecimalZ.
From Stdlib Require DecimalFacts.
From stdpp Require Import base numbers strings option gmap fin_maps list sorting.

Local Open Scope string_scope.
Local Open Scope list_scope.

(** ** config.py *)

Definition API_URL : string := "http://localhost:5000/api/bookings".
Definition PER_PAGE : Z := 50.
Definition TABLE_NAME : string := "bookings".

(** ** Values *)

(** A scalar held by a pandas cell or by a field of a raw record. *)
Inductive cell :=
| CNaN                 (* np.nan: the key is absent from the record *)
| CNone                (* None: the JSON value null *)
| CInt (n : Z)
| CFloat (z : Z)       (* a float of integral value: what an integer is
                          in a column that pandas holds as float64 *)
| CStr (s : string)
| CTime (t : Z)        (* pd.Timestamp, as nanoseconds since the epoch;
                          its time zone, if any, is not recorded *)
| CNaT.                (* pd.NaT *)

#[global] Instance cell_eq_dec : EqDecision cell.
Proof. solve_decision. Defined.

(** A raw booking record is a Python dict from field names to scalars. *)
Abbreviation record := (gmap string cell).

(** The values of ['total'] and ['results'] in a page body: null, an
    integer, a list of records.  Other JSON values (a text, a float,
    a boolean, an object, a list of other things) are not covered. *)
Inductive json :=
| JNull
| JInt (n : Z)
| JList (l : list record).

(** The exceptions the two stages raise.  [ValueError] carries the
    variable parts of its message: the key reported missing and, for
    pages after the first, the page number. *)
Inductive exn :=
| RequestException
| JSONDecodeError
| ValueError (key : string) (page : option Z)
| TypeError
| AttributeError
| OverflowError
| ZeroDivisionError
| KeyError (column : string).

(** ** Python's floats

    What the stages need of float arithmetic: the quotient of two
    integers, [math.ceil], and the float an integer becomes.  A finite
    double is written [(m, u)] for the number [m * 2 ^ u], [u] being
    the exponent of its last bit. *)

Module Float.
Local Open Scope Z_scope.

(** The integer nearest to [num / den], a tie going to the even one. *)
Definition nearest_even (num den : Z) : Z :=
  let q := num / den in
  let r := num mod den in
  if 2 * r <? den then q
  else if den <? 2 * r then q + 1
  else if Z.even q then q else q + 1.

(** [2 ^ k] as a factor: 1 when [k] is negative. *)
Definition pow2 (k : Z) : Z := 2 ^ Z.max k 0.

(** The double nearest to [n / d], for [0 ≤ n] and [0 < d], were the
    exponent unbounded above: 53 bits are kept below the leading one
    at [2 ^ e], and none below [2 ^ -1074]. *)
Definition nearest_double (n d : Z) : Z * Z :=
  if n =? 0 then (0, 0)
  else
    let s := Z.log2 d + 1 in
    let e := Z.log2 (n * 2 ^ s / d) - s in
    let u := Z.max (e - 52) (- 1074) in
    (nearest_even (n * pow2 (- u)) (d * pow2 u), u).

(** [a / b] for two integers: the nearest double, or an error. *)
Definition true_div (a b : Z) : exn + Z * Z :=
  if b =? 0 then inl ZeroDivisionError
  else
    let '(m, u) := nearest_double (Z.abs a) (Z.abs b) in
    if 2 ^ 1024 <=? m * pow2 u then inl OverflowError
    else inr (Z.sgn a * Z.sgn b * m, u).

(** [math.ceil(x)]. *)
Definition ceil (x : Z * Z) : Z :=
  let '(m, u) := x in
  if 0 <=? u then m * 2 ^ u else - (- m / 2 ^ (- u)).

(** The value of the double nearest to the integer [n]: what an
    integer of the 64-bit range becomes in a float column. *)
Definition of_int (n : Z) : Z :=
  Z.sgn n * ceil (nearest_double (Z.abs n) 1).
End Float.

(** ** extract.py *)

(** What one GET yields: [requests.get] or [raise_for_status] raised,
    the body was not JSON, or the body is a JSON object. *)
Inductive response :=
| TransportFailure
| BadJson
| Body (b : gmap string json).

Module Extract.
Section WithServer.
(** The remote API: a state and the answer it gives to the request
    for one page. *)
Context {Server : Type}.
Variable get : Z → Server → response * Server.

(** The world the fetcher runs in: the server and the log of the
    pages requested so far, oldest first. *)
Record World := mkWorld { server : Server; requests : list Z }.

(** Computations that may raise and that act on the world. *)
Definition M (A : Type) : Type := World → (exn + A) * World.

Definition ret {A} (a : A) : M A := λ w, (inr a, w).
Definition raise {A} (e : exn) : M A := λ w, (inl e, w).
Definition bind {A B} (m : M A) (k : A → M B) : M B :=
  λ w, match m w with
       | (inl e, w') => (inl e, w')
       | (inr a, w') => k a w'
       end.

Notation "'let*' x := m 'in' k" := (bind m (λ x, k))
  (at level 10, x name, m at level 100, k at level 200).

(** [requests.get(f"{API_URL}?page={page}&per_page={PER_PAGE}")],
    [raise_for_status()] and [.json()]. *)
Definition fetch_page (page : Z) : M (gmap string json) :=
  λ w, let '(r, s) := get page (server w) in
       let w' := mkWorld s (requests w ++ [page]) in
       match r with
       | TransportFailure => (inl RequestException, w')
       | BadJson => (inl JSONDecodeError, w')
       | Body b => (inr b, w')
       end.

(** The least integer not below [a / b]: the number of pages the
    specification names. *)
Definition ceil_div (a b : Z) : Z := (- ((- a) / b))%Z.

(** [math.ceil(total_records / PER_PAGE)]: the quotient is a float. *)
Definition total_pages (total_records : Z) : exn + Z :=
  match Float.true_div total_records PER_PAGE with
  | inl e => inl e
  | inr q => inr (Float.ceil q)
  end.

(** A value, or the exception its computation raised. *)
Definition lift {A} (r : exn + A) : M A := λ w, (r, w).

(** [range(a, b)]. *)
Definition range (a b : Z) : list Z := seqZ a (b - a).

(** [records.extend(more)]. *)
Definition extend (records more : json) : M json :=
  match records, more with
  | JList l, JList l' => ret (JList (l ++ l'))
  | JList _, _ => raise TypeError
  | _, _ => raise AttributeError
  end.

(** [len(records)], which the log lines evaluate. *)
Definition len (records : json) : M nat :=
  match records with
  | JList l => ret (length l)
  | _ => raise TypeError
  end.

(** The body of the loop over the remaining pages. *)
Fixpoint fetch_rest (pages : list Z) (records : json) : M json :=
  match pages with
  | [] => ret records
  | page :: pages' =>
      let* data := fetch_page page in
      match data !! "results" with
      | None => raise (ValueError "results" (Some page))
      | Some more =>
          let* records' := extend records more in
          let* added := len more in
          fetch_rest pages' records'
      end
  end.

Definition extract_all_pages : M json :=
  let* first_page_data := fetch_page 1 in
  match first_page_data !! "results" with
  | None => raise (ValueError "results" None)
  | Some records =>
      match first_page_data !! "total" with
      | None | Some JNull => raise (ValueError "total" None)
      | Some (JList _) => raise TypeError
      | Some (JInt total_records) =>
          let* total_pages := lift (total_pages total_records) in
          let* added := len records in
          fetch_rest (range 2 (total_pages + 1)) records
      end
  end.

(** The answers the server gives when [pages] are requested in turn,
    and the state it is left in. *)
Fixpoint replies (pages : list Z) (s : Server) : list response * Server :=
  match pages with
  | [] => ([], s)
  | p :: ps =>
      let '(r, s') := get p s in
      let '(rs, s'') := replies ps s' in
      (r :: rs, s'')
  end.

(** A page answer that carries the list [l] under ['results']. *)
Definition carries_results (r : response) (l : list record) : Prop :=
  ∃ b, r = Body b ∧ b !! "results" = Some (JList l).
End WithServer.
End Extract.

(** ** transform.py *)

Module Text.
(** Python's [str] operations as they are on ASCII text.  A [string]
    holds the UTF-8 bytes of a Python text; on a text with other than
    ASCII characters [strip] and [title] below are not Python's. *)

(** [c.isspace()]: TAB, LF, VT, FF, CR, FS, GS, RS, US and SPACE. *)
Definition is_space (c : ascii) : bool :=
  let n := nat_of_ascii c in
  ((9 <=? n)%nat && (n <=? 13)%nat) || ((28 <=? n)%nat && (n <=? 32)%nat).

Definition is_upper (c : ascii) : bool :=
  let n := nat_of_ascii c in (65 <=? n)%nat && (n <=? 90)%nat.

Definition is_lower (c : ascii) : bool :=
  let n := nat_of_ascii c in (97 <=? n)%nat && (n <=? 122)%nat.

Definition is_cased (c : ascii) : bool := is_upper c || is_lower c.

Definition to_upper (c : ascii) : ascii :=
  if is_lower c then ascii_of_nat (nat_of_ascii c - 32) else c.

Definition to_lower (c : ascii) : ascii :=
  if is_upper c then ascii_of_nat (nat_of_ascii c + 32) else c.

(** [s.lstrip()], [s.rstrip()] and [s.strip()]. *)
Fixpoint lstrip (s : string) : string :=
  match s with
  | String c s' => if is_space c then lstrip s' else s
  | EmptyString => EmptyString
  end.

Fixpoint rstrip (s : string) : string :=
  match s with
  | EmptyString => EmptyString
  | String c s' =>
      match rstrip s' with
      | EmptyString => if is_space c then EmptyString else String c EmptyString
      | r => String c r
      end
  end.

Definition strip (s : string) : string := rstrip (lstrip s).

(** The character [s.title()] writes for [c]: lower-cased after a
    cased character, upper-cased otherwise. *)
Definition cased_as (previous_is_cased : bool) (c : ascii) : ascii :=
  if previous_is_cased then to_lower c else to_upper c.

(** [s.title()]. *)
Fixpoint title_from (previous_is_cased : bool) (s : string) : string :=
  match s with
  | EmptyString => EmptyString
  | String c s' =>
      String (cased_as previous_is_cased c) (title_from (is_cased c) s')
  end.

Definition title (s : string) : string := title_from false s.

(** [str(n)] for an integer. *)
Definition str_of_int (n : Z) : string := NilZero.string_of_int (Z.to_int n).


(** Text made of ASCII characters only. *)
Definition is_ascii (c : ascii) : bool := (nat_of_ascii c <? 128)%nat.

Fixpoint ascii_text (s : string) : bool :=
  match s with
  | EmptyString => true
  | String c s' => is_ascii c && ascii_text s'
  end.
End Text.

(** The values of a datetime column. *)
Definition is_datetime (c : cell) : Prop :=
  match c with CTime _ | CNaT => True | _ => False end.

(** [pd.isna(v)]. *)
Definition isna (v : cell) : bool :=
  match v with CNaN | CNone | CNaT => true | _ => false end.

(** What a value becomes when pandas holds its column as float64. *)
Definition upcast (v : cell) : cell :=
  match v with
  | CInt n => CFloat (Float.of_int n)
  | CNone => CNaN
  | _ => v
  end.

(** A null, or an integer of the 64-bit range. *)
Definition is_small_number (v : cell) : Prop :=
  match v with
  | CNaN | CNone => True
  | CInt n => (- 2 ^ 63 ≤ n < 2 ^ 63)%Z
  | _ => False
  end.

Definition is_int_or_text (v : cell) : Prop :=
  match v with CInt _ | CStr _ => True | _ => False end.

(** The part of pandas and of Python's text type whose behaviour is
    taken as given.
    - [to_datetime values] is [pd.to_datetime(values, errors="coerce")]
      on the values of one column: one datetime (a timestamp or NaT)
      per value, a column of datetimes being returned as it is.
    - [tz_clash a b] tells whether comparing [pd.to_datetime] of the
      column [a] with [pd.to_datetime] of the column [b] raises
      [TypeError], as it does when one of the two is given a time zone
      and the other is not.  It does not for two columns without rows;
      and once two columns were compared, the rows of their parsed
      values can be compared again.
    - [upcasts values] tells whether [pd.DataFrame] holds the column of
      these values as float64.  It does not when a value is a text, nor
      when each is an integer or a text; it does when each is a null or
      an integer of the 64-bit range, with a null and an integer among
      them.
    - [str_of_float z] is [str] of the float of value [z], and
      [str_of_timestamp t] is [str] of a timestamp.
    - [py_strip] and [py_title] are [str.strip] and [str.title]; on
      ASCII text they are [Text.strip] and [Text.title]. *)
Class Pandas := {
  to_datetime : list cell → list cell;
  tz_clash : list cell → list cell → bool;
  upcasts : list cell → bool;
  str_of_float : Z → string;
  str_of_timestamp : Z → string;
  py_strip : string → string;
  py_title : string → string;
  to_datetime_length : ∀ l, length (to_datetime l) = length l;
  to_datetime_dtype : ∀ l, Forall is_datetime (to_datetime l);
  to_datetime_datetimes : ∀ l, Forall is_datetime l → to_datetime l = l;
  tz_clash_nil : tz_clash [] [] = false;
  tz_clash_parsed : ∀ a b a' b',
    tz_clash a b = false →
    length a' = length b' →
    zip a' b' `sublist_of` zip (to_datetime a) (to_datetime b) →
    tz_clash a' b' = false;
  upcasts_text : ∀ l s, CStr s ∈ l → upcasts l = false;
  upcasts_full : ∀ l, Forall is_int_or_text l → upcasts l = false;
  upcasts_gap : ∀ l n v,
    Forall is_small_number l → CInt n ∈ l → v ∈ l → isna v = true →
    upcasts l = true;
  str_of_float_small : ∀ z,
    (Z.abs z < 10 ^ 16)%Z →
    str_of_float z = (Text.str_of_int z ++ ".0")%string;
  py_strip_ascii : ∀ s, Text.ascii_text s = true → py_strip s = Text.strip s;
  py_title_ascii : ∀ s, Text.ascii_text s = true → py_title s = Text.title s
}.

Module Transform.
Section WithPandas.
Context `{Pandas}.

(** A table: the column labels and the rows in order, each with its
    index label.  The order of the columns is not modelled. *)
Record DataFrame := mkDataFrame {
  columns : gset string;
  rows : list (nat * record)
}.

Definition index (df : DataFrame) : list nat := fst <$> rows df.

(** The value of a row in a column. *)
Definition at_col (c : string) (r : record) : cell := default CNaN (r !! c).

(** The keys met in the records. *)
Definition all_keys (records : list record) : gset string :=
  ⋃ (dom <$> records).

(** The values the records give for the field [c]. *)
Definition field (c : string) (records : list record) : list cell :=
  at_col c <$> records.

(** The value the table holds for the value [v] of the field [c]. *)
Definition held (records : list record) (c : string) (v : cell) : cell :=
  if upcasts (field c records) then upcast v else v.

(** [pd.DataFrame(records)] for a list of dicts: the columns are the
    keys met in any record, a key absent from a record yields NaN,
    and the index is 0, 1, 2, ...  A column that pandas holds as
    float64 has its integers turned into floats and its nulls into
    NaN. *)
Definition DataFrame_of (records : list record) : DataFrame :=
  let cols := all_keys records in
  mkDataFrame cols
    (imap (λ i r, (i, map_imap (λ c v, Some (held records c v))
                        (r ∪ gset_to_gmap CNaN cols)))
       records).

Definition result (A : Type) : Type := exn + A.

Notation "'try' x := m 'in' k" :=
  (match m with inl e => inl e | inr x => k end)
  (at level 10, x name, m at level 100, k at level 200).

(** [df[c]], the values of a column, top to bottom. *)
Definition getitem (df : DataFrame) (c : string) : result (list cell) :=
  if decide (c ∈ columns df) then inr (at_col c <$> (snd <$> rows df))
  else inl (KeyError c).

(** [df[c] = values], for as many values as the table has rows. *)
Definition setitem (df : DataFrame) (c : string) (values : list cell)
  : DataFrame :=
  mkDataFrame ({[c]} ∪ columns df)
    (zip_with (λ (ir : nat * record) v, (ir.1, <[c:=v]> ir.2)) (rows df) values).

(** [df.dropna(subset=[c])]. *)
Definition dropna (c : string) (df : DataFrame) : result DataFrame :=
  if decide (c ∈ columns df)
  then inr (mkDataFrame (columns df)
              (filter (λ ir, isna (at_col c ir.2) = false) (rows df)))
  else inl (KeyError c).

(** Two keys that [duplicated] takes for the same: equal values, or
    two missing values. *)
Definition same_key (a b : cell) : bool :=
  (isna a && isna b) || bool_decide (a = b).

(** [df.drop_duplicates(subset=[c], keep="last")]: a row goes when a
    later row has the same key. *)
Fixpoint keep_last (c : string) (rs : list (nat * record))
  : list (nat * record) :=
  match rs with
  | [] => []
  | r :: rs' =>
      if existsb (λ r', same_key (at_col c r.2) (at_col c r'.2)) rs'
      then keep_last c rs'
      else r :: keep_last c rs'
  end.

Definition drop_duplicates (c : string) (df : DataFrame) : result DataFrame :=
  if decide (c ∈ columns df)
  then inr (mkDataFrame (columns df) (keep_last c (rows df)))
  else inl (KeyError c).

(** [series.astype(str)], value by value. *)
Definition str_of_cell (v : cell) : string :=
  match v with
  | CNaN => "nan"
  | CNone => "None"
  | CInt n => Text.str_of_int n
  | CFloat z => str_of_float z
  | CStr s => s
  | CTime t => str_of_timestamp t
  | CNaT => "NaT"
  end.

Definition astype_str (values : list cell) : list cell :=
  (λ v, CStr (str_of_cell v)) <$> values.

(** [series.str.strip()] and [series.str.title()]: a value that is
    not a text yields NaN. *)
Definition str_method (f : string → string) (v : cell) : cell :=
  match v with CStr s => CStr (f s) | _ => CNaN end.

Definition str_strip (values : list cell) : list cell :=
  str_method py_strip <$> values.

Definition str_title (values : list cell) : list cell :=
  str_method py_title <$> values.

(** [a >= b] on two datetimes: NaT compares false. *)
Definition ge_cell (a b : cell) : bool :=
  match a, b with
  | CTime x, CTime y => (y <=? x)%Z
  | _, _ => false
  end.

(** [a >= b] on the two parsed columns.  Whether the comparison
    raises depends on the time zones the parser gave them, which no
    cell records: it is asked of the parser, for the columns [raw_a]
    and [raw_b] that [a] and [b] were parsed from. *)
Definition ge_series (raw_a raw_b a b : list cell) : result (list bool) :=
  if tz_clash raw_a raw_b then inl TypeError
  else inr (zip_with ge_cell a b).

(** [df[mask]] for a boolean mask with one entry per row. *)
Definition select (df : DataFrame) (mask : list bool) : DataFrame :=
  mkDataFrame (columns df)
    ((fst <$> filter (λ rb : (nat * record) * bool, rb.2 = true)
                     (zip (rows df) mask))).

(** The body of [transform_data], from the table built of the
    records on. *)
Definition transform_frame (df : DataFrame) : result DataFrame :=
  try df := dropna "booking_id" df in
  try df := drop_duplicates "booking_id" df in
  try raw_in := getitem df "check_in_date" in
  let df := setitem df "check_in_date" (to_datetime raw_in) in
  try raw_out := getitem df "check_out_date" in
  let df := setitem df "check_out_date" (to_datetime raw_out) in
  try company := getitem df "owner_company" in
  let df := setitem df "owner_company"
              (str_title (str_strip (astype_str company))) in
  try country := getitem df "owner_company_country" in
  let df := setitem df "owner_company_country"
              (str_title (str_strip (astype_str country))) in
  try check_out := getitem df "check_out_date" in
  try check_in := getitem df "check_in_date" in
  try mask := ge_series raw_out raw_in check_out check_in in
  inr (select df mask).

Definition transform_data (records : list record) : result DataFrame :=
  transform_frame (DataFrame_of records).
End WithPandas.
End Transform.

(** ** The normaliser read row by row

    The notions in which the properties of [transform_data] are
    stated: what the steps of [transform_frame] do to one row. *)

Module Rows.
Import Transform.

(** The fields [transform_data] reads. *)
Definition expected_columns : list string :=
  ["booking_id"; "check_in_date"; "check_out_date";
   "owner_company"; "owner_company_country"].

Section WithPandas.
Context `{Pandas}.

(** The rows left by [dropna] and [drop_duplicates]. *)
Definition survivors (rs : list (nat * record)) : list (nat * record) :=
  keep_last "booking_id"
    (filter (λ ir, isna (at_col "booking_id" ir.2) = false) rs).

(** The parsed values of a date column. *)
Definition parsed (c : string) (rs : list (nat * record)) : list cell :=
  to_datetime (at_col c <$> rs.*2).

(** The values of a column, top to bottom. *)
Definition column (c : string) (rs : list (nat * record)) : list cell :=
  at_col c <$> rs.*2.

(** The comparison of the two parsed date columns raises. *)
Definition clash (rs : list (nat * record)) : bool :=
  tz_clash (column "check_out_date" rs) (column "check_in_date" rs).

(** The text a company or country value is normalised to. *)
Definition text_of (v : cell) : cell :=
  CStr (py_title (py_strip (str_of_cell v))).

(** The company and the country of the row are ASCII text, once
    turned into text. *)
Definition plain (x : nat * record) : Prop :=
  Text.ascii_text (str_of_cell (at_col "owner_company" x.2)) = true
  ∧ Text.ascii_text (str_of_cell (at_col "owner_company_country" x.2)) = true.

(** A row once its four columns are rewritten, [a] and [b] being
    its parsed dates. *)
Definition clean_row (a b : cell) (r : record) : record :=
  <["owner_company_country" := text_of (at_col "owner_company_country" r)]>
    (<["owner_company" := text_of (at_col "owner_company" r)]>
       (<["check_out_date" := b]> (<["check_in_date" := a]> r))).

(** The row kept, when the date filter keeps it. *)
Definition kept (x : (nat * record) * (cell * cell)) : option (nat * record) :=
  if ge_cell x.2.2 x.2.1 then Some (x.1.1, clean_row x.2.1 x.2.2 x.1.2)
  else None.

Definition with_dates (rs : list (nat * record))
  : list ((nat * record) * (cell * cell)) :=
  zip rs (zip (parsed "check_in_date" rs) (parsed "check_out_date" rs)).

(** A record as a row of [pd.DataFrame(records)]: with every column,
    and with the values the table holds. *)
Definition fill (records : list record) (r : record) : record :=
  map_imap (λ c v, Some (held records c v))
    (r ∪ gset_to_gmap CNaN (all_keys records)).

(** The key the table holds for a record. *)
Definition key_of (records : list record) (r : record) : cell :=
  held records "booking_id" (at_col "booking_id" r).

Definition has_expected_columns (records : list record) : Prop :=
  Forall (λ c, c ∈ all_keys records) expected_columns.

Definition output_rows (records : list record) : list (nat * record) :=
  omap kept (with_dates (survivors (rows (DataFrame_of records)))).

(** The record at position [i] has a key, and it is the last record
    with that key. *)
Definition last_with_key (records : list record) (i : nat) : Prop :=
  ∃ r0, records !! i = Some r0
        ∧ isna (at_col "booking_id" r0) = false
        ∧ ∀ j rj, i < j → records !! j = Some rj →
                  at_col "booking_id" rj ≠ at_col "booking_id" r0.

(** The record at position [i] has a key, and no later record has
    the same key in the table. *)
Definition last_in_table (records : list record) (i : nat) : Prop :=
  ∃ r0, records !! i = Some r0
        ∧ isna (at_col "booking_id" r0) = false
        ∧ ∀ j rj, i < j → records !! j = Some rj →
                  key_of records rj ≠ key_of records r0.

(** The keys are held as they are given: the column of keys is not
    turned into floats, or each key is a null or an integer of at
    most 53 bits. *)
Definition exact_keys (records : list record) : Prop :=
  upcasts (field "booking_id" records) = false
  ∨ Forall (λ v, match v with
                 | CNaN | CNone => True
                 | CInt n => (Z.abs n ≤ 2 ^ 53)%Z
                 | _ => False
                 end) (field "booking_id" records).

(** No key is met again further down. *)
Fixpoint fresh_keys (ks : list cell) : Prop :=
  match ks with
  | [] => True
  | k :: ks' => Forall (λ k', same_key k k' = false) ks' ∧ fresh_keys ks'
  end.

(** A row whose company and country the normalisation of text
    leaves as they are. *)
Definition settled (x : nat * record) : Prop :=
  text_of (at_col "owner_company" x.2) = at_col "owner_company" x.2
  ∧ text_of (at_col "owner_company_country" x.2)
    = at_col "owner_company_country" x.2.

(** A row as [transform_frame] leaves it. *)
Definition clean (x : nat * record) : Prop :=
  ∃ a b v w,
    ge_cell b a = true
    ∧ x.2 !! "check_in_date" = Some a
    ∧ x.2 !! "check_out_date" = Some b
    ∧ x.2 !! "owner_company" = Some (text_of v)
    ∧ x.2 !! "owner_company_country" = Some (text_of w)
    ∧ isna (at_col "booking_id" x.2) = false.
End WithPandas.
End Rows.

(** ** A sample of the libraries

    One reading of the libraries that meets [Pandas], for the sample
    runs.
    - Dates.  The form of a column is that of its first text.  When
      that text is a zoned instant [YYYY-MM-DDTHH:MM:SSZ] the column is
      given the zone UTC and its texts are parsed in that form;
      otherwise the column is given no zone and a text [YYYY-MM-DD]
      naming a day of the calendar is that day at midnight.  A
      timestamp has to lie within the range of [pd.Timestamp]; any
      other text is unparsed; a number counts nanoseconds; a missing
      value is NaT.
    - Columns.  A column is held as float64 when its values are nulls
      and integers of the 64-bit range, with a null among them, and
      they are not all [None].
    - Floats are written as Python writes the floats below [10 ^ 16].
    - [str.strip] and [str.title] are those of ASCII text, and
      [str.title] is Python's on the two texts of the sample that are
      not ASCII. *)

Module Iso.
Local Open Scope Z_scope.

Definition digit (c : ascii) : option Z :=
  let n := nat_of_ascii c in
  if ((48 <=? n)%nat && (n <=? 57)%nat)%bool then Some (Z.of_nat (n - 48)) else None.

Definition is_leap (y : Z) : bool :=
  ((y mod 4 =? 0) && negb (y mod 100 =? 0)) || (y mod 400 =? 0).

Definition days_in_month (y m : Z) : Z :=
  if m =? 2 then (if is_leap y then 29 else 28)
  else if (m =? 4) || (m =? 6) || (m =? 9) || (m =? 11) then 30
  else 31.

(** Days from 1970-01-01 to the day [d] of month [m] of year [y]. *)
Definition days_from_civil (y m d : Z) : Z :=
  let y := if m <=? 2 then y - 1 else y in
  let era := y / 400 in
  let yoe := y - era * 400 in
  let doy := (153 * (if 2 <? m then m - 3 else m + 9) + 2) / 5 + d - 1 in
  let doe := yoe * 365 + yoe / 4 - yoe / 100 + doy in
  era * 146097 + doe - 719468.

(** The year, month and day that lie [z] days after 1970-01-01. *)
Definition civil_from_days (z : Z) : Z * Z * Z :=
  let z := z + 719468 in
  let era := z / 146097 in
  let doe := z - era * 146097 in
  let yoe := (doe - doe / 1460 + doe / 36524 - doe / 146096) / 365 in
  let doy := doe - (365 * yoe + yoe / 4 - yoe / 100) in
  let mp := (5 * doy + 2) / 153 in
  let d := doy - (153 * mp + 2) / 5 + 1 in
  let m := if mp <? 10 then mp + 3 else mp - 9 in
  let y := yoe + era * 400 in
  (if m <=? 2 then y + 1 else y, m, d).

Definition ns_per_second : Z := 1000000000.
Definition ns_per_day : Z := 86400 * ns_per_second.

(** The bounds of [pd.Timestamp]. *)
Definition in_bounds (t : Z) : bool := (- 2 ^ 63 <? t) && (t <? 2 ^ 63).

Definition parse_iso (s : string) : option Z :=
  match s with
  | String y1 (String y2 (String y3 (String y4 (String "-"
      (String m1 (String m2 (String "-"
        (String d1 (String d2 EmptyString))))))))) =>
      y1 ← digit y1; y2 ← digit y2; y3 ← digit y3; y4 ← digit y4;
      m1 ← digit m1; m2 ← digit m2; d1 ← digit d1; d2 ← digit d2;
      let y := 1000 * y1 + 100 * y2 + 10 * y3 + y4 in
      let m := 10 * m1 + m2 in
      let d := 10 * d1 + d2 in
      let t := days_from_civil y m d * ns_per_day in
      if (1 <=? m) && (m <=? 12) && (1 <=? d) && (d <=? days_in_month y m)
         && in_bounds t
      then Some t else None
  | _ => None
  end.

(** Two digits that name a number below [bound]. *)
Definition two_digits (bound : Z) (c1 c2 : ascii) : option Z :=
  d1 ← digit c1; d2 ← digit c2;
  let n := 10 * d1 + d2 in
  if n <? bound then Some n else None.

Definition parse_zoned (s : string) : option Z :=
  match String.substring 10 (String.length s - 10) s with
  | String "T" (String h1 (String h2 (String ":"
      (String m1 (String m2 (String ":"
        (String s1 (String s2 (String "Z" EmptyString))))))))) =>
      day ← parse_iso (String.substring 0 10 s);
      h ← two_digits 24 h1 h2;
      m ← two_digits 60 m1 m2;
      sec ← two_digits 60 s1 s2;
      let t := day + (3600 * h + 60 * m + sec) * ns_per_second in
      if in_bounds t then Some t else None
  | _ => None
  end.

(** The first text of a column. *)
Fixpoint first_text (values : list cell) : option string :=
  match values with
  | [] => None
  | CStr s :: _ => Some s
  | _ :: values' => first_text values'
  end.

(** The column is given a time zone. *)
Definition zoned (values : list cell) : bool :=
  match first_text values with
  | Some s => match parse_zoned s with Some _ => true | None => false end
  | None => false
  end.

Definition parse_cell (with_zone : bool) (v : cell) : cell :=
  match v with
  | CStr s =>
      match (if with_zone then parse_zoned s else parse_iso s) with
      | Some t => CTime t
      | None => CNaT
      end
  | CInt n | CFloat n => if in_bounds n then CTime n else CNaT
  | CTime t => CTime t
  | CNaN | CNone | CNaT => CNaT
  end.

Definition to_datetime (values : list cell) : list cell :=
  parse_cell (zoned values) <$> values.

Definition tz_clash (a b : list cell) : bool := xorb (zoned a) (zoned b).

Definition is_number (v : cell) : bool :=
  match v with
  | CNaN | CNone => true
  | CInt n => (- 2 ^ 63 <=? n) && (n <? 2 ^ 63)
  | _ => false
  end.

Definition is_int (v : cell) : bool :=
  match v with CInt _ => true | _ => false end.

Definition is_nan (v : cell) : bool :=
  match v with CNaN => true | _ => false end.

Definition upcasts (values : list cell) : bool :=
  forallb is_number values && existsb isna values
  && (existsb is_int values || existsb is_nan values).

Definition str_of_float (z : Z) : string :=
  (Text.str_of_int z ++ ".0")%string.

(** ["TÜRKİYE".title()] and ["Türki̇ye".title()]: the small dotted i is
    written [i] and a combining dot, after which a new word starts. *)
Definition title (s : string) : string :=
  if Text.ascii_text s then Text.title s
  else if String.eqb s "TÜRKİYE" then "Türki̇ye"
  else if String.eqb s "Türki̇ye" then "Türki̇Ye"
  else Text.title s.

(** [n] in decimal, padded with zeros to [width] digits. *)
Fixpoint pad (width : nat) (n : Z) : string :=
  match width with
  | O => EmptyString
  | S w => (pad w (n / 10) ++ String (ascii_of_nat (48 + Z.to_nat (n mod 10))) EmptyString)%string
  end.

(** [str(timestamp)]. *)
Definition str_of_timestamp (t : Z) : string :=
  let '(y, m, d) := civil_from_days (t / ns_per_day) in
  let ns := t mod ns_per_day in
  let s := ns / ns_per_second in
  let frac := ns mod ns_per_second in
  (pad 4 y ++ "-" ++ pad 2 m ++ "-" ++ pad 2 d ++ " "
   ++ pad 2 (s / 3600) ++ ":" ++ pad 2 (s / 60 mod 60) ++ ":" ++ pad 2 (s mod 60)
   ++ (if (frac =? 0)%Z then ""
       else if (frac mod 1000 =? 0)%Z then "." ++ pad 6 (frac / 1000)
       else "." ++ pad 9 frac))%string.
End Iso.

(** ** Sample data *)

Module Demo.
Definition booking (id : Z) (d_in d_out company country : string) : record :=
  {[ "booking_id" := CInt id;
     "check_in_date" := CStr d_in;
     "check_out_date" := CStr d_out;
     "owner_company" := CStr company;
     "owner_company_country" := CStr country ]}.

Definition b1 : record := booking 1 "2024-01-01" "2024-01-05" "  acme corp  " "france".
Definition b2 : record := booking 2 "2024-03-01" "2024-03-02" "Globex" "SPAIN".
Definition b3 : record := booking 3 "2024-05-10" "2024-05-11" "initech" "italy".

(** A server that plays a script: the answers to give, in order; a
    request made after the script has run out fails. *)
Definition scripted (page : Z) (script : list response)
  : response * list response :=
  match script with
  | [] => (TransportFailure, [])
  | r :: script' => (r, script')
  end.

Definition page (total : Z) (results : list record) : response :=
  Body {[ "total" := JInt total; "results" := JList results ]}.

(** A server that gives the same answer to every request. *)
Definition steady (page : Z) (answer : response) : response * response :=
  (answer, answer).

(** 120 records reported: three pages. *)
Definition three_pages : list response :=
  [page 120 [b1]; page 120 [b2]; page 120 [b3]].

(** 50 records reported: one page; the script holds more. *)
Definition one_page : list response := [page 50 [b1]; page 50 [b2]].

Definition no_results : response := Body {[ "total" := JInt 120 ]}.
Definition no_total : response := Body {[ "results" := JList [b1] ]}.

Definition bad_first : list response := [no_results; page 120 [b2]].
Definition bad_total : list response := [no_total; page 120 [b2]].
Definition bad_third : list response := [page 120 [b1]; page 120 [b2]; no_results].
Definition down_first : list response := [TransportFailure; page 120 [b2]].
Definition down_third : list response :=
  [page 120 [b1]; page 120 [b2]; TransportFailure; page 120 [b3]].

Definition start (script : list response) : Extract.World :=
  Extract.mkWorld script [].

(** Midnight of a day, as a timestamp. *)
Definition midnight (y m d : Z) : cell :=
  CTime (Iso.days_from_civil y m d * Iso.ns_per_day).

(** A row as the normaliser leaves it. *)
Definition cleaned (id : Z) (d_in d_out : cell) (company country : string)
  : record :=
  {[ "booking_id" := CInt id;
     "check_in_date" := d_in;
     "check_out_date" := d_out;
     "owner_company" := CStr company;
     "owner_company_country" := CStr country ]}.

Definition five_columns : gset string :=
  {[ "booking_id"; "check_in_date"; "check_out_date";
     "owner_company"; "owner_company_country" ]}.

(** One booking sent twice, with new dates the second time. *)
Definition twice : list record :=
  [ booking 1 "2024-01-01" "2024-01-05" "acme" "france";
    booking 1 "2024-02-01" "2024-02-05" "acme" "france" ].

Definition twice_out : Transform.DataFrame :=
  Transform.mkDataFrame five_columns
    [ (1%nat, cleaned 1 (midnight 2024 2 1) (midnight 2024 2 5)
                "Acme" "France") ].

(** A sound booking, one with a date that is no date, one that ends
    before it starts. *)
Definition bad_dates : list record :=
  [ b1;
    booking 2 "not-a-date" "2024-03-02" "Globex" "SPAIN";
    booking 3 "2024-05-10" "2024-05-01" "initech" "italy" ].

Definition b1_out : record :=
  cleaned 1 (midnight 2024 1 1) (midnight 2024 1 5) "Acme Corp" "France".

Definition bad_dates_out : Transform.DataFrame :=
  Transform.mkDataFrame five_columns [ (0%nat, b1_out) ].




(** A booking that carries a sixth field. *)
Definition priced : list record := [ <[ "price" := CInt 100 ]> b1 ].

Definition priced_out : Transform.DataFrame :=
  Transform.mkDataFrame ({[ "price" ]} ∪ five_columns)
    [ (0%nat, <[ "price" := CInt 100 ]> b1_out) ].


(** The keys 1, 2, 1. *)
Definition one_two_one : list record := [ b1; b2; b1 ].

Definition one_two_one_out : Transform.DataFrame :=
  Transform.mkDataFrame five_columns
    [ (1%nat, cleaned 2 (midnight 2024 3 1) (midnight 2024 3 2)
                "Globex" "Spain");
      (2%nat, b1_out) ].
End Demo.

(** ** More sample data *)

Module DemoMore.
(** A sound booking, sent again with a date that is no date. *)
Definition spoiled : list record :=
  [ Demo.b1;
    Demo.booking 1 "not-a-date" "2024-01-05" "acme corp" "france" ].

Definition spoiled_out : Transform.DataFrame :=
  Transform.mkDataFrame Demo.five_columns [].

(** Bookings without a key: one null, one absent. *)
Definition keyless : list record :=
  [ <[ "booking_id" := CNone ]> Demo.b1;
    delete "booking_id" Demo.b2 ].

(** Two bookings with the keys [2 ^ 53] and [2 ^ 53 + 1], and a third
    whose key is null: the column of keys is held as float64, where
    the two keys are the same number. *)
Definition big_ids : list record :=
  [ Demo.booking (2 ^ 53) "2024-01-01" "2024-01-05" "acme" "france";
    Demo.booking (2 ^ 53 + 1) "2024-03-01" "2024-03-02" "Globex" "SPAIN";
    <[ "booking_id" := CNone ]> Demo.b3 ].

Definition big_ids_out : Transform.DataFrame :=
  Transform.mkDataFrame Demo.five_columns
    [ (1%nat, <[ "booking_id" := CFloat (2 ^ 53) ]>
                (Demo.cleaned 2 (Demo.midnight 2024 3 1)
                   (Demo.midnight 2024 3 2) "Globex" "Spain")) ].

(** The first two of them alone. *)
Definition big_ids_alone : list record := take 2 big_ids.









(** A booking from a country written with a dotted capital I. *)
Definition dotted : list record :=
  [ Demo.booking 1 "2024-01-01" "2024-01-05" "acme" "TÜRKİYE" ].

Definition dotted_out : Transform.DataFrame :=
  Transform.mkDataFrame Demo.five_columns
    [ (0%nat, Demo.cleaned 1 (Demo.midnight 2024 1 1)
                (Demo.midnight 2024 1 5) "Acme" "Türki̇ye") ].

Definition dotted_again : Transform.DataFrame :=
  Transform.mkDataFrame Demo.five_columns
    [ (0%nat, Demo.cleaned 1 (Demo.midnight 2024 1 1)
                (Demo.midnight 2024 1 5) "Acme" "Türki̇Ye") ].
End DemoMore.

(** ** load.py, create_country_currency.py, create_final_table.py,
    present_final_table.py

    The database, the file system and the terminal are an environment
    that decides whether each action succeeds; the stages are read as
    the sequence of actions they attempt.  Log lines are not modelled,
    so a handler that logs and raises again is [catch _ raise]. *)

Module Db.
Import Transform.

(** The exceptions of these stages: one of the stages above, an
    access to a local variable that was never assigned, or one raised
    by psycopg2, the file system, pandas or tabulate. *)
Inductive error :=
| Py (e : exn)
| UnboundLocalError (name : string)
| External (what : string).

(** The actions on the outside. *)
Inductive event :=
| Connect                                       (* psycopg2.connect(...) *)
| Cursor                                        (* conn.cursor() *)
| ReadFile (path : string)                      (* open(path).read() *)
| Execute (sql : string) (params : list cell)   (* cur.execute(sql, params) *)
| Commit                                        (* conn.commit() *)
| Rollback                                      (* conn.rollback() *)
| CloseCursor                                   (* cur.close() *)
| CloseConn                                     (* conn.close() *)
| ReadCsv (path : string)                       (* pd.read_csv(path) *)
| ReadSqlQuery (query : string)                 (* pd.read_sql_query(query, conn):
                                                   pandas runs the query on the
                                                   connection and reads its rows *)
| Print (table : DataFrame)                     (* print(tabulate(table, ...)) *)
| ToCsv (path : string) (table : DataFrame).    (* table.to_csv(path, index=False) *)

(** Computations on a state [S] that may raise. *)
Definition St (S A : Type) : Type := S → (error + A) * S.

Definition ret {S A} (a : A) : St S A := λ s, (inr a, s).
Definition raise {S A} (e : error) : St S A := λ s, (inl e, s).
Definition bind {S A B} (m : St S A) (k : A → St S B) : St S B :=
  λ s, match m s with
       | (inl e, s') => (inl e, s')
       | (inr a, s') => k a s'
       end.

(** [try: m  except Exception as e: h e]. *)
Definition catch {S A} (m : St S A) (h : error → St S A) : St S A :=
  λ s, match m s with
       | (inl e, s') => h e s'
       | (inr a, s') => (inr a, s')
       end.

(** [try: m  finally: f]: an exception of [f] replaces the outcome
    of [m]. *)
Definition finally {S A} (m : St S A) (f : St S unit) : St S A :=
  λ s, match m s with
       | (r, s') =>
           match f s' with
           | (inl e, s'') => (inl e, s'')
           | (inr _, s'') => (r, s'')
           end
       end.

(** [m], with its exception handed over as a value. *)
Definition attempt {S A} (m : St S A) : St S (error + A) :=
  λ s, match m s with (r, s') => (inr r, s') end.

Notation "'let*' x := m 'in' k" := (bind m (λ x, k))
  (at level 10, x name, m at level 100, k at level 200).
Notation "'run' m 'in' k" := (bind m (λ _, k))
  (at level 10, m at level 100, k at level 200).

(** [for x in l: body x]. *)
Fixpoint for_each {S X} (l : list X) (body : X → St S unit) : St S unit :=
  match l with
  | [] => ret tt
  | x :: l' => run body x in for_each l' body
  end.

(** The statements of [load_to_postgres] and [load_csv_to_postgres],
    with their white space collapsed. *)
Definition INSERT_BOOKING : string :=
  "INSERT INTO bookings (booking_id, check_in_date, check_out_date, owner_company, owner_company_country) VALUES (%s, %s, %s, %s, %s) ON CONFLICT (booking_id) DO NOTHING;".

Definition INSERT_RATE : string :=
  "INSERT INTO currency_rates (from_currency, to_currency, rate, rate_date) VALUES (%s, %s, %s, %s)".

Definition booking_columns : list string :=
  ["booking_id"; "check_in_date"; "check_out_date";
   "owner_company"; "owner_company_country"].

Definition rate_columns : list string :=
  ["from_currency"; "to_currency"; "rate"; "rate_date"].

(** A local variable: never assigned, [None], or an object. *)
Inductive var := Unbound | PyNone | Bound.

Section WithEnv.
(** The environment: whether an action succeeds, what a file holds
    and what a read of a table yields. *)
Context {Env : Type}.
Variable perform : event → Env → option error * Env.
Variable read_text : string → Env → (error + string) * Env.
Variable read_table : event → Env → (error + DataFrame) * Env.

(** The world of these stages: the environment and the actions
    attempted so far, oldest first, each with the exception it
    raised, if any. *)
Record World := mkWorld { env : Env; trace : list (event * option error) }.

Definition raised {A} (r : error + A) : option error :=
  match r with inl e => Some e | inr _ => None end.

Definition act (ev : event) : St World unit :=
  λ w, let '(o, e) := perform ev (env w) in
       let w' := mkWorld e (trace w ++ [(ev, o)]) in
       match o with
       | Some err => (inl err, w')
       | None => (inr tt, w')
       end.

Definition read_file (path : string) : St World string :=
  λ w, let '(r, e) := read_text path (env w) in
       (r, mkWorld e (trace w ++ [(ReadFile path, raised r)])).

Definition read (ev : event) : St World DataFrame :=
  λ w, let '(r, e) := read_table ev (env w) in
       (r, mkWorld e (trace w ++ [(ev, raised r)])).

(** The frame of a call: the world and the locals [conn] and [cur]. *)
Record Frame := mkFrame { world : World; conn : var; cur : var }.

Definition lift {A} (m : St World A) : St Frame A :=
  λ f, let '(r, w) := m (world f) in (r, mkFrame w (conn f) (cur f)).

Definition set_conn (v : var) : St Frame unit :=
  λ f, (inr tt, mkFrame (world f) v (cur f)).

Definition set_cur (v : var) : St Frame unit :=
  λ f, (inr tt, mkFrame (world f) (conn f) v).

(** The body of a function, run from the initial values of its
    locals. *)
Definition call {A} (conn0 cur0 : var) (body : St Frame A) : St World A :=
  λ w, let '(r, f) := body (mkFrame w conn0 cur0) in (r, world f).

(** A method call on the object a local names. *)
Definition method (name : string) (v : var) (ev : event) : St Frame unit :=
  match v with
  | Bound => lift (act ev)
  | PyNone => raise (Py AttributeError)
  | Unbound => raise (UnboundLocalError name)
  end.

Definition on_conn (ev : event) : St Frame unit :=
  λ f, method "conn" (conn f) ev f.

Definition on_cur (ev : event) : St Frame unit :=
  λ f, method "cur" (cur f) ev f.

(** [if v:] for a local. *)
Definition truth (name : string) (v : var) : St Frame bool :=
  match v with
  | Bound => ret true
  | PyNone => ret false
  | Unbound => raise (UnboundLocalError name)
  end.

Definition if_conn (m : St Frame unit) : St Frame unit :=
  λ f, (let* c := truth "conn" (conn f) in if c then m else ret tt) f.

Definition if_cur (m : St Frame unit) : St Frame unit :=
  λ f, (let* c := truth "cur" (cur f) in if c then m else ret tt) f.

(** *** load.py *)

Definition get_conn : St World unit := catch (act Connect) raise.

Definition read_csv_data : St World DataFrame :=
  catch (read (ReadCsv "currency_rates.csv")) raise.

(** [conn = get_conn(); cur = conn.cursor()]. *)
Definition open_cursor : St Frame unit :=
  run lift get_conn in
  run set_conn Bound in
  run on_conn Cursor in
  set_cur Bound.

(** [with open(path, "r") as f: sql = f.read(); cur.execute(sql)]. *)
Definition execute_file (path : string) : St Frame unit :=
  let* sql := lift (read_file path) in
  on_cur (Execute sql []).

(** The body that [create_booking_table] and [create_rate_table]
    share. *)
Definition create_table (path : string) : St World unit :=
  call Unbound Unbound
    (finally
       (catch
          (run open_cursor in
           run execute_file path in
           on_conn Commit)
          raise)
       (run on_cur CloseCursor in
        on_conn CloseConn)).

Definition create_booking_table : St World unit :=
  create_table (TABLE_NAME ++ ".sql")%string.

Definition create_rate_table : St World unit :=
  create_table "currency_rates.sql".

(** [row[c]] for a row of [df.iterrows()]. *)
Definition row_get (df : DataFrame) (r : record) (c : string) : St Frame cell :=
  if decide (c ∈ columns df) then ret (at_col c r) else raise (Py (KeyError c)).

(** [(row[c1], row[c2], ...)], evaluated left to right. *)
Fixpoint row_values (df : DataFrame) (r : record) (cs : list string)
  : St Frame (list cell) :=
  match cs with
  | [] => ret []
  | c :: cs' =>
      let* v := row_get df r c in
      let* vs := row_values df r cs' in
      ret (v :: vs)
  end.

(** [cur.execute(sql, (row[c1], row[c2], ...))]. *)
Definition insert_row (sql : string) (cs : list string) (df : DataFrame)
    (ir : nat * record) : St Frame unit :=
  let* params := row_values df ir.2 cs in
  on_cur (Execute sql params).

(** The body that [load_to_postgres] and [load_csv_to_postgres]
    share: one statement per row, then the commit. *)
Definition load_rows (sql : string) (cs : list string) (df : DataFrame)
  : St World unit :=
  call Unbound Unbound
    (finally
       (catch
          (run open_cursor in
           run for_each (rows df) (insert_row sql cs df) in
           on_conn Commit)
          raise)
       (run on_cur CloseCursor in
        on_conn CloseConn)).

Definition load_to_postgres (df : DataFrame) : St World unit :=
  load_rows INSERT_BOOKING booking_columns df.

Definition load_csv_to_postgres (csv_df : DataFrame) : St World unit :=
  load_rows INSERT_RATE rate_columns csv_df.

(** *** create_country_currency.py and create_final_table.py *)

(** The body the two functions share. *)
Definition create_from (path : string) : St World unit :=
  call PyNone PyNone
    (finally
       (catch
          (run open_cursor in
           run catch (execute_file path) raise in
           on_conn Commit)
          (λ e, run if_conn (on_conn Rollback) in
                raise e))
       (run if_cur (on_cur CloseCursor) in
        if_conn (on_conn CloseConn))).

Definition create_country_currency : St World unit :=
  create_from "country_currency.sql".

Definition create_final_table : St World unit :=
  create_from "final_table.sql".

(** *** present_final_table.py *)

(** [if csv_path:]. *)
Definition given (csv_path : option string) : option string :=
  match csv_path with
  | Some EmptyString | None => None
  | Some path => Some path
  end.

Definition present_final_table (csv_path : option string) : St World unit :=
  call PyNone Unbound
    (finally
       (catch
          (run lift get_conn in
           run set_conn Bound in
           let* query := lift (read_file "final_table_presentation.sql") in
           let* df := lift (read (ReadSqlQuery query)) in
           run lift (act (Print df)) in
           match given csv_path with
           | Some path => catch (lift (act (ToCsv path df))) (λ _, ret tt)
           | None => ret tt
           end)
          (λ _, ret tt))
       (if_conn (on_conn CloseConn))).
End WithEnv.
End Db.

(** ** Reading a trace *)

Module Traces.
Import Db.

(** The action [ev] was attempted. *)
Definition attempted (ev : event) (t : list (event * option error)) : Prop :=
  ∃ o, (ev, o) ∈ t.

(** The action [ev] was attempted and did not raise. *)
Definition succeeded (ev : event) (t : list (event * option error)) : Prop :=
  (ev, None) ∈ t.

(** No action of the trace raised. *)
Definition all_well (t : list (event * option error)) : Prop :=
  Forall (λ x, x.2 = None) t.

Definition is_connect (x : event * option error) : bool :=
  match x.1 with Connect => true | _ => false end.

(** The number of connections asked for. *)
Definition connects (t : list (event * option error)) : nat :=
  length (List.filter is_connect t).

(** The statements sent, in order, each with what it raised. *)
Definition statements (t : list (event * option error))
  : list (string * list cell * option error) :=
  omap (λ x, match x.1 with
             | Execute sql params => Some (sql, params, x.2)
             | _ => None
             end) t.

(** The values [load_to_postgres] reads from a row. *)
Definition values (cs : list string) (r : record) : list cell :=
  (λ c, Transform.at_col c r) <$> cs.

(** The entry that the statement sent for a row leaves in the trace,
    and the statement as [statements] lists it. *)
Definition sent (sql : string) (cs : list string) (o : option error)
    (ir : nat * record) : event * option error :=
  (Execute sql (values cs ir.2), o).

Definition stated (sql : string) (cs : list string) (o : option error)
    (ir : nat * record) : string * list cell * option error :=
  (sql, values cs ir.2, o).

(** The actions whose outcome the user gets to see: the table on the
    terminal and the CSV file. *)
Definition shows (ev : event) : bool :=
  match ev with Print _ | ToCsv _ _ => true | _ => false end.

(** Nothing is printed and no CSV file is written. *)
Definition quiet (t : list (event * option error)) : Prop :=
  Forall (λ x, shows x.1 = false) t.
End Traces.

(** ** Sample environments *)

Module DemoDb.
Import Db.

Definition boom : error := External "boom".

(** Environments that count the actions and make the [k]-th raise. *)
Definition failing (k : nat) (ev : event) (n : nat) : option error * nat :=
  (if decide (n = k) then Some boom else None, S n).

Definition text_failing (k : nat) (path : string) (n : nat)
  : (error + string) * nat :=
  (if decide (n = k) then inl boom else inr path, S n).

Definition rates : Transform.DataFrame :=
  Transform.mkDataFrame {[ "from_currency"; "to_currency"; "rate"; "rate_date" ]}
    [ (0%nat, {[ "from_currency" := CStr "EUR"; "to_currency" := CStr "USD";
                 "rate" := CInt 1; "rate_date" := CStr "2024-01-01" ]}) ].

Definition table_failing (k : nat) (ev : event) (n : nat)
  : (error + Transform.DataFrame) * nat :=
  (if decide (n = k) then inl boom else inr rates, S n).

(** No action raises. *)
Definition never : nat := 1000.

Definition fresh : @World nat := mkWorld 0%nat [].

(** Sample runs: the statement of [create_country_currency] raises;
    the commit of [create_final_table] raises; [create_booking_table]
    gets no connection; the statement of [create_rate_table] raises;
    [load_to_postgres] on a cleaned table and on a table of rates;
    [present_final_table] when printing raises. *)
Definition country_currency_fails : (error + unit) * @World nat :=
  Eval vm_compute in
    create_country_currency (failing 3) (text_failing never) fresh.

Definition final_table_fails : (error + unit) * @World nat :=
  Eval vm_compute in
    create_final_table (failing 4) (text_failing never) fresh.

Definition booking_table_fails : (error + unit) * @World nat :=
  Eval vm_compute in
    create_booking_table (failing 0) (text_failing never) fresh.

Definition rate_table_fails : (error + unit) * @World nat :=
  Eval vm_compute in
    create_rate_table (failing 3) (text_failing never) fresh.

Definition bookings_loaded : (error + unit) * @World nat :=
  Eval vm_compute in
    load_to_postgres (failing never) Demo.one_two_one_out fresh.

Definition rates_as_bookings : (error + unit) * @World nat :=
  Eval vm_compute in
    load_to_postgres (failing never) rates fresh.

End DemoDb.

(** ** main.py *)

Module Main.
Import Db.
Section WithOutside.
Context `{Pandas} {Server Env : Type}.
Variable get : Z → Server → response * Server.
Variable perform : event → Env → option error * Env.
Variable read_text : string → Env → (error + string) * Env.
Variable read_table : event → Env → (error + Transform.DataFrame) * Env.

(** What the pipeline acts on: the API and the database side. *)
Record Outside := mkOutside {
  api : @Extract.World Server;
  db : @Db.World Env
}.

Definition on_api {A} (m : Extract.M A) : St Outside A :=
  λ o, let '(r, a) := m (api o) in
       (match r with inl e => inl (Py e) | inr x => inr x end,
        mkOutside a (db o)).

Definition on_db {A} (m : St Db.World A) : St Outside A :=
  λ o, let '(r, d) := m (db o) in (r, mkOutside (api o) d).

(** [len(records)] of the log line: [records] has to be a list. *)
Definition listed (records : json) : St Outside (list record) :=
  match records with
  | JList l => ret l
  | _ => raise (Py TypeError)
  end.

Definition transformed (records : list record) : St Outside Transform.DataFrame :=
  match Transform.transform_data records with
  | inl e => raise (Py e)
  | inr df => ret df
  end.

(** [main()]: a stage that fails in one of the first four [try]
    blocks ends the run; the last three are attempted in any case. *)
Definition main : St Outside unit :=
  let* extraction :=
    attempt (let* records := on_api (Extract.extract_all_pages get) in
             listed records) in
  match extraction with
  | inl _ => ret tt
  | inr records =>
      let* transformation := attempt (transformed records) in
      match transformation with
      | inl _ => ret tt
      | inr df =>
          let* creation :=
            attempt (run on_db (create_booking_table perform read_text) in
                     let* currency_rates := on_db (read_csv_data read_table) in
                     run on_db (create_rate_table perform read_text) in
                     ret currency_rates) in
          match creation with
          | inl _ => ret tt
          | inr currency_rates =>
              let* loading :=
                attempt (run on_db (load_to_postgres perform df) in
                         on_db (load_csv_to_postgres perform currency_rates)) in
              match loading with
              | inl _ => ret tt
              | inr _ =>
                  run attempt (on_db (create_country_currency perform read_text)) in
                  run attempt (on_db (create_final_table perform read_text)) in
                  run attempt (on_db (present_final_table perform read_text
                                        read_table (Some "output/final_table.csv"))) in
                  ret tt
              end
          end
      end
  end.
End WithOutside.
End Main.

(** A run of the pipeline against an API that reports no records. *)

Module DemoMain.
Definition nothing_to_fetch : @Main.Outside (list response) nat :=
  Main.mkOutside (Demo.start [Demo.page 0 []]) DemoDb.fresh.
End DemoMain.

(** The sample of the libraries meets [Pandas]. *)

Module IsoFacts.
Lemma Forall_sub {A} (P : A → Prop) (l1 l2 : list A) :
  l1 `sublist_of` l2 → Forall P l2 → Forall P l1.
Proof.
  intros Hsub. rewrite !Forall_forall. intros Hall x Hx.
  apply Hall. by eapply elem_of_sublist.
Qed.

Lemma first_text_datetimes l : Forall is_datetime l → Iso.first_text l = None.
Proof. induction 1 as [|v l Hv _ IH]; [done|]. by destruct v. Qed.

Lemma zoned_datetimes l : Forall is_datetime l → Iso.zoned l = false.
Proof. intros Hl. unfold Iso.zoned. by rewrite first_text_datetimes. Qed.

Lemma to_datetime_is_datetime l : Forall is_datetime (Iso.to_datetime l).
Proof.
  unfold Iso.to_datetime. apply Forall_fmap, Forall_true. intros v.
  unfold compose. destruct v; simpl; repeat case_match; exact I.
Qed.

Lemma sublist_zip_fst {A B} (a' : list A) (b' : list B) l :
  length a' = length b' → zip a' b' `sublist_of` l → a' `sublist_of` l.*1.
Proof.
  intros Hlen Hsub. rewrite <-(fst_zip a' b') by lia. by apply fmap_sublist.
Qed.

Lemma sublist_zip_snd {A B} (a' : list A) (b' : list B) l :
  length a' = length b' → zip a' b' `sublist_of` l → b' `sublist_of` l.*2.
Proof.
  intros Hlen Hsub. rewrite <-(snd_zip a' b') by lia. by apply fmap_sublist.
Qed.

Lemma Forall_zip_fst {A B} (P : A → Prop) (a : list A) (b : list B) :
  Forall P a → Forall P (zip a b).*1.
Proof.
  intros Ha. revert b. induction Ha as [|x a Hx _ IH]; intros [|y b]; simpl;
    try constructor; auto.
Qed.

Lemma Forall_zip_snd {A B} (P : B → Prop) (a : list A) (b : list B) :
  Forall P b → Forall P (zip a b).*2.
Proof.
  intros Hb. revert a. induction Hb as [|y b Hy _ IH]; intros [|x a]; simpl;
    try constructor; auto.
Qed.
End IsoFacts.

#[global] Program Instance iso_pandas : Pandas := {|
  to_datetime := Iso.to_datetime;
  tz_clash := Iso.tz_clash;
  upcasts := Iso.upcasts;
  str_of_float := Iso.str_of_float;
  str_of_timestamp := Iso.str_of_timestamp;
  py_strip := Text.strip;
  py_title := Iso.title
|}.
Next Obligation. intros l. apply length_fmap. Qed.
Next Obligation. apply IsoFacts.to_datetime_is_datetime. Qed.
Next Obligation.
  intros l Hl. unfold Iso.to_datetime.
  rewrite IsoFacts.zoned_datetimes by done.
  induction Hl as [|v l Hv _ IH]; [done|].
  rewrite fmap_cons, IH. f_equal. by destruct v.
Qed.
Next Obligation. done. Qed.
Next Obligation.
  intros a b a' b' _ Hlen Hsub. unfold Iso.tz_clash.
  rewrite (IsoFacts.zoned_datetimes a'), (IsoFacts.zoned_datetimes b');
    [done|..].
  - eapply IsoFacts.Forall_sub; [by eapply IsoFacts.sublist_zip_snd|].
    apply IsoFacts.Forall_zip_snd, IsoFacts.to_datetime_is_datetime.
  - eapply IsoFacts.Forall_sub; [by eapply IsoFacts.sublist_zip_fst|].
    apply IsoFacts.Forall_zip_fst, IsoFacts.to_datetime_is_datetime.
Qed.
Next Obligation.
  intros l s Hs. unfold Iso.upcasts.
  assert (forallb Iso.is_number l = false) as ->; [|done].
  apply not_true_is_false. intros Hall.
  rewrite forallb_forall in Hall. apply list_elem_of_In in Hs.
  by specialize (Hall _ Hs).
Qed.
Next Obligation.
  intros l Hl. unfold Iso.upcasts.
  assert (existsb isna l = false) as ->; [|by rewrite andb_false_r].
  induction Hl as [|v l Hv _ IH]; [done|]. simpl. rewrite IH.
  by destruct v.
Qed.
Next Obligation.
  intros l n v Hl Hn Hv Hna. unfold Iso.upcasts.
  assert (forallb Iso.is_number l = true) as ->.
  { apply forallb_forall. intros x Hx%list_elem_of_In.
    rewrite Forall_forall in Hl. specialize (Hl x Hx).
    destruct x; simpl in *; try done.
    apply andb_true_iff. split; [apply Z.leb_le|apply Z.ltb_lt]; lia. }
  assert (existsb isna l = true) as ->.
  { apply existsb_exists. exists v. by rewrite <-list_elem_of_In. }
  assert (existsb Iso.is_int l = true) as ->; [|done].
  apply existsb_exists. exists (CInt n). by rewrite <-list_elem_of_In.
Qed.
Next Obligation. done. Qed.
Next Obligation. done. Qed.
Next Obligation. intros s Hs. unfold Iso.title. by rewrite Hs. Qed.

(** ** Properties of the float arithmetic *)

Module FloatFacts.
Import Float.
Local Open Scope Z_scope.

Lemma nearest_even_50 N :
  let m := nearest_even N 50 in
  N - 25 ≤ 50 * m ≤ N + 25 ∧ (N mod 50 = 0 → 50 * m = N).
Proof.
  unfold nearest_even.
  pose proof (Z.div_mod N 50 ltac:(lia)) as Hdm.
  pose proof (Z.mod_pos_bound N 50 ltac:(lia)) as Hm.
  repeat case_match; lia.
Qed.

Lemma ceil_unique m P c :
  0 < P → (c - 1) * P < m ≤ c * P → - (- m / P) = c.
Proof.
  intros HP Hm.
  assert (- m / P = - c) as ->; [|lia].
  symmetry. apply (Z.div_unique (- m) P (- c) (c * P - m)); lia.
Qed.

Lemma floor_unique m P f :
  0 < P → f * P ≤ m < (f + 1) * P → m / P = f.
Proof.
  intros HP Hm. symmetry. apply (Z.div_unique m P f (m - f * P)); lia.
Qed.

(** The double nearest to [n / 50], for [0 < n < 50 * 2 ^ 48]. *)
Lemma nearest_double_50 n :
  0 < n < 50 * 2 ^ 48 →
  ∃ k, 5 ≤ k ≤ 58
       ∧ nearest_double n 50 = (nearest_even (n * 2 ^ k) 50, - k).
Proof.
  intros Hn. unfold nearest_double.
  destruct (n =? 0) eqn:H0; [lia|].
  change (Z.log2 50 + 1) with 6. change (2 ^ 6) with 64.
  set (Q := n * 64 / 50).
  assert (1 ≤ Q < 2 ^ 54) as HQ.
  { unfold Q. split.
    - apply Z.div_le_lower_bound; lia.
    - apply Z.div_lt_upper_bound; [lia|]. change (2 ^ 54) with (2^48 * 64). lia. }
  assert (0 ≤ Z.log2 Q < 54) as HL.
  { split; [apply Z.log2_nonneg|]. apply Z.log2_lt_pow2; lia. }
  exists (58 - Z.log2 Q). split; [lia|].
  replace (Z.max (Z.log2 Q - 6 - 52) (-1074)) with (- (58 - Z.log2 Q)) by lia.
  unfold pow2.
  replace (Z.max (- - (58 - Z.log2 Q)) 0) with (58 - Z.log2 Q) by lia.
  replace (Z.max (- (58 - Z.log2 Q)) 0) with 0 by lia.
  by rewrite Z.mul_1_r.
Qed.

(** [ceil_div a b] is the least integer not below [a / b]. *)
Lemma ceil_div_bounds (a b : Z) :
  0 < b → b * (Extract.ceil_div a b - 1) < a ≤ b * Extract.ceil_div a b.
Proof.
  intros Hb. unfold Extract.ceil_div.
  pose proof (Z.div_mod (- a) b ltac:(lia)) as Hdm.
  pose proof (Z.mod_pos_bound (- a) b Hb) as Hm.
  nia.
Qed.

Lemma total_pages_pos n :
  0 < n < 50 * 2 ^ 48 →
  Extract.total_pages n = inr (Extract.ceil_div n PER_PAGE).
Proof.
  intros Hn. unfold Extract.total_pages, true_div, PER_PAGE.
  destruct (nearest_double_50 n Hn) as (k & Hk & Hnd).
  change (50 =? 0) with false. cbn match.
  replace (Z.abs n) with n by lia. change (Z.abs 50) with 50. rewrite Hnd.
  set (P := 2 ^ k). set (m := nearest_even (n * P) 50).
  assert (32 ≤ P ≤ 2 ^ 58) as HP.
  { unfold P. split.
    - change 32 with (2 ^ 5). apply Z.pow_le_mono_r; lia.
    - apply Z.pow_le_mono_r; lia. }
  pose proof (nearest_even_50 (n * P)) as [Hm _]. fold m in Hm.
  pose proof (ceil_div_bounds n 50 ltac:(lia)) as Hc.
  set (c := Extract.ceil_div n 50) in *.
  assert (n * P ≤ 50 * (c * P)) as Hup by nia.
  assert (50 * ((c - 1) * P) + P ≤ n * P) as Hlow by nia.
  unfold pow2. replace (Z.max (- k) 0) with 0 by lia.
  assert ((2 ^ 1024 <=? m * 2 ^ 0) = false) as ->.
  { apply Z.leb_gt. change (2 ^ 0) with 1.
    assert (n * P < 2 ^ 54 * 2 ^ 58) by nia.
    assert (2 ^ 54 * 2 ^ 58 < 2 ^ 1024) by (vm_compute; done).
    lia. }
  unfold ceil. replace (0 <=? - k) with false by (symmetry; apply Z.leb_gt; lia).
  replace (Z.sgn n) with 1 by lia. change (Z.sgn 50) with 1.
  replace (1 * 1 * m) with m by lia.
  replace (- - k) with k by lia. fold P.
  f_equal. apply ceil_unique; lia.
Qed.

Lemma total_pages_neg n :
  0 < n < 50 * 2 ^ 48 →
  Extract.total_pages (- n) = inr (Extract.ceil_div (- n) PER_PAGE).
Proof.
  intros Hn. unfold Extract.total_pages, true_div, PER_PAGE.
  destruct (nearest_double_50 n Hn) as (k & Hk & Hnd).
  change (50 =? 0) with false. cbn match.
  replace (Z.abs (- n)) with n by lia. change (Z.abs 50) with 50. rewrite Hnd.
  set (P := 2 ^ k). set (m := nearest_even (n * P) 50).
  assert (32 ≤ P ≤ 2 ^ 58) as HP.
  { unfold P. split.
    - change 32 with (2 ^ 5). apply Z.pow_le_mono_r; lia.
    - apply Z.pow_le_mono_r; lia. }
  pose proof (nearest_even_50 (n * P)) as [Hm _]. fold m in Hm.
  unfold Extract.ceil_div. replace (- - n) with n by lia.
  pose proof (Z.div_mod n 50 ltac:(lia)) as Hdm.
  pose proof (Z.mod_pos_bound n 50 ltac:(lia)) as Hmod.
  set (f := n / 50) in *.
  assert (50 * (f * P) ≤ n * P) as Hlow by nia.
  assert (n * P ≤ 50 * (f * P) + 49 * P) as Hup by nia.
  unfold pow2. replace (Z.max (- k) 0) with 0 by lia.
  assert ((2 ^ 1024 <=? m * 2 ^ 0) = false) as ->.
  { apply Z.leb_gt. change (2 ^ 0) with 1.
    assert (n * P < 2 ^ 54 * 2 ^ 58) by nia.
    assert (2 ^ 54 * 2 ^ 58 < 2 ^ 1024) by (vm_compute; done).
    lia. }
  unfold ceil. replace (0 <=? - k) with false by (symmetry; apply Z.leb_gt; lia).
  replace (Z.sgn (- n)) with (-1) by lia. change (Z.sgn 50) with 1.
  replace (- (-1 * 1 * m)) with m by lia.
  replace (- - k) with k by lia. fold P.
  f_equal. f_equal. apply floor_unique; lia.
Qed.

(** For a total of at most [50 * 2 ^ 48] in absolute value the float
    quotient gives the page count of the specification. *)
Lemma total_pages_exact total :
  - (50 * 2 ^ 48) ≤ total ≤ 50 * 2 ^ 48 →
  Extract.total_pages total = inr (Extract.ceil_div total PER_PAGE).
Proof.
  intros Ht.
  destruct (decide (total = 0)) as [->|]; [by vm_compute|].
  destruct (decide (total = 50 * 2 ^ 48)) as [->|]; [by vm_compute|].
  destruct (decide (total = - (50 * 2 ^ 48))) as [->|]; [by vm_compute|].
  destruct (decide (0 < total)).
  - apply total_pages_pos. lia.
  - replace total with (- - total) by lia. apply total_pages_neg. lia.
Qed.

(** An integer of at most 53 bits is a double. *)
Lemma of_int_exact n : Z.abs n ≤ 2 ^ 53 → of_int n = n.
Proof.
  intros Hn. unfold of_int.
  destruct (decide (n = 0)) as [->|]; [done|].
  destruct (decide (Z.abs n = 2 ^ 53)) as [Heq|].
  { rewrite Heq. destruct (decide (0 < n)); [|].
    - replace n with (2 ^ 53) by lia. by vm_compute.
    - replace n with (- 2 ^ 53) by lia. by vm_compute. }
  set (a := Z.abs n). assert (0 < a < 2 ^ 53) as Ha by lia.
  unfold nearest_double. destruct (a =? 0) eqn:H0; [lia|].
  change (Z.log2 1 + 1) with 1. rewrite Z.div_1_r. change (2 ^ 1) with 2.
  rewrite (Z.mul_comm a 2), Z.log2_double by lia.
  assert (0 ≤ Z.log2 a < 53) as HL.
  { split; [apply Z.log2_nonneg|]. apply Z.log2_lt_pow2; lia. }
  replace (Z.max (Z.succ (Z.log2 a) - 1 - 52) (-1074)) with (Z.log2 a - 52) by lia.
  unfold pow2. replace (Z.max (Z.log2 a - 52) 0) with 0 by lia.
  replace (Z.max (- (Z.log2 a - 52)) 0) with (52 - Z.log2 a) by lia.
  set (P := 2 ^ (52 - Z.log2 a)).
  assert (0 < P) as HP by (apply Z.pow_pos_nonneg; lia).
  change (1 * 2 ^ 0) with 1.
  assert (nearest_even (a * P) 1 = a * P) as ->.
  { unfold nearest_even. rewrite Z.mod_1_r, Z.div_1_r. done. }
  unfold ceil. destruct (0 <=? Z.log2 a - 52) eqn:Hu.
  - apply Z.leb_le in Hu. assert (Z.log2 a = 52) as Heq by lia.
    unfold P. rewrite Heq. change (2 ^ (52 - 52)) with 1.
    replace (52 - 52) with 0 by lia. change (2 ^ 0) with 1. unfold a. lia.
  - replace (- (Z.log2 a - 52)) with (52 - Z.log2 a) by lia. fold P.
    rewrite (ceil_unique (a * P) P a); [unfold a; lia|lia|lia].
Qed.
End FloatFacts.

(** ** Properties of the fetcher *)

Module ExtractFacts.
Import Extract.
Section WithServer.
Context {Server : Type}.
Variable get : Z → Server → response * Server.

Local Open Scope Z_scope.
Local Open Scope list_scope.

Lemma range_single_page (n : Z) : n ≤ 1 → range 2 (n + 1) = [].
Proof.
  intros Hn. unfold range, seqZ.
  replace (Z.to_nat (n + 1 - 2)) with 0%nat by lia. done.
Qed.

Lemma range_pages (n : Z) : 1 ≤ n → 1 :: range 2 (n + 1) = seqZ 1 n.
Proof.
  intros Hn. unfold range.
  replace n with (1 + (n - 1)) at 2 by lia.
  rewrite seqZ_app by lia. simpl.
  f_equal. f_equal. lia.
Qed.

Lemma fetch_page_body page w b s :
  get page (server w) = (Body b, s) →
  fetch_page get page w = (inr b, mkWorld s (requests w ++ [page])).
Proof. intros Hget. unfold fetch_page. by rewrite Hget. Qed.

Lemma fetch_page_failure page w s :
  get page (server w) = (TransportFailure, s) →
  fetch_page get page w = (inl RequestException, mkWorld s (requests w ++ [page])).
Proof. intros Hget. unfold fetch_page. by rewrite Hget. Qed.

(** The loop over a run of well-formed pages appends their records
    and logs their numbers. *)
Lemma fetch_rest_app pre post l w rs s lss :
  replies get pre (server w) = (rs, s) →
  Forall2 carries_results rs lss →
  fetch_rest get (pre ++ post) (JList l) w
  = fetch_rest get post (JList (l ++ concat lss))
      (mkWorld s (requests w ++ pre)).
Proof.
  revert l w rs lss. induction pre as [|p pre IH]; intros l w rs lss Hrep Hall.
  - simpl in Hrep. injection Hrep as <- <-. inversion Hall; subst.
    simpl. rewrite !app_nil_r. by destruct w.
  - simpl in Hrep.
    destruct (get p (server w)) as [r s1] eqn:Hget.
    destruct (replies get pre s1) as [rs' s2] eqn:Hrep'.
    injection Hrep as <- <-.
    inversion Hall as [|? l1 ? lss' (b & -> & Hres) Hall']; subst.
    simpl. unfold bind at 1. rewrite (fetch_page_body _ _ _ _ Hget).
    rewrite Hres. unfold bind, extend, len, ret; simpl.
    rewrite (IH (l ++ l1) (mkWorld s1 (requests w ++ [p])) rs' lss') by done.
    simpl. by rewrite <-!app_assoc.
Qed.

Lemma fetch_rest_ok pages l w rs s lss :
  replies get pages (server w) = (rs, s) →
  Forall2 carries_results rs lss →
  fetch_rest get pages (JList l) w
  = (inr (JList (l ++ concat lss)), mkWorld s (requests w ++ pages)).
Proof.
  intros Hrep Hall.
  rewrite <-(app_nil_r pages) at 1.
  by rewrite (fetch_rest_app _ _ _ _ _ _ _ Hrep Hall).
Qed.

(** The first page, when it is well formed, starts the loop. *)
Lemma extract_first_page s b total n l s1 :
  get 1 s = (Body b, s1) →
  b !! "total" = Some (JInt total) →
  total_pages total = inr n →
  b !! "results" = Some (JList l) →
  extract_all_pages get (mkWorld s [])
  = fetch_rest get (range 2 (n + 1)) (JList l) (mkWorld s1 [1]).
Proof.
  intros Hget Htotal Hn Hres. unfold extract_all_pages, bind.
  rewrite (fetch_page_body 1 (mkWorld s []) b s1) by done.
  rewrite Hres, Htotal. unfold lift. by rewrite Hn.
Qed.

(** A total too large for a float ends the fetch after page 1. *)
Lemma extract_no_page_count s b total e s1 :
  get 1 s = (Body b, s1) →
  b !! "total" = Some (JInt total) →
  total_pages total = inl e →
  is_Some (b !! "results") →
  extract_all_pages get (mkWorld s []) = (inl e, mkWorld s1 [1]).
Proof.
  intros Hget Htotal Hn [v Hres]. unfold extract_all_pages, bind.
  rewrite (fetch_page_body 1 (mkWorld s []) b s1) by done.
  rewrite Hres, Htotal. unfold lift. by rewrite Hn.
Qed.

(** The loop stops at the first page whose request fails. *)
Lemma fetch_rest_failure pre page post l w rs s lss s' :
  replies get pre (server w) = (rs, s) →
  Forall2 carries_results rs lss →
  get page s = (TransportFailure, s') →
  fetch_rest get (pre ++ page :: post) (JList l) w
  = (inl RequestException, mkWorld s' (requests w ++ pre ++ [page])).
Proof.
  intros Hrep Hall Hget.
  rewrite (fetch_rest_app _ _ _ _ _ _ _ Hrep Hall). simpl. unfold bind.
  rewrite (fetch_page_failure page (mkWorld s _) s') by done.
  simpl. by rewrite <-app_assoc.
Qed.

(** The loop stops at the first page whose body lacks ['results']. *)
Lemma fetch_rest_malformed pre page post l w rs s lss b s' :
  replies get pre (server w) = (rs, s) →
  Forall2 carries_results rs lss →
  get page s = (Body b, s') →
  b !! "results" = None →
  fetch_rest get (pre ++ page :: post) (JList l) w
  = (inl (ValueError "results" (Some page)),
     mkWorld s' (requests w ++ pre ++ [page])).
Proof.
  intros Hrep Hall Hget Hres.
  rewrite (fetch_rest_app _ _ _ _ _ _ _ Hrep Hall). simpl. unfold bind.
  rewrite (fetch_page_body page (mkWorld s _) b s') by done.
  rewrite Hres. unfold raise. simpl. by rewrite <-app_assoc.
Qed.

Lemma range_prefix_fresh a b pre page post :
  range 2 b = pre ++ page :: post → a = 1 → page ∉ a :: pre.
Proof.
  intros Hrange -> Hin.
  assert (NoDup (1 :: range 2 b)) as Hnd.
  { apply NoDup_cons. split; [|apply NoDup_seqZ].
    unfold range. rewrite elem_of_seqZ. lia. }
  rewrite Hrange in Hnd.
  change (1 :: pre ++ page :: post) with ((1 :: pre) ++ page :: post) in Hnd.
  apply NoDup_app in Hnd as (_ & Hdisj & _).
  apply (Hdisj page Hin). left.
Qed.

(** C1, as amended. When page 1 carries ['results'] and a ['total']
    of at most [50 * 2 ^ 48] in absolute value, and every later page
    carries ['results'], the number of pages that [extract_all_pages]
    computes through a float is [n], the ceiling of total over
    [PER_PAGE]; it requests page 1 and then the pages 2 to [n], each
    once and in order, and returns the records of the pages,
    concatenated in page order.  For [n] at least 1 the pages
    requested are exactly 1 to [n]; for [n] at most 1 only page 1 is
    requested and the result is the records of page 1. *)
Theorem extract_all_pages_concat s b total l s1 rs s' lss :
  get 1 s = (Body b, s1) →
  b !! "total" = Some (JInt total) →
  - (50 * 2 ^ 48) ≤ total ≤ 50 * 2 ^ 48 →
  b !! "results" = Some (JList l) →
  replies get (range 2 (ceil_div total PER_PAGE + 1)) s1 = (rs, s') →
  Forall2 carries_results rs lss →
  let n := ceil_div total PER_PAGE in
  total_pages total = inr n
  ∧ PER_PAGE * (n - 1) < total ≤ PER_PAGE * n
  ∧ extract_all_pages get (mkWorld s [])
    = (inr (JList (l ++ concat lss)), mkWorld s' (1 :: range 2 (n + 1)))
  ∧ (1 ≤ n → 1 :: range 2 (n + 1) = seqZ 1 n)
  ∧ (n ≤ 1 →
     extract_all_pages get (mkWorld s []) = (inr (JList l), mkWorld s1 [1])).
Proof.
  intros Hget Htotal Hbound Hres Hrep Hall n.
  pose proof (FloatFacts.total_pages_exact total Hbound) as Hn. fold n in Hn.
  assert (extract_all_pages get (mkWorld s [])
          = (inr (JList (l ++ concat lss)), mkWorld s' (1 :: range 2 (n + 1))))
    as Hrun.
  { rewrite (extract_first_page _ _ _ _ _ _ Hget Htotal Hn Hres).
    by rewrite (fetch_rest_ok _ _ (mkWorld s1 [1]) _ _ _ Hrep Hall). }
  split; [done|]. split; [by apply FloatFacts.ceil_div_bounds|].
  split; [done|]. split; [apply range_pages|].
  intros Hle. rewrite Hrun. fold n in Hrep.
  rewrite (range_single_page n Hle) in Hrep |- *.
  simpl in Hrep. injection Hrep as <- <-. inversion Hall; subst.
  simpl. by rewrite app_nil_r.
Qed.

(** C5. [extract_all_pages] raises [ValueError], and so returns no
    records, when the body of page 1 lacks ['results'], when it lacks
    ['total'], and when the body of a later page lacks ['results'];
    in the last case the error names that page, which is the last
    page requested.  The later pages are those of the page count the
    code computes, which is the ceiling of total over [PER_PAGE] for
    a total of at most [50 * 2 ^ 48] in absolute value. *)
Theorem extract_all_pages_malformed s b s1 :
  get 1 s = (Body b, s1) →
  (b !! "results" = None →
   extract_all_pages get (mkWorld s [])
   = (inl (ValueError "results" None), mkWorld s1 [1]))
  ∧ (is_Some (b !! "results") → b !! "total" = None →
     extract_all_pages get (mkWorld s [])
     = (inl (ValueError "total" None), mkWorld s1 [1]))
  ∧ (∀ total n l pre page post rs s2 lss b' s3,
       b !! "total" = Some (JInt total) →
       total_pages total = inr n →
       b !! "results" = Some (JList l) →
       range 2 (n + 1) = pre ++ page :: post →
       replies get pre s1 = (rs, s2) →
       Forall2 carries_results rs lss →
       get page s2 = (Body b', s3) →
       b' !! "results" = None →
       extract_all_pages get (mkWorld s [])
       = (inl (ValueError "results" (Some page)),
          mkWorld s3 (1 :: pre ++ [page])))
  ∧ (∀ total, - (50 * 2 ^ 48) ≤ total ≤ 50 * 2 ^ 48 →
       total_pages total = inr (ceil_div total PER_PAGE)).
Proof.
  intros Hget. split; [|split; [|split; [|apply FloatFacts.total_pages_exact]]].
  - intros Hres. unfold extract_all_pages, bind.
    rewrite (fetch_page_body 1 (mkWorld s []) b s1) by done.
    by rewrite Hres.
  - intros [v Hres] Htotal. unfold extract_all_pages, bind.
    rewrite (fetch_page_body 1 (mkWorld s []) b s1) by done.
    by rewrite Hres, Htotal.
  - intros total n l pre page post rs s2 lss b' s3
      Htotal Hn Hres Hrange Hrep Hall Hget' Hres'.
    rewrite (extract_first_page _ _ _ _ _ _ Hget Htotal Hn Hres), Hrange.
    by rewrite (fetch_rest_malformed _ _ _ _ (mkWorld s1 [1]) _ _ _ _ _
                  Hrep Hall Hget' Hres').
Qed.

(** C9. When the request for a page fails, [extract_all_pages] raises
    [RequestException]: no records are returned, the failed page is
    the last one requested and it was requested once.  The later
    pages are those of the page count the code computes, which is the
    ceiling of total over [PER_PAGE] for a total of at most
    [50 * 2 ^ 48] in absolute value. *)
Theorem extract_all_pages_transport_failure s :
  (∀ s1, get 1 s = (TransportFailure, s1) →
     extract_all_pages get (mkWorld s [])
     = (inl RequestException, mkWorld s1 [1]))
  ∧ (∀ b s1 total n l pre page post rs s2 lss s3,
       get 1 s = (Body b, s1) →
       b !! "total" = Some (JInt total) →
       total_pages total = inr n →
       b !! "results" = Some (JList l) →
       range 2 (n + 1) = pre ++ page :: post →
       replies get pre s1 = (rs, s2) →
       Forall2 carries_results rs lss →
       get page s2 = (TransportFailure, s3) →
       extract_all_pages get (mkWorld s [])
       = (inl RequestException, mkWorld s3 (1 :: pre ++ [page]))
       ∧ page ∉ 1 :: pre)
  ∧ (∀ total, - (50 * 2 ^ 48) ≤ total ≤ 50 * 2 ^ 48 →
       total_pages total = inr (ceil_div total PER_PAGE)).
Proof.
  split; [|split; [|apply FloatFacts.total_pages_exact]].
  - intros s1 Hget. unfold extract_all_pages, bind.
    by rewrite (fetch_page_failure 1 (mkWorld s []) s1).
  - intros b s1 total n l pre page post rs s2 lss s3
      Hget Htotal Hn Hres Hrange Hrep Hall Hget'.
    split; [|by eapply range_prefix_fresh].
    rewrite (extract_first_page _ _ _ _ _ _ Hget Htotal Hn Hres), Hrange.
    by rewrite (fetch_rest_failure _ _ _ _ (mkWorld s1 [1]) _ _ _ _
                  Hrep Hall Hget').
Qed.
End WithServer.

(** C1. A server whose every page carries ['total'] and ['results'],
    the total being [10 ^ 400]: the quotient is too large for a float
    and the fetch raises [OverflowError] after page 1, returning no
    records.  And for the total [50 * 2 ^ 48 + 1] the float quotient
    gives [2 ^ 48] pages, one less than the ceiling. *)
Lemma extract_all_pages_large_total :
  extract_all_pages Demo.steady
    (mkWorld (Demo.page (10 ^ 400) [Demo.b1]) [])
  = (inl OverflowError, mkWorld (Demo.page (10 ^ 400) [Demo.b1]) [1%Z])
  ∧ total_pages (50 * 2 ^ 48 + 1) = inr (2 ^ 48)%Z
  ∧ ceil_div (50 * 2 ^ 48 + 1) PER_PAGE = (2 ^ 48 + 1)%Z.
Proof.
  split; [|split; by vm_compute].
  apply (extract_no_page_count Demo.steady _
           {[ "total" := JInt (10 ^ 400); "results" := JList [Demo.b1] ]}
           (10 ^ 400)%Z); [done|done|by vm_compute|by eexists].
Qed.

(** The fetcher on the sample scripts. *)
Lemma extract_all_pages_concat_witness :
  extract_all_pages Demo.scripted (Demo.start Demo.three_pages)
  = (inr (JList [Demo.b1; Demo.b2; Demo.b3]), mkWorld [] [1; 2; 3]%Z)
  ∧ extract_all_pages Demo.scripted (Demo.start Demo.one_page)
    = (inr (JList [Demo.b1]), mkWorld [Demo.page 50 [Demo.b2]] [1%Z]).
Proof.
  split.
  - refine (proj1 (proj2 (proj2 (extract_all_pages_concat Demo.scripted
      Demo.three_pages _ 120 [Demo.b1] _ _ [] [[Demo.b2]; [Demo.b3]]
      eq_refl eq_refl _ eq_refl eq_refl _)))).
    + vm_compute. split; discriminate.
    + repeat constructor; eexists; (split; [reflexivity|reflexivity]).
  - refine (proj2 (proj2 (proj2 (proj2 (extract_all_pages_concat Demo.scripted
      Demo.one_page _ 50 [Demo.b1] _ _ _ []
      eq_refl eq_refl _ eq_refl eq_refl _)))) _); [|constructor|].
    + vm_compute. split; discriminate.
    + vm_compute. discriminate.
Defined.

Lemma extract_all_pages_malformed_witness :
  extract_all_pages Demo.scripted (Demo.start Demo.bad_first)
  = (inl (ValueError "results" None), mkWorld [Demo.page 120 [Demo.b2]] [1%Z])
  ∧ extract_all_pages Demo.scripted (Demo.start Demo.bad_total)
    = (inl (ValueError "total" None), mkWorld [Demo.page 120 [Demo.b2]] [1%Z])
  ∧ extract_all_pages Demo.scripted (Demo.start Demo.bad_third)
    = (inl (ValueError "results" (Some 3%Z)), mkWorld [] [1; 2; 3]%Z).
Proof.
  split; [|split].
  - refine (proj1 (extract_all_pages_malformed Demo.scripted
      Demo.bad_first _ _ eq_refl) eq_refl).
  - refine (proj1 (proj2 (extract_all_pages_malformed Demo.scripted
      Demo.bad_total _ _ eq_refl)) _ eq_refl).
    eexists; reflexivity.
  - refine (proj1 (proj2 (proj2 (extract_all_pages_malformed Demo.scripted
      Demo.bad_third _ _ eq_refl))) 120%Z 3%Z [Demo.b1] [2%Z] 3%Z [] _ _
      [[Demo.b2]] _ _ eq_refl eq_refl eq_refl eq_refl eq_refl _
      eq_refl eq_refl).
    repeat constructor; eexists; (split; [reflexivity|reflexivity]).
Defined.

Lemma extract_all_pages_transport_failure_witness :
  extract_all_pages Demo.scripted (Demo.start Demo.down_first)
  = (inl RequestException, mkWorld [Demo.page 120 [Demo.b2]] [1%Z])
  ∧ extract_all_pages Demo.scripted (Demo.start Demo.down_third)
    = (inl RequestException, mkWorld [Demo.page 120 [Demo.b3]] [1; 2; 3]%Z).
Proof.
  split.
  - refine (proj1 (extract_all_pages_transport_failure Demo.scripted
      Demo.down_first) _ eq_refl).
  - refine (proj1 (proj1 (proj2 (extract_all_pages_transport_failure
      Demo.scripted Demo.down_third)) _ _ 120%Z 3%Z [Demo.b1] [2%Z] 3%Z [] _ _
      [[Demo.b2]] _ eq_refl eq_refl eq_refl eq_refl eq_refl eq_refl _
      eq_refl)).
    repeat constructor; eexists; (split; [reflexivity|reflexivity]).
Defined.
End ExtractFacts.

(** ** Properties of the text operations *)

Module TextFacts.
Import Text.

Ltac by_cases_on c := destruct c as [[] [] [] [] [] [] [] []]; reflexivity.

Lemma space_not_cased c : is_space c && is_cased c = false.
Proof. by_cases_on c. Qed.
Lemma is_space_to_upper c : is_space (to_upper c) = is_space c.
Proof. by_cases_on c. Qed.
Lemma is_space_to_lower c : is_space (to_lower c) = is_space c.
Proof. by_cases_on c. Qed.
Lemma is_cased_to_upper c : is_cased (to_upper c) = is_cased c.
Proof. by_cases_on c. Qed.
Lemma is_cased_to_lower c : is_cased (to_lower c) = is_cased c.
Proof. by_cases_on c. Qed.
Lemma to_upper_idem c : to_upper (to_upper c) = to_upper c.
Proof. by_cases_on c. Qed.
Lemma to_lower_idem c : to_lower (to_lower c) = to_lower c.
Proof. by_cases_on c. Qed.
Lemma to_upper_space c : is_space c = true → to_upper c = c.
Proof. destruct c as [[] [] [] [] [] [] [] []]; (reflexivity || discriminate). Qed.

Lemma is_space_cased_as b c : is_space (cased_as b c) = is_space c.
Proof. destruct b; [apply is_space_to_lower | apply is_space_to_upper]. Qed.
Lemma is_cased_cased_as b c : is_cased (cased_as b c) = is_cased c.
Proof. destruct b; [apply is_cased_to_lower | apply is_cased_to_upper]. Qed.
Lemma cased_as_idem b c : cased_as b (cased_as b c) = cased_as b c.
Proof. destruct b; [apply to_lower_idem | apply to_upper_idem]. Qed.

Lemma title_from_cons b c s :
  title_from b (String c s) = String (cased_as b c) (title_from (is_cased c) s).
Proof. done. Qed.

Lemma title_from_idem b s : title_from b (title_from b s) = title_from b s.
Proof.
  revert b. induction s as [|c s IH]; intros b; [done|].
  rewrite !title_from_cons, is_cased_cased_as, cased_as_idem. by rewrite IH.
Qed.

Lemma lstrip_title s : lstrip (title s) = title (lstrip s).
Proof.
  unfold title. induction s as [|c s IH]; [done|].
  rewrite title_from_cons. cbn [lstrip]. rewrite is_space_cased_as.
  destruct (is_space c) eqn:Hc; [|by rewrite title_from_cons].
  pose proof (space_not_cased c) as Hn. rewrite Hc in Hn. simpl in Hn.
  by rewrite Hn.
Qed.

Lemma rstrip_title_from b s : rstrip (title_from b s) = title_from b (rstrip s).
Proof.
  revert b. induction s as [|c s IH]; intros b; [done|].
  rewrite title_from_cons. cbn [rstrip]. rewrite IH.
  destruct (rstrip s) as [|d r]; cbn [title_from].
  - rewrite is_space_cased_as. by destruct (is_space c).
  - done.
Qed.

Lemma strip_title s : strip (title s) = title (strip s).
Proof. unfold strip. rewrite lstrip_title. apply rstrip_title_from. Qed.

Lemma rstrip_idem s : rstrip (rstrip s) = rstrip s.
Proof.
  induction s as [|c s IH]; [done|]. simpl.
  destruct (rstrip s) as [|d r] eqn:Hr.
  - destruct (is_space c) eqn:Hc; [done|]. simpl. by rewrite Hc.
  - simpl in *. by rewrite IH.
Qed.

Lemma lstrip_head s :
  lstrip s = EmptyString ∨ ∃ c s', lstrip s = String c s' ∧ is_space c = false.
Proof.
  induction s as [|c s IH]; [by left|]. cbn [lstrip].
  destruct (is_space c) eqn:Hc; [exact IH|]. right. eauto.
Qed.

Lemma lstrip_rstrip_lstrip s : lstrip (rstrip (lstrip s)) = rstrip (lstrip s).
Proof.
  destruct (lstrip_head s) as [->|(c & s' & -> & Hc)]; [done|].
  cbn [rstrip]. destruct (rstrip s'); rewrite ?Hc; cbn [lstrip]; by rewrite Hc.
Qed.

Lemma strip_idem s : strip (strip s) = strip s.
Proof. unfold strip. by rewrite lstrip_rstrip_lstrip, rstrip_idem. Qed.

(** Stripping and title-casing a text twice is the same as once. *)
Lemma title_strip_idem s : title (strip (title (strip s))) = title (strip s).
Proof.
  rewrite strip_title, strip_idem. apply title_from_idem.
Qed.

(** ASCII text stays ASCII. *)
Lemma is_ascii_cased_as b c : is_ascii (cased_as b c) = is_ascii c.
Proof. destruct b; by_cases_on c. Qed.

Lemma ascii_text_lstrip s : ascii_text s = true → ascii_text (lstrip s) = true.
Proof.
  induction s as [|c s IH]; [done|]. simpl.
  intros [Hc Hs]%andb_true_iff. destruct (is_space c); [by apply IH|].
  simpl. by rewrite Hc, Hs.
Qed.

Lemma ascii_text_rstrip s : ascii_text s = true → ascii_text (rstrip s) = true.
Proof.
  induction s as [|c s IH]; [done|]. simpl.
  intros [Hc Hs]%andb_true_iff. specialize (IH Hs).
  destruct (rstrip s) as [|c' r].
  - destruct (is_space c); [done|]. simpl. by rewrite Hc.
  - cbn [ascii_text] in *. by rewrite Hc, IH.
Qed.

Lemma ascii_text_strip s : ascii_text s = true → ascii_text (strip s) = true.
Proof. intros Hs. by apply ascii_text_rstrip, ascii_text_lstrip. Qed.

Lemma ascii_text_title_from b s :
  ascii_text (title_from b s) = ascii_text s.
Proof.
  revert b. induction s as [|c s IH]; intros b; [done|].
  simpl. by rewrite is_ascii_cased_as, IH.
Qed.

Lemma ascii_text_title s : ascii_text s = true → ascii_text (title s) = true.
Proof. intros Hs. unfold title. by rewrite ascii_text_title_from. Qed.






End TextFacts.

(** ** Properties of the normaliser *)

Module TransformFacts.
Import Transform Rows.

Section WithPandas.
Context `{Pandas}.

Lemma getitem_in df c :
  c ∈ columns df → getitem df c = inr (at_col c <$> (rows df).*2).
Proof. intros Hc. unfold getitem. by rewrite decide_True. Qed.

Lemma getitem_notin df c : c ∉ columns df → getitem df c = inl (KeyError c).
Proof. intros Hc. unfold getitem. by rewrite decide_False. Qed.

Lemma columns_setitem df c vs :
  c ∈ columns df → columns (setitem df c vs) = columns df.
Proof. intros Hc. simpl. by apply subseteq_union_1_L, singleton_subseteq_l. Qed.

Lemma length_rows_setitem df c vs :
  length vs = length (rows df) → length (rows (setitem df c vs)) = length (rows df).
Proof. intros Hlen. simpl. rewrite length_zip_with. lia. Qed.

Lemma col_setitem_ne df c c' vs :
  c ≠ c' → length vs = length (rows df) →
  at_col c' <$> (rows (setitem df c vs)).*2 = at_col c' <$> (rows df).*2.
Proof.
  intros Hne. simpl. generalize (rows df) as rs. intros rs. revert vs.
  induction rs as [|[i r] rs IH]; intros [|v vs] Hlen; try done.
  simpl in *. rewrite IH by lia. f_equal.
  unfold at_col. by rewrite lookup_insert_ne.
Qed.

Lemma col_setitem_eq df c vs :
  length vs = length (rows df) →
  at_col c <$> (rows (setitem df c vs)).*2 = vs.
Proof.
  simpl. generalize (rows df) as rs. intros rs. revert vs.
  induction rs as [|[i r] rs IH]; intros [|v vs] Hlen; try done.
  simpl in *. rewrite IH by lia. f_equal.
  unfold at_col. by rewrite lookup_insert_eq.
Qed.

Lemma length_col c (rs : list (nat * record)) :
  length (at_col c <$> rs.*2) = length rs.
Proof. by rewrite !length_fmap. Qed.

Lemma length_parsed c rs : length (parsed c rs) = length rs.
Proof. unfold parsed. by rewrite to_datetime_length, length_col. Qed.

(** On ASCII text the normalisation is [Text.strip] and then
    [Text.title], and doing it twice is the same as once. *)
Lemma text_of_ascii v :
  Text.ascii_text (str_of_cell v) = true →
  text_of v = CStr (Text.title (Text.strip (str_of_cell v))).
Proof.
  intros Hv. unfold text_of. rewrite py_strip_ascii by done.
  by rewrite py_title_ascii by by apply TextFacts.ascii_text_strip.
Qed.

Lemma text_of_ascii_text v :
  Text.ascii_text (str_of_cell v) = true →
  Text.ascii_text (str_of_cell (text_of v)) = true.
Proof.
  intros Hv. rewrite text_of_ascii by done. simpl.
  by apply TextFacts.ascii_text_title, TextFacts.ascii_text_strip.
Qed.

Lemma text_of_idem v :
  Text.ascii_text (str_of_cell v) = true → text_of (text_of v) = text_of v.
Proof.
  intros Hv. rewrite (text_of_ascii (text_of v))
    by by apply text_of_ascii_text.
  rewrite (text_of_ascii v) by done. simpl.
  by rewrite TextFacts.title_strip_idem.
Qed.

Lemma text_pipeline vs :
  str_title (str_strip (astype_str vs)) = text_of <$> vs.
Proof.
  unfold str_title, str_strip, astype_str.
  rewrite <-!list_fmap_compose. by apply list_fmap_ext.
Qed.

(** The four assignments, row by row. *)
Lemma rows_assigned (rs : list (nat * record)) (A B : list cell)
    (f g : record → cell) c1 c2 c3 c4 :
  length A = length rs → length B = length rs →
  zip_with (λ (ir : nat * record) v, (ir.1, <[c4:=v]> ir.2))
    (zip_with (λ (ir : nat * record) v, (ir.1, <[c3:=v]> ir.2))
       (zip_with (λ (ir : nat * record) v, (ir.1, <[c2:=v]> ir.2))
          (zip_with (λ (ir : nat * record) v, (ir.1, <[c1:=v]> ir.2)) rs A)
          B)
       (f <$> rs.*2))
    (g <$> rs.*2)
  = (λ x : (nat * record) * (cell * cell),
       (x.1.1, <[c4:=g x.1.2]> (<[c3:=f x.1.2]>
                 (<[c2:=x.2.2]> (<[c1:=x.2.1]> x.1.2)))))
    <$> zip rs (zip A B).
Proof.
  revert A B. induction rs as [|[i r] rs IH]; intros [|a A] [|b B] HA HB;
    try done.
  simpl in *. f_equal. apply IH; lia.
Qed.

(** The date filter, row by row. *)
Lemma select_rows (rs : list (nat * record)) (A B : list cell)
    (h : cell → cell → record → record) :
  (filter (λ rb : (nat * record) * bool, rb.2 = true)
     (zip ((λ x : (nat * record) * (cell * cell), (x.1.1, h x.2.1 x.2.2 x.1.2))
             <$> zip rs (zip A B))
          (zip_with ge_cell B A))).*1
  = omap (λ x : (nat * record) * (cell * cell),
            if ge_cell x.2.2 x.2.1 then Some (x.1.1, h x.2.1 x.2.2 x.1.2)
            else None)
      (zip rs (zip A B)).
Proof.
  revert A B. induction rs as [|[i r] rs IH]; intros [|a A] [|b B];
    try done.
  simpl. rewrite filter_cons. simpl.
  destruct (ge_cell b a) eqn:Hge.
  - rewrite decide_True by done. simpl. f_equal. apply IH.
  - rewrite decide_False by done. apply IH.
Qed.

Lemma setitem_spec df c vs :
  c ∈ columns df → length vs = length (rows df) →
  columns (setitem df c vs) = columns df
  ∧ length (rows (setitem df c vs)) = length (rows df)
  ∧ at_col c <$> (rows (setitem df c vs)).*2 = vs
  ∧ ∀ c', c ≠ c' →
      at_col c' <$> (rows (setitem df c vs)).*2 = at_col c' <$> (rows df).*2.
Proof.
  intros Hc Hlen. split; [by apply columns_setitem|].
  split; [by apply length_rows_setitem|].
  split; [by apply col_setitem_eq|].
  intros c' Hne. by apply col_setitem_ne.
Qed.

(** [transform_frame] on a table that has the five columns. *)
Lemma transform_frame_rows df :
  Forall (λ c, c ∈ columns df) expected_columns →
  transform_frame df
  = if clash (survivors (rows df)) then inl TypeError
    else inr (mkDataFrame (columns df)
                (omap kept (with_dates (survivors (rows df))))).
Proof.
  intros Hcols. unfold expected_columns in Hcols.
  repeat (apply Forall_cons in Hcols as [? Hcols]).
  unfold transform_frame, dropna, drop_duplicates.
  rewrite decide_True by done. cbn [columns rows].
  rewrite decide_True by done.
  fold (survivors (rows df)). unfold with_dates.
  generalize (survivors (rows df)) as rs. intros rs.
  set (df2 := mkDataFrame (columns df) rs).
  rewrite (getitem_in df2 "check_in_date") by done.
  change (to_datetime (at_col "check_in_date" <$> (rows df2).*2))
    with (parsed "check_in_date" rs).
  set (A := parsed "check_in_date" rs).
  assert (length A = length (rows df2)) as HA by apply length_parsed.
  destruct (setitem_spec df2 "check_in_date" A) as (Hc3 & Hl3 & He3 & Hn3);
    [done..|].
  set (df3 := setitem df2 "check_in_date" A) in *.
  rewrite (getitem_in df3 "check_out_date") by by rewrite Hc3.
  rewrite Hn3 by done.
  change (to_datetime (at_col "check_out_date" <$> (rows df2).*2))
    with (parsed "check_out_date" rs).
  set (B := parsed "check_out_date" rs).
  assert (length B = length (rows df3)) as HB
    by (rewrite Hl3; apply length_parsed).
  destruct (setitem_spec df3 "check_out_date" B) as (Hc4 & Hl4 & He4 & Hn4);
    [by rewrite ?Hc3..|].
  set (df4 := setitem df3 "check_out_date" B) in *.
  rewrite (getitem_in df4 "owner_company") by by rewrite Hc4, Hc3.
  rewrite Hn4, Hn3 by done.
  rewrite text_pipeline. cbn [rows df2].
  set (C := text_of <$> _).
  assert (length C = length (rows df4)) as HC
    by (unfold C; rewrite !length_fmap; by rewrite Hl4, Hl3).
  destruct (setitem_spec df4 "owner_company" C) as (Hc5 & Hl5 & He5 & Hn5);
    [by rewrite ?Hc4, ?Hc3..|].
  set (df5 := setitem df4 "owner_company" C) in *.
  rewrite (getitem_in df5 "owner_company_country")
    by by rewrite Hc5, Hc4, Hc3.
  rewrite Hn5, Hn4, Hn3 by done.
  rewrite text_pipeline. cbn [rows df2].
  set (D := text_of <$> _).
  assert (length D = length (rows df5)) as HD
    by (unfold D; rewrite !length_fmap; by rewrite Hl5, Hl4, Hl3).
  destruct (setitem_spec df5 "owner_company_country" D)
    as (Hc6 & Hl6 & He6 & Hn6); [by rewrite ?Hc5, ?Hc4, ?Hc3..|].
  set (df6 := setitem df5 "owner_company_country" D) in *.
  rewrite (getitem_in df6 "check_out_date")
    by by rewrite Hc6, Hc5, Hc4, Hc3.
  rewrite Hn6, Hn5, He4 by done.
  rewrite (getitem_in df6 "check_in_date")
    by by rewrite Hc6, Hc5, Hc4, Hc3.
  rewrite Hn6, Hn5, Hn4, He3 by done.
  unfold ge_series, clash, column. cbn [rows df2].
  destruct (tz_clash _ _); [done|].
  unfold select. rewrite Hc6, Hc5, Hc4, Hc3. do 2 f_equal.
  unfold df6, df5, df4, df3, setitem; cbn [rows df2].
  unfold C, D.
  rewrite <-(list_fmap_compose (at_col "owner_company") text_of).
  rewrite <-(list_fmap_compose (at_col "owner_company_country") text_of).
  rewrite (rows_assigned rs A B _ _ _ _ _ _ HA (eq_trans HB Hl3)).
  apply (select_rows rs A B clean_row).
Qed.

Lemma notin_setitem df c c' vs :
  c' ≠ c → c' ∉ columns df → c' ∉ columns (setitem df c vs).
Proof.
  intros Hne Hc. simpl. rewrite elem_of_union, elem_of_singleton. tauto.
Qed.

(** [transform_frame] on a table that lacks one of the five columns
    raises [KeyError] for the first one it reads. *)
Lemma transform_frame_missing df :
  ¬ Forall (λ c, c ∈ columns df) expected_columns →
  ∃ c, c ∈ expected_columns ∧ (c ∉ columns df)
       ∧ transform_frame df = inl (KeyError c).
Proof.
  intros Hmiss.
  destruct (decide ("booking_id" ∈ columns df)) as [H0|H0]; last first.
  { exists "booking_id". split; [set_solver|]. split; [done|].
    unfold transform_frame, dropna. by rewrite decide_False. }
  unfold transform_frame, dropna, drop_duplicates.
  rewrite decide_True by done. cbn [columns rows].
  rewrite decide_True by done. fold (survivors (rows df)).
  set (df2 := mkDataFrame (columns df) (survivors (rows df))).
  destruct (decide ("check_in_date" ∈ columns df)) as [H1|H1]; last first.
  { exists "check_in_date". split; [set_solver|]. split; [done|].
    by rewrite (getitem_notin df2). }
  rewrite (getitem_in df2 "check_in_date") by done.
  destruct (decide ("check_out_date" ∈ columns df)) as [H2|H2]; last first.
  { exists "check_out_date". split; [set_solver|]. split; [done|].
    by rewrite getitem_notin by (repeat (apply notin_setitem; [done|]); done). }
  rewrite (getitem_in (setitem _ _ _) "check_out_date") by set_solver.
  destruct (decide ("owner_company" ∈ columns df)) as [H3|H3]; last first.
  { exists "owner_company". split; [set_solver|]. split; [done|].
    by rewrite getitem_notin by (repeat (apply notin_setitem; [done|]); done). }
  rewrite (getitem_in (setitem _ _ _) "owner_company") by set_solver.
  destruct (decide ("owner_company_country" ∈ columns df)) as [H4|H4];
    last first.
  { exists "owner_company_country". split; [set_solver|]. split; [done|].
    by rewrite getitem_notin by (repeat (apply notin_setitem; [done|]); done). }
  destruct Hmiss. unfold expected_columns.
  repeat (apply Forall_cons; split; [assumption|]). apply Forall_nil_2.
Qed.

(** *** The table built of the records *)

(** What the table holds: a null stays a null, a value stays a
    value, and a text stays as it is. *)
Lemma isna_upcast v : isna (upcast v) = isna v.
Proof. by destruct v. Qed.

Lemma isna_held records c v : isna (held records c v) = isna v.
Proof. unfold held. destruct (upcasts _); [apply isna_upcast|done]. Qed.

Lemma held_nan records c : held records c CNaN = CNaN.
Proof. unfold held. by destruct (upcasts _). Qed.

Lemma held_text records c v s :
  CStr s ∈ field c records → held records c v = v.
Proof. intros Hs. unfold held. by rewrite (upcasts_text _ s). Qed.

Lemma held_full records c v :
  Forall is_int_or_text (field c records) → held records c v = v.
Proof. intros Hl. unfold held. by rewrite upcasts_full. Qed.

Lemma lookup_fill records r c :
  fill records r !! c
  = held records c <$> (r ∪ gset_to_gmap CNaN (all_keys records)) !! c.
Proof.
  unfold fill. rewrite map_lookup_imap.
  by destruct ((r ∪ gset_to_gmap CNaN (all_keys records)) !! c).
Qed.

Lemma at_col_fill records c r :
  at_col c (fill records r) = held records c (at_col c r).
Proof.
  unfold at_col. rewrite lookup_fill, lookup_union, lookup_gset_to_gmap.
  destruct (r !! c) as [v|]; [by destruct (guard _)|].
  destruct (guard _); simpl; [done|by rewrite held_nan].
Qed.

Lemma key_fill records r :
  at_col "booking_id" (fill records r) = key_of records r.
Proof. apply at_col_fill. Qed.

Lemma elem_of_all_keys records c :
  c ∈ all_keys records ↔ ∃ r, r ∈ records ∧ is_Some (r !! c).
Proof.
  unfold all_keys. rewrite elem_of_union_list. split.
  - intros (X & (r & -> & Hr)%list_elem_of_fmap & Hc).
    exists r. split; [done|]. by apply elem_of_dom.
  - intros (r & Hr & Hc). exists (dom r).
    split; [by apply list_elem_of_fmap_2|by apply elem_of_dom].
Qed.

Lemma lookup_rows records i :
  rows (DataFrame_of records) !! i
  = (λ r, (i, fill records r)) <$> records !! i.
Proof. unfold DataFrame_of. simpl. by rewrite list_lookup_imap. Qed.

Lemma elem_of_rows records i r :
  (i, r) ∈ rows (DataFrame_of records)
  ↔ ∃ r0, records !! i = Some r0 ∧ r = fill records r0.
Proof.
  rewrite list_elem_of_lookup. split.
  - intros (k & Hk). rewrite lookup_rows in Hk.
    destruct (records !! k) as [r0|] eqn:Hr0; simplify_eq/=. eauto.
  - intros (r0 & Hr0 & ->). exists i. by rewrite lookup_rows, Hr0.
Qed.

Lemma index_DataFrame_of records :
  index (DataFrame_of records) = seq 0 (length records).
Proof.
  unfold index. apply list_eq. intros i.
  rewrite list_lookup_fmap, lookup_rows.
  destruct (records !! i) as [r0|] eqn:Hr0; simpl.
  - symmetry. apply lookup_seq. split; [done|]. by eapply lookup_lt_Some.
  - symmetry. apply lookup_seq_ge. by apply lookup_ge_None.
Qed.

(** *** Lists in increasing order *)

Lemma increasing_seq j n : StronglySorted lt (seq j n).
Proof.
  revert j. induction n as [|n IH]; intros j; simpl; constructor; [done|].
  apply Forall_forall. intros k Hk%elem_of_seq. lia.
Qed.

Lemma increasing_sublist (l1 l2 : list nat) :
  l1 `sublist_of` l2 → StronglySorted lt l2 → StronglySorted lt l1.
Proof.
  induction 1 as [|x l1 l2 Hsub IH|x l1 l2 Hsub IH]; intros Hs; [done|..].
  - apply StronglySorted_inv in Hs as [Hs Hx]. constructor; [by apply IH|].
    apply Forall_forall. intros y Hy. rewrite Forall_forall in Hx.
    apply Hx. by eapply elem_of_sublist.
  - apply StronglySorted_inv in Hs as [Hs _]. by apply IH.
Qed.

Lemma increasing_unique (rs : list (nat * record)) x y :
  StronglySorted lt rs.*1 → x ∈ rs → y ∈ rs → x.1 = y.1 → x = y.
Proof.
  induction rs as [|z rs IH]; intros Hs Hx Hy Heq; [by apply elem_of_nil in Hx|].
  simpl in Hs. apply StronglySorted_inv in Hs as [Hs Hz].
  rewrite Forall_forall in Hz.
  apply elem_of_cons in Hx as [->|Hx]; apply elem_of_cons in Hy as [->|Hy];
    try done.
  - assert (z.1 < y.1) by (apply Hz; by apply list_elem_of_fmap_2). lia.
  - assert (z.1 < x.1) by (apply Hz; by apply list_elem_of_fmap_2). lia.
  - by apply IH.
Qed.

(** *** Null-key removal and deduplication *)

Lemma existsb_false {A} (f : A → bool) l :
  existsb f l = false ↔ Forall (λ y, f y = false) l.
Proof.
  induction l as [|x l IH]; simpl; [by split; [constructor|]|].
  rewrite orb_false_iff, IH, Forall_cons. tauto.
Qed.

Lemma keep_last_sublist c rs : keep_last c rs `sublist_of` rs.
Proof.
  induction rs as [|r rs IH]; [done|]. simpl.
  destruct (existsb _ rs); [by apply sublist_cons|by apply sublist_skip].
Qed.

Lemma survivors_sublist rs : survivors rs `sublist_of` rs.
Proof.
  unfold survivors. etrans; [apply keep_last_sublist|apply sublist_filter].
Qed.

Lemma same_key_notna a b :
  isna a = false → same_key a b = bool_decide (a = b).
Proof. intros Ha. unfold same_key. by rewrite Ha. Qed.

(** In a table whose index increases, [keep_last] keeps the rows
    that no row further down matches. *)
Lemma elem_of_keep_last c rs x :
  StronglySorted lt rs.*1 →
  x ∈ keep_last c rs
  ↔ x ∈ rs ∧ ∀ y, y ∈ rs → x.1 < y.1 →
              same_key (at_col c x.2) (at_col c y.2) = false.
Proof.
  induction rs as [|z rs IH]; intros Hs; simpl.
  { split; [by intros ?%elem_of_nil|by intros [?%elem_of_nil _]]. }
  simpl in Hs. apply StronglySorted_inv in Hs as [Hs Hz].
  rewrite Forall_forall in Hz.
  assert (∀ y, y ∈ rs → z.1 < y.1) as Hlt
    by (intros y Hy; apply Hz; by apply list_elem_of_fmap_2).
  destruct (existsb _ rs) eqn:Hex.
  - rewrite IH by done. split.
    + intros [Hx Hlast]. split; [by right|].
      intros y [->|Hy]%elem_of_cons Hxy; [|by apply Hlast].
      specialize (Hlt x Hx). lia.
    + intros [[->|Hx]%elem_of_cons Hlast].
      * apply not_false_iff_true in Hex. destruct Hex.
        apply existsb_false, Forall_forall. intros y Hy.
        apply Hlast; [by right|by apply Hlt].
      * split; [done|]. intros y Hy. apply Hlast. by right.
  - rewrite elem_of_cons, IH by done.
    apply existsb_false in Hex. rewrite Forall_forall in Hex. split.
    + intros [->|[Hx Hlast]].
      * split; [by left|].
        intros y [->|Hy]%elem_of_cons Hxy; [lia|by apply Hex].
      * split; [by right|].
        intros y [->|Hy]%elem_of_cons Hxy; [|by apply Hlast].
        specialize (Hlt x Hx). lia.
    + intros [[->|Hx]%elem_of_cons Hlast]; [by left|].
      right. split; [done|]. intros y Hy. apply Hlast. by right.
Qed.

(** The rows left by [dropna] and [drop_duplicates]: those with a
    key, which no row further down repeats. *)
Lemma elem_of_survivors rs x :
  StronglySorted lt rs.*1 →
  x ∈ survivors rs
  ↔ x ∈ rs ∧ isna (at_col "booking_id" x.2) = false
    ∧ ∀ y, y ∈ rs → x.1 < y.1 →
           at_col "booking_id" y.2 ≠ at_col "booking_id" x.2.
Proof.
  intros Hs. unfold survivors.
  rewrite elem_of_keep_last
    by (eapply increasing_sublist, Hs; apply fmap_sublist, sublist_filter).
  rewrite list_elem_of_filter. split.
  - intros [[Hna Hx] Hlast]. split; [done|]. split; [done|].
    intros y Hy Hxy Heq.
    specialize (Hlast y). rewrite list_elem_of_filter in Hlast.
    rewrite same_key_notna in Hlast by done.
    assert (bool_decide (at_col "booking_id" x.2 = at_col "booking_id" y.2)
            = false) as Hne%bool_decide_eq_false.
    { apply Hlast; [|done]. split; [|done]. by rewrite Heq. }
    by destruct Hne.
  - intros (Hx & Hna & Hlast). split; [done|].
    intros y [_ Hy]%list_elem_of_filter Hxy.
    rewrite same_key_notna by done. apply bool_decide_eq_false.
    intros Heq. by apply (Hlast y Hy Hxy).
Qed.

(** No two surviving rows have the same key. *)
Lemma survivors_keys_distinct rs x y :
  StronglySorted lt rs.*1 →
  x ∈ survivors rs → y ∈ survivors rs →
  at_col "booking_id" x.2 = at_col "booking_id" y.2 → x = y.
Proof.
  intros Hs Hx Hy Heq.
  apply elem_of_survivors in Hx as (Hx & _ & Hlx); [|done].
  apply elem_of_survivors in Hy as (Hy & _ & Hly); [|done].
  destruct (Nat.lt_total x.1 y.1) as [Hlt|[Hlt|Hlt]].
  - by destruct (Hlx y Hy Hlt).
  - by eapply increasing_unique.
  - by destruct (Hly x Hx Hlt).
Qed.

(** *** The rows of the result *)

Lemma ge_cell_true a b :
  ge_cell b a = true ↔ ∃ x y, a = CTime x ∧ b = CTime y ∧ (x ≤ y)%Z.
Proof.
  split.
  - destruct a, b; simpl; try done. intros Hle%Z.leb_le. eauto.
  - intros (x & y & -> & -> & Hle). by apply Z.leb_le.
Qed.

Lemma lookup_with_dates rs k x :
  with_dates rs !! k = Some x
  ↔ rs !! k = Some x.1
    ∧ parsed "check_in_date" rs !! k = Some x.2.1
    ∧ parsed "check_out_date" rs !! k = Some x.2.2.
Proof.
  unfold with_dates. split.
  - intros (ir & ab & -> & Hir & Hab)%lookup_zip_with_Some.
    apply lookup_zip_with_Some in Hab as (a & b & -> & Ha & Hb). done.
  - intros (Hir & Ha & Hb). destruct x as [ir [a b]]. simpl in *.
    apply lookup_zip_with_Some.
    exists ir, (a, b). split; [done|]. split; [done|].
    apply lookup_zip_with_Some. eauto.
Qed.

Lemma elem_of_output rs i r' :
  (i, r') ∈ omap kept (with_dates rs)
  ↔ ∃ k r a b,
      rs !! k = Some (i, r)
      ∧ parsed "check_in_date" rs !! k = Some a
      ∧ parsed "check_out_date" rs !! k = Some b
      ∧ ge_cell b a = true
      ∧ r' = clean_row a b r.
Proof.
  rewrite list_elem_of_omap. split.
  - intros ([[j r] [a b]] & (k & Hk)%list_elem_of_lookup & Hkept).
    apply lookup_with_dates in Hk as (Hr & Ha & Hb). simpl in *.
    unfold kept in Hkept. simpl in Hkept.
    destruct (ge_cell b a) eqn:Hge; [|done]. simplify_eq.
    exists k, r, a, b. done.
  - intros (k & r & a & b & Hr & Ha & Hb & Hge & ->).
    exists ((i, r), (a, b)). split.
    + apply list_elem_of_lookup. exists k. by apply lookup_with_dates.
    + unfold kept. simpl. by rewrite Hge.
Qed.

Lemma output_index_sublist {A} (rs : list (nat * record)) (ds : list A)
    (f : (nat * record) * A → option (nat * record)) :
  (∀ x y, f x = Some y → y.1 = x.1.1) →
  (omap f (zip rs ds)).*1 `sublist_of` rs.*1.
Proof.
  intros Hf. revert ds.
  induction rs as [|r rs IH]; intros [|d ds]; simpl; try done.
  { apply sublist_nil_l. }
  destruct (f (r, d)) as [y|] eqn:Hy; simpl.
  - rewrite (Hf _ _ Hy). simpl. by apply sublist_skip.
  - by apply sublist_cons.
Qed.

Lemma kept_index x y : kept x = Some y → y.1 = x.1.1.
Proof. unfold kept. destruct (ge_cell _ _); [|done]. by intros [= <-]. Qed.

Lemma lookup_clean_row a b r :
  clean_row a b r !! "booking_id" = r !! "booking_id"
  ∧ clean_row a b r !! "check_in_date" = Some a
  ∧ clean_row a b r !! "check_out_date" = Some b
  ∧ clean_row a b r !! "owner_company"
    = Some (text_of (at_col "owner_company" r))
  ∧ clean_row a b r !! "owner_company_country"
    = Some (text_of (at_col "owner_company_country" r)).
Proof. unfold clean_row. repeat split; by simplify_map_eq. Qed.

(** *** [transform_data] as a whole *)

Lemma transform_data_run records :
  has_expected_columns records →
  transform_data records
  = if clash (survivors (rows (DataFrame_of records))) then inl TypeError
    else inr (mkDataFrame (all_keys records) (output_rows records)).
Proof. intros Hcols. unfold transform_data. by rewrite transform_frame_rows. Qed.

Lemma transform_data_ok records :
  has_expected_columns records →
  clash (survivors (rows (DataFrame_of records))) = false →
  transform_data records
  = inr (mkDataFrame (all_keys records) (output_rows records)).
Proof. intros Hcols Hclash. by rewrite transform_data_run, Hclash. Qed.


Lemma transform_data_inv records out :
  transform_data records = inr out →
  has_expected_columns records
  ∧ out = mkDataFrame (all_keys records) (output_rows records).
Proof.
  intros Hout.
  destruct (decide (Forall (λ c, c ∈ all_keys records) expected_columns))
    as [Hcols|Hmiss].
  - split; [done|]. rewrite transform_data_run in Hout by done.
    destruct (clash _); congruence.
  - destruct (transform_frame_missing (DataFrame_of records) Hmiss)
      as (c & _ & _ & Herr).
    unfold transform_data in Hout. congruence.
Qed.

Lemma transform_data_no_clash records out :
  transform_data records = inr out →
  clash (survivors (rows (DataFrame_of records))) = false.
Proof.
  intros Hout. pose proof Hout as [Hcols _]%transform_data_inv.
  rewrite transform_data_run in Hout by done. by destruct (clash _).
Qed.


Lemma increasing_rows records :
  StronglySorted lt (rows (DataFrame_of records)).*1.
Proof.
  change (StronglySorted lt (index (DataFrame_of records))).
  rewrite index_DataFrame_of. apply increasing_seq.
Qed.

(** Where a row of the result comes from: the record at the
    position its index names, which has a key that no later record
    repeats in the table. *)
Lemma output_row_origin records i r' :
  (i, r') ∈ output_rows records →
  ∃ r0 a b,
    records !! i = Some r0
    ∧ (i, fill records r0) ∈ survivors (rows (DataFrame_of records))
    ∧ r' = clean_row a b (fill records r0)
    ∧ ge_cell b a = true
    ∧ isna (at_col "booking_id" r0) = false
    ∧ ∀ j rj, i < j → records !! j = Some rj →
              key_of records rj ≠ key_of records r0.
Proof.
  intros (k & r & a & b & Hk & _ & _ & Hge & ->)%elem_of_output.
  apply list_elem_of_lookup_2 in Hk.
  pose proof Hk as Hsurv.
  apply elem_of_survivors in Hk as (Hin & Hna & Hlast);
    [|apply increasing_rows].
  apply elem_of_rows in Hin as (r0 & Hr0 & ->).
  simpl in *. rewrite key_fill in Hna. unfold key_of in Hna.
  rewrite isna_held in Hna.
  exists r0, a, b. repeat split; try done.
  intros j rj Hij Hrj.
  specialize (Hlast (j, fill records rj)). simpl in Hlast.
  rewrite !key_fill in Hlast. apply Hlast; [|done].
  apply elem_of_rows. eauto.
Qed.

(** The last record with a key in the table is the last record with
    its key; and the other way round when the keys are held as they
    are given. *)
Lemma last_in_table_raw records i :
  last_in_table records i → last_with_key records i.
Proof.
  intros (r0 & Hr0 & Hna & Hlast). exists r0. repeat split; try done.
  intros j rj Hij Hrj Heq. apply (Hlast j rj Hij Hrj).
  unfold key_of. by rewrite Heq.
Qed.

Lemma exact_keys_inj records r1 r2 :
  exact_keys records → r1 ∈ records → r2 ∈ records →
  isna (at_col "booking_id" r2) = false →
  key_of records r1 = key_of records r2 →
  at_col "booking_id" r1 = at_col "booking_id" r2.
Proof.
  unfold key_of, held. intros [Hno|Hsmall] H1 H2 Hna.
  { by rewrite Hno. }
  destruct (upcasts _); [|done].
  rewrite Forall_forall in Hsmall.
  pose proof (Hsmall (at_col "booking_id" r1)
                (list_elem_of_fmap_2 _ _ _ H1)) as Hv1.
  pose proof (Hsmall (at_col "booking_id" r2)
                (list_elem_of_fmap_2 _ _ _ H2)) as Hv2.
  destruct (at_col "booking_id" r2) as [| |n2| | | |]; try done.
  destruct (at_col "booking_id" r1) as [| |n1| | | |]; try done.
  simpl. rewrite !FloatFacts.of_int_exact by done. congruence.
Qed.

Lemma last_with_key_table records i :
  exact_keys records → last_with_key records i → last_in_table records i.
Proof.
  intros Hexact (r0 & Hr0 & Hna & Hlast). exists r0. repeat split; try done.
  intros j rj Hij Hrj Heq. apply (Hlast j rj Hij Hrj).
  apply (exact_keys_inj records); try done.
  - by eapply list_elem_of_lookup_2.
  - by eapply list_elem_of_lookup_2.
Qed.

Lemma output_unique rs x y :
  NoDup rs.*1 →
  x ∈ omap kept (with_dates rs) → y ∈ omap kept (with_dates rs) →
  x.1 = y.1 → x = y.
Proof.
  destruct x as [i r1], y as [j r2]. simpl.
  intros Hnd (k1 & q1 & a1 & b1 & Hk1 & Ha1 & Hb1 & _ & ->)%elem_of_output
    (k2 & q2 & a2 & b2 & Hk2 & Ha2 & Hb2 & _ & ->)%elem_of_output <-.
  assert (k1 = k2) as <-.
  { apply (NoDup_lookup _ _ _ i Hnd); rewrite list_lookup_fmap.
    - by rewrite Hk1.
    - by rewrite Hk2. }
  congruence.
Qed.

Lemma NoDup_increasing (l : list nat) : StronglySorted lt l → NoDup l.
Proof.
  induction 1 as [|x l Hs IH Hx]; constructor; [|done].
  rewrite Forall_forall in Hx. intros Hin. specialize (Hx x Hin). lia.
Qed.

(** *** Tables that are already clean *)

Lemma fresh_keys_sublist ks1 ks2 :
  ks1 `sublist_of` ks2 → fresh_keys ks2 → fresh_keys ks1.
Proof.
  induction 1 as [|k ks1 ks2 Hsub IH|k ks1 ks2 Hsub IH]; simpl; [done|..].
  - intros [Hk Hf]. split; [|by apply IH].
    rewrite Forall_forall in Hk. rewrite Forall_forall. intros k' Hk'.
    apply Hk. by eapply elem_of_sublist.
  - intros [_ Hf]. by apply IH.
Qed.

Lemma fresh_keys_keep_last c rs :
  fresh_keys (at_col c <$> (keep_last c rs).*2).
Proof.
  induction rs as [|r rs IH]; simpl; [done|].
  destruct (existsb _ rs) eqn:Hex; [done|].
  rewrite !fmap_cons. cbn [fresh_keys]. split; [|done].
  apply existsb_false in Hex. rewrite Forall_forall in Hex.
  rewrite Forall_forall.
  intros k (r2 & -> & (r' & -> & Hr')%list_elem_of_fmap)%list_elem_of_fmap.
  apply Hex. by eapply elem_of_sublist, keep_last_sublist.
Qed.

Lemma keep_last_fresh c rs :
  fresh_keys (at_col c <$> rs.*2) → keep_last c rs = rs.
Proof.
  induction rs as [|r rs IH]; simpl; [done|]. intros [Hr Hf].
  rewrite IH by done.
  assert (existsb (λ r', same_key (at_col c r.2) (at_col c r'.2)) rs = false)
    as ->; [|done].
  apply existsb_false. rewrite Forall_forall in Hr. rewrite Forall_forall.
  intros y Hy. apply Hr. by apply list_elem_of_fmap_2, list_elem_of_fmap_2.
Qed.

Lemma filter_all {A} (P : A → Prop) `{!∀ x, Decision (P x)} (l : list A) :
  Forall P l → filter P l = l.
Proof.
  induction 1 as [|x l Hx _ IH]; [done|].
  by rewrite filter_cons, decide_True, IH.
Qed.

(** The text of a value that is not there: NaN, of a key absent from
    the record, reads ["Nan"]; None, of a JSON null, reads ["None"]. *)
Lemma text_of_missing :
  text_of CNaN = CStr "Nan" ∧ text_of CNone = CStr "None".
Proof. split; by rewrite text_of_ascii. Qed.

Lemma at_col_Some c r v : r !! c = Some v → at_col c r = v.
Proof. unfold at_col. by intros ->. Qed.

Lemma clean_row_clean i r :
  clean (i, r) → settled (i, r) →
  kept ((i, r), (at_col "check_in_date" r, at_col "check_out_date" r))
  = Some (i, r).
Proof.
  intros (a & b & v & w & Hge & Ha & Hb & Hv & Hw & _) [Hv' Hw'].
  simpl in *. unfold kept. simpl.
  rewrite (at_col_Some _ _ _ Ha), (at_col_Some _ _ _ Hb), Hge.
  do 2 f_equal. unfold clean_row. rewrite Hv', Hw'.
  rewrite (at_col_Some _ _ _ Hv), (at_col_Some _ _ _ Hw).
  rewrite (insert_id r) by done. rewrite (insert_id r) by done.
  rewrite (insert_id r) by done. by rewrite (insert_id r).
Qed.

Lemma kept_clean_rows (rs : list (nat * record)) :
  Forall clean rs → Forall settled rs →
  omap kept (zip rs (zip (at_col "check_in_date" <$> rs.*2)
                         (at_col "check_out_date" <$> rs.*2))) = rs.
Proof.
  induction 1 as [|[i r] rs Hr _ IH]; [done|].
  intros [Hs Hss]%Forall_cons. rewrite !fmap_cons.
  change (omap kept (zip ((i, r) :: rs) ?l))
    with (match kept ((i, r), (at_col "check_in_date" r,
                               at_col "check_out_date" r)) with
          | Some y => y :: omap kept (zip rs
              (zip (at_col "check_in_date" <$> rs.*2)
                   (at_col "check_out_date" <$> rs.*2)))
          | None => omap kept (zip rs
              (zip (at_col "check_in_date" <$> rs.*2)
                   (at_col "check_out_date" <$> rs.*2)))
          end).
  by rewrite (clean_row_clean i r Hr Hs), IH.
Qed.

Lemma clean_datetimes (rs : list (nat * record)) :
  Forall clean rs →
  Forall is_datetime (at_col "check_in_date" <$> rs.*2)
  ∧ Forall is_datetime (at_col "check_out_date" <$> rs.*2).
Proof.
  intros Hrs. rewrite <-!list_fmap_compose. split; apply Forall_fmap;
    (eapply Forall_impl; [exact Hrs|]);
    intros [i r] (a & b & v & w & Hge & Ha & Hb & _); simpl in *;
    rewrite ?(at_col_Some _ _ _ Ha), ?(at_col_Some _ _ _ Hb);
    apply ge_cell_true in Hge as (x & y & -> & -> & _); done.
Qed.

(** The rows of a clean table with fresh keys are those that null-key
    removal and deduplication leave. *)
Lemma clean_survivors (rs : list (nat * record)) :
  Forall clean rs →
  fresh_keys (at_col "booking_id" <$> rs.*2) →
  survivors rs = rs.
Proof.
  intros Hclean Hfresh.
  unfold survivors. rewrite filter_all; [by apply keep_last_fresh|].
  eapply Forall_impl; [exact Hclean|].
  by intros x (a & b & v & w & _ & _ & _ & _ & _ & Hna).
Qed.

(** [transform_frame] leaves a clean and settled table with fresh
    keys as it is. *)
Lemma clean_rows_fixed (rs : list (nat * record)) :
  Forall clean rs → Forall settled rs →
  fresh_keys (at_col "booking_id" <$> rs.*2) →
  omap kept (with_dates (survivors rs)) = rs.
Proof.
  intros Hclean Hsettled Hfresh. rewrite clean_survivors by done.
  destruct (clean_datetimes rs Hclean) as [Hin Hout].
  unfold with_dates, parsed.
  rewrite !to_datetime_datetimes by done.
  by apply kept_clean_rows.
Qed.

Lemma at_col_clean_row_key a b r :
  at_col "booking_id" (clean_row a b r) = at_col "booking_id" r.
Proof.
  unfold at_col. by rewrite (proj1 (lookup_clean_row a b r)).
Qed.

(** The rows [transform_frame] produces are clean, with fresh keys. *)
Lemma output_clean (rs : list (nat * record)) :
  Forall clean (omap kept (with_dates (survivors rs))).
Proof.
  apply Forall_forall.
  intros [i r'] (k & r & a & b & Hk & _ & _ & Hge & ->)%elem_of_output.
  destruct (lookup_clean_row a b r) as (Hid & Ha & Hb & Hv & Hw).
  exists a, b, (at_col "owner_company" r),
    (at_col "owner_company_country" r).
  repeat split; try done. simpl. rewrite at_col_clean_row_key.
  apply list_elem_of_lookup_2 in Hk. unfold survivors in Hk.
  eapply elem_of_sublist in Hk; [|apply keep_last_sublist].
  by apply list_elem_of_filter in Hk as [Hna _].
Qed.

(** The rows produced from rows of ASCII text are settled. *)
Lemma output_settled (rs : list (nat * record)) :
  Forall plain rs → Forall settled (omap kept (with_dates (survivors rs))).
Proof.
  intros Hplain. apply Forall_forall.
  intros [i r'] (k & r & a & b & Hk & _ & _ & _ & ->)%elem_of_output.
  apply list_elem_of_lookup_2 in Hk.
  eapply elem_of_sublist in Hk; [|apply survivors_sublist].
  rewrite Forall_forall in Hplain. destruct (Hplain _ Hk) as [Hv Hw].
  destruct (lookup_clean_row a b r) as (_ & _ & _ & Hv' & Hw').
  split; simpl in *.
  - rewrite (at_col_Some _ _ _ Hv'). by apply text_of_idem.
  - rewrite (at_col_Some _ _ _ Hw'). by apply text_of_idem.
Qed.

(** The date columns of the rows produced are rows of the parsed
    columns. *)
Lemma output_dates_sublist (rs : list (nat * record)) (A B : list cell) :
  zip (column "check_out_date" (omap kept (zip rs (zip A B))))
      (column "check_in_date" (omap kept (zip rs (zip A B))))
  `sublist_of` zip B A.
Proof.
  unfold column. revert A B.
  induction rs as [|[i r] rs IH]; intros [|a A] [|b B];
    [simpl; apply sublist_nil_l..|].
  change (zip ((i, r) :: rs) (zip (a :: A) (b :: B)))
    with (((i, r), (a, b)) :: zip rs (zip A B)).
  cbn [omap list_omap].
  destruct (kept (i, r, (a, b))) as [y|] eqn:Hy.
  - unfold kept in Hy. simpl in Hy.
    destruct (ge_cell b a); [|done]. injection Hy as <-.
    rewrite !fmap_cons. cbn [snd].
    destruct (lookup_clean_row a b r) as (_ & Ha & Hb & _).
    rewrite (at_col_Some _ _ _ Ha), (at_col_Some _ _ _ Hb).
    apply sublist_skip, IH.
  - apply sublist_cons, IH.
Qed.

(** A table that was compared can be compared again. *)
Lemma output_no_clash (rs : list (nat * record)) :
  clash rs = false → clash (omap kept (with_dates rs)) = false.
Proof.
  intros Hclash. unfold clash.
  eapply (tz_clash_parsed _ _ _ _ Hclash);
    [unfold column; by rewrite !length_fmap|].
  apply output_dates_sublist.
Qed.

Lemma output_fresh_keys (rs : list (nat * record)) :
  fresh_keys
    (at_col "booking_id" <$> (omap kept (with_dates (survivors rs))).*2).
Proof.
  eapply fresh_keys_sublist;
    [|apply (fresh_keys_keep_last "booking_id"
               (filter (λ ir, isna (at_col "booking_id" ir.2) = false) rs))].
  fold (survivors rs). rewrite <-!list_fmap_compose.
  unfold with_dates. generalize (survivors rs) as l. intros l.
  generalize (zip (parsed "check_in_date" l) (parsed "check_out_date" l)).
  intros ds. revert ds.
  induction l as [|x l IH]; intros [|d ds]; simpl; try done.
  { apply sublist_nil_l. }
  unfold kept at 1. simpl. destruct (ge_cell d.2 d.1); simpl.
  - rewrite at_col_clean_row_key. by apply sublist_skip.
  - by apply sublist_cons.
Qed.

(** *** The statements of the specification *)

Lemma survivors_index records i :
  i ∈ (survivors (rows (DataFrame_of records))).*1
  ↔ last_in_table records i.
Proof.
  split.
  - intros ([j r] & -> & Hx)%list_elem_of_fmap. simpl.
    apply elem_of_survivors in Hx as (Hin & Hna & Hlast);
      [|apply increasing_rows].
    apply elem_of_rows in Hin as (r0 & Hr0 & ->). simpl in *.
    rewrite key_fill in Hna. unfold key_of in Hna. rewrite isna_held in Hna.
    exists r0. repeat split; try done.
    intros k rk Hjk Hrk. specialize (Hlast (k, fill records rk)).
    simpl in Hlast. rewrite !key_fill in Hlast.
    apply Hlast; [|done]. apply elem_of_rows. eauto.
  - intros (r0 & Hr0 & Hna & Hlast).
    apply list_elem_of_fmap. exists (i, fill records r0). split; [done|].
    apply elem_of_survivors; [apply increasing_rows|]. simpl.
    rewrite key_fill. split; [apply elem_of_rows; eauto|].
    split; [by unfold key_of; rewrite isna_held|].
    intros [k rk] (q & Hq & ->)%elem_of_rows Hik. simpl in *.
    rewrite key_fill. by eapply Hlast.
Qed.

(** C2, as amended. The result of [transform_data] has no row
    without a [booking_id].  The rows left by null-key removal and
    deduplication are exactly the records that have a key and are the
    last with it, two keys being the same when the table holds them as
    the same value; every row of the result is such a record, with the
    key the table holds for it; and no two rows of the result share a
    key.  A record that is the last with its key in the table is the
    last record with its key; and when the keys are held as they are
    given (the column of keys is not held as float64, or each key is
    a null or an integer of at most 53 bits) the last record with a
    key is the last with it in the table. *)
Theorem transform_data_last_wins records out :
  transform_data records = inr out →
  (∀ i r', (i, r') ∈ rows out →
     isna (at_col "booking_id" r') = false
     ∧ last_in_table records i
     ∧ ∃ r0, records !! i = Some r0
             ∧ at_col "booking_id" r' = key_of records r0)
  ∧ (∀ i, i ∈ (survivors (rows (DataFrame_of records))).*1
          ↔ last_in_table records i)
  ∧ (∀ x y, x ∈ rows out → y ∈ rows out →
       at_col "booking_id" x.2 = at_col "booking_id" y.2 → x = y)
  ∧ (∀ i, last_in_table records i → last_with_key records i)
  ∧ (exact_keys records →
     ∀ i, last_with_key records i → last_in_table records i)
  ∧ (upcasts (field "booking_id" records) = false →
     ∀ r, key_of records r = at_col "booking_id" r).
Proof.
  intros (Hcols & ->)%transform_data_inv. cbn [rows].
  split; [|split; [apply survivors_index|]].
  - intros i r' (r0 & a & b & Hr0 & Hs & -> & Hge & Hna & Hlast)%output_row_origin.
    rewrite at_col_clean_row_key, key_fill.
    split; [by unfold key_of; rewrite isna_held|].
    split; [by exists r0|]. by exists r0.
  - split; [|split; [apply last_in_table_raw|split]].
    + intros [i r1] [j r2] Hx Hy. simpl. intros Hkey.
      pose proof Hx as (p & a & b & Hp & Hsp & -> & _)%output_row_origin.
      pose proof Hy as (q & a' & b' & Hq & Hsq & -> & _)%output_row_origin.
      rewrite !at_col_clean_row_key in Hkey.
      assert ((i, fill records p) = (j, fill records q)) as Heq
        by (eapply survivors_keys_distinct; eauto using increasing_rows).
      apply (output_unique (survivors (rows (DataFrame_of records))));
        [|done..|by injection Heq].
      apply NoDup_increasing.
      eapply increasing_sublist; [|apply increasing_rows].
      apply fmap_sublist, survivors_sublist.
    + intros Hexact i. by apply last_with_key_table.
    + intros Hno r. unfold key_of, held. by rewrite Hno.
Qed.



(** C6, as amended. [transform_frame] applied to a table it has
    produced gives that table again, when the company and the
    country of every row of the table it was given are ASCII text,
    once turned into text. *)
Theorem transform_frame_idempotent df out :
  transform_frame df = inr out →
  Forall plain (rows df) →
  transform_frame out = inr out.
Proof.
  intros Hout Hplain.
  destruct (decide (Forall (λ c, c ∈ columns df) expected_columns))
    as [Hcols|Hmiss]; last first.
  { destruct (transform_frame_missing df Hmiss) as (c & _ & _ & Herr).
    congruence. }
  rewrite transform_frame_rows in Hout by done.
  destruct (clash (survivors (rows df))) eqn:Hclash; [done|].
  injection Hout as <-.
  rewrite transform_frame_rows by done. cbn [columns rows].
  set (rs := omap kept (with_dates (survivors (rows df)))).
  assert (Forall clean rs) as Hclean by apply output_clean.
  assert (fresh_keys (at_col "booking_id" <$> rs.*2)) as Hfresh
    by apply output_fresh_keys.
  assert (Forall settled rs) as Hsettled by by apply output_settled.
  rewrite (clean_survivors rs) by done.
  assert (clash rs = false) as -> by by apply output_no_clash.
  f_equal. f_equal. rewrite <-(clean_survivors rs) at 1 by done.
  by apply clean_rows_fixed.
Qed.

(** C7, as amended. The columns of the result are the fields met in
    the raw records: the five named fields and any further field a
    record carries. *)
Theorem transform_data_columns records out :
  transform_data records = inr out →
  columns out = all_keys records
  ∧ Forall (λ c, c ∈ columns out) expected_columns.
Proof. by intros (Hcols & ->)%transform_data_inv. Qed.


(** C10. The index of the result is a sub-sequence of the positions
    0, 1, 2, ... of the records, so the rows stand in the order of
    the records they come from; each row comes from the last record
    with its key; and the result has at most as many rows as there
    are records. *)
Theorem transform_data_order records out :
  transform_data records = inr out →
  index out `sublist_of` seq 0 (length records)
  ∧ StronglySorted lt (index out)
  ∧ (∀ i, i ∈ index out → last_with_key records i)
  ∧ (length (rows out) ≤ length records)%nat.
Proof.
  intros (Hcols & ->)%transform_data_inv. unfold index. cbn [rows].
  assert ((output_rows records).*1 `sublist_of` seq 0 (length records))
    as Hsub.
  { rewrite <-index_DataFrame_of. unfold index, output_rows.
    etrans; [apply output_index_sublist, kept_index|].
    apply fmap_sublist, survivors_sublist. }
  split; [done|].
  split; [by eapply increasing_sublist, increasing_seq|].
  split.
  - intros i ([j r'] & -> & Hx)%list_elem_of_fmap. simpl.
    apply output_row_origin in Hx as (r0 & _ & _ & Hr0 & _ & _ & _ & Hna & Hl).
    apply last_in_table_raw. by exists r0.
  - apply sublist_length in Hsub.
    by rewrite length_fmap, length_seq in Hsub.
Qed.
End WithPandas.

(** *** The normaliser on the sample records, with the sample of the
    libraries *)

Lemma twice_run : transform_data Demo.twice = inr Demo.twice_out.
Proof. vm_compute. reflexivity. Qed.

Lemma bad_dates_run : transform_data Demo.bad_dates = inr Demo.bad_dates_out.
Proof. vm_compute. reflexivity. Qed.


Lemma priced_run : transform_data Demo.priced = inr Demo.priced_out.
Proof. vm_compute. reflexivity. Qed.


Lemma one_two_one_run :
  transform_data Demo.one_two_one = inr Demo.one_two_one_out.
Proof. vm_compute. reflexivity. Qed.

Lemma big_ids_run : transform_data DemoMore.big_ids = inr DemoMore.big_ids_out.
Proof. vm_compute. reflexivity. Qed.






Lemma dotted_run : transform_data DemoMore.dotted = inr DemoMore.dotted_out.
Proof. vm_compute. reflexivity. Qed.

Lemma dotted_again_run :
  transform_frame DemoMore.dotted_out = inr DemoMore.dotted_again.
Proof. vm_compute. reflexivity. Qed.


(** C2. Three records, the first two sound and with the different
    keys [2 ^ 53] and [2 ^ 53 + 1], the third with a null key: the
    result has the second alone.  The first, the last record with its
    key, is not in the result, though it is when the third record is
    left out. *)
Lemma transform_data_keys_merge :
  transform_data DemoMore.big_ids = inr DemoMore.big_ids_out
  ∧ index DemoMore.big_ids_out = [1]
  ∧ last_with_key DemoMore.big_ids 0
  ∧ at_col "booking_id" <$> DemoMore.big_ids
    = [CInt (2 ^ 53); CInt (2 ^ 53 + 1); CNone]
  ∧ ∃ out, transform_data DemoMore.big_ids_alone = inr out
           ∧ index out = [0; 1].
Proof.
  split; [exact big_ids_run|]. split; [reflexivity|]. split.
  - eexists. split; [reflexivity|]. split; [reflexivity|].
    intros [|[|[|j]]] rj Hj Hrj; simpl in Hrj; simplify_eq; try lia;
      by vm_compute.
  - split; [reflexivity|]. eexists. split; [by vm_compute|reflexivity].
Qed.

(** Of the booking sent twice the second sending is kept: one row,
    with check-in on 2024-02-01. *)
Lemma transform_data_last_wins_witness :
  transform_data Demo.twice = inr Demo.twice_out
  ∧ rows Demo.twice_out
    = [ (1, Demo.cleaned 1 (Demo.midnight 2024 2 1) (Demo.midnight 2024 2 5)
              "Acme" "France") ]
  ∧ last_in_table Demo.twice 1.
Proof.
  split; [exact twice_run|]. split; [reflexivity|].
  refine (proj1 (proj2 (proj1
    (transform_data_last_wins Demo.twice Demo.twice_out twice_run) 1 _ _))).
  apply list_elem_of_here.
Defined.





(** C6. A booking from ["TÜRKİYE"]: [transform_data] writes the
    country ["Türki̇ye"], and on that table [transform_frame] writes
    ["Türki̇Ye"]: the second table is not the first. *)
Lemma transform_data_twice_differs :
  transform_data DemoMore.dotted = inr DemoMore.dotted_out
  ∧ transform_frame DemoMore.dotted_out = inr DemoMore.dotted_again
  ∧ DemoMore.dotted_again ≠ DemoMore.dotted_out.
Proof.
  split; [exact dotted_run|]. split; [exact dotted_again_run|].
  intros Heq. apply (f_equal (λ df, at_col "owner_company_country"
                                      <$> (rows df).*2)) in Heq.
  vm_compute in Heq. discriminate.
Qed.

(** The table got from the sample records is left as it is. *)
Lemma transform_frame_idempotent_witness :
  transform_frame (DataFrame_of Demo.bad_dates) = inr Demo.bad_dates_out
  ∧ transform_frame Demo.bad_dates_out = inr Demo.bad_dates_out.
Proof.
  split; [exact bad_dates_run|].
  refine (transform_frame_idempotent (DataFrame_of Demo.bad_dates)
            Demo.bad_dates_out bad_dates_run _).
  repeat constructor.
Defined.

(** C7. A record that carries a sixth field, [price], gives a table
    with six columns: the result does not have exactly the five
    named fields. *)
Lemma transform_data_extra_field :
  transform_data Demo.priced = inr Demo.priced_out
  ∧ "price" ∈ columns Demo.priced_out
  ∧ columns Demo.priced_out ≠ list_to_set expected_columns.
Proof. split; [exact priced_run|]. split; compute_done. Qed.

Lemma transform_data_columns_witness :
  transform_data Demo.priced = inr Demo.priced_out
  ∧ columns Demo.priced_out = all_keys Demo.priced
  ∧ Forall (λ c, c ∈ columns Demo.priced_out) expected_columns.
Proof.
  split; [exact priced_run|].
  exact (transform_data_columns Demo.priced Demo.priced_out priced_run).
Defined.



(** The keys 1, 2, 1 give the rows of keys 2, 1, from the positions
    1 and 2. *)
Lemma transform_data_order_witness :
  transform_data Demo.one_two_one = inr Demo.one_two_one_out
  ∧ index Demo.one_two_one_out = [1; 2]
  ∧ at_col "booking_id" <$> (rows Demo.one_two_one_out).*2 = [CInt 2; CInt 1]
  ∧ index Demo.one_two_one_out `sublist_of` seq 0 (length Demo.one_two_one)
  ∧ (length (rows Demo.one_two_one_out) ≤ length Demo.one_two_one)%nat.
Proof.
  split; [exact one_two_one_run|]. split; [reflexivity|].
  split; [reflexivity|].
  destruct (transform_data_order Demo.one_two_one Demo.one_two_one_out
              one_two_one_run) as (Hsub & _ & _ & Hlen).
  split; [exact Hsub|exact Hlen].
Defined.
End TransformFacts.

(** ** More on the fetcher *)

Module ExtractMore.
Import Extract.
Section WithServer.
Context {Server : Type}.
Variable get : Z → Server → response * Server.

Local Open Scope Z_scope.
Local Open Scope list_scope.

Lemma seqZ_prefix a m (pre post : list Z) :
  seqZ a m = pre ++ post →
  pre = seqZ a (Z.of_nat (length pre)) ∧ Z.of_nat (length pre) ≤ Z.max 0 m.
Proof.
  intros Heq.
  assert (Z.of_nat (length pre) ≤ Z.max 0 m) as Hlen.
  { apply (f_equal length) in Heq. rewrite length_seqZ, length_app in Heq. lia. }
  split; [|done]. apply list_eq. intros i.
  destruct (decide (i < length pre)%nat) as [Hi|Hi].
  - rewrite lookup_seqZ_lt by lia.
    rewrite <-(lookup_app_l pre post), <-Heq by done.
    apply lookup_seqZ_lt. lia.
  - rewrite lookup_seqZ_ge by lia. apply lookup_ge_None. lia.
Qed.

(** Whatever the outcome, the loop has requested a first part of its
    pages, in order. *)
Lemma fetch_rest_log pages records w r w' :
  fetch_rest get pages records w = (r, w') →
  ∃ pre post, pages = pre ++ post ∧ requests w' = requests w ++ pre.
Proof.
  revert records w. induction pages as [|p pages IH]; intros records w Hrun.
  - exists [], []. simpl in Hrun. injection Hrun as <- <-.
    split; [done|by rewrite app_nil_r].
  - simpl in Hrun. unfold bind, fetch_page in Hrun.
    destruct (get p (server w)) as [[| |b] s1] eqn:Hget.
    + injection Hrun as <- <-. exists [p], pages. done.
    + injection Hrun as <- <-. exists [p], pages. done.
    + destruct (b !! "results") as [more|] eqn:Hres.
      * destruct records as [| |l], more as [| |l'];
          try (injection Hrun as <- <-; exists [p], pages; done).
        simpl in Hrun.
        apply IH in Hrun as (pre & post & -> & Hlog). simpl in Hlog.
        exists (p :: pre), post. split; [done|].
        by rewrite Hlog, <-app_assoc.
      * injection Hrun as <- <-. exists [p], pages. done.
Qed.

(** The loop returns only when every page carried a list of records. *)
Lemma fetch_rest_success pages l w v w' :
  fetch_rest get pages (JList l) w = (inr v, w') →
  ∃ rs lss,
    replies get pages (server w) = (rs, server w')
    ∧ Forall2 carries_results rs lss
    ∧ v = JList (l ++ concat lss)
    ∧ requests w' = requests w ++ pages.
Proof.
  revert l w. induction pages as [|p pages IH]; intros l w Hrun.
  - simpl in Hrun. injection Hrun as <- <-. exists [], [].
    simpl. rewrite !app_nil_r. by repeat split; try constructor.
  - simpl in Hrun. unfold bind, fetch_page in Hrun. simpl.
    destruct (get p (server w)) as [[| |b] s1] eqn:Hget; try done.
    destruct (b !! "results") as [[| |l']|] eqn:Hres; try done.
    simpl in Hrun.
    apply IH in Hrun as (rs & lss & Hrep & Hall & -> & Hlog). simpl in *.
    rewrite Hrep. exists (Body b :: rs), (l' :: lss).
    split; [done|]. split; [constructor; [by exists b|done]|].
    split; [by rewrite <-app_assoc|]. by rewrite Hlog, <-app_assoc.
Qed.

(** X1. For page bodies whose ['total'] and ['results'] are null,
    an integer or a list of records: [extract_all_pages] returns only
    after a complete fetch.  Page 1 carried an integer total for which
    the float quotient gave a number [n] of pages, and a list of
    records; the pages 2 to [n] were requested and each carried a
    list; the result is the concatenation of the lists. *)
Theorem extract_all_pages_complete s v w :
  extract_all_pages get (mkWorld s []) = (inr v, w) →
  ∃ b s1 total n l rs lss,
    get 1 s = (Body b, s1)
    ∧ b !! "total" = Some (JInt total)
    ∧ total_pages total = inr n
    ∧ b !! "results" = Some (JList l)
    ∧ replies get (range 2 (n + 1)) s1 = (rs, server w)
    ∧ Forall2 carries_results rs lss
    ∧ v = JList (l ++ concat lss)
    ∧ requests w = 1 :: range 2 (n + 1).
Proof.
  unfold extract_all_pages, bind, fetch_page, lift. simpl. intros Hrun.
  destruct (get 1 s) as [[| |b] s1] eqn:Hget; try done.
  destruct (b !! "results") as [records|] eqn:Hres; [|done].
  destruct (b !! "total") as [[|total|]|] eqn:Htotal; try done.
  destruct (total_pages total) as [e|n] eqn:Hn; [done|].
  destruct records as [| |l]; try done. simpl in Hrun.
  apply fetch_rest_success in Hrun as (rs & lss & Hrep & Hall & -> & Hlog).
  simpl in *. exists b, s1, total, n, l, rs, lss. done.
Qed.

(** X2. Whatever the server answers, the pages are requested in the
    order 1, 2, 3, ..., each once and none skipped; and when page 1
    reports an integer total, never more pages than the number the
    float quotient gives (one page at least), and page 1 alone when
    the quotient is too large for a float. *)
Theorem extract_all_pages_requests s r w :
  extract_all_pages get (mkWorld s []) = (r, w) →
  ∃ k, 1 ≤ k
       ∧ requests w = seqZ 1 k
       ∧ ∀ b s1 total,
           get 1 s = (Body b, s1) → b !! "total" = Some (JInt total) →
           (∀ n, total_pages total = inr n → k ≤ Z.max 1 n)
           ∧ (∀ e, total_pages total = inl e → k = 1).
Proof.
  unfold extract_all_pages, bind, fetch_page, lift. simpl. intros Hrun.
  assert (requests w = [1] →
          ∃ k, 1 ≤ k ∧ requests w = seqZ 1 k
               ∧ ∀ b s1 total,
                   get 1 s = (Body b, s1) → b !! "total" = Some (JInt total) →
                   (∀ n, total_pages total = inr n → k ≤ Z.max 1 n)
                   ∧ (∀ e, total_pages total = inl e → k = 1)) as Hone.
  { intros ->. exists 1. split; [done|]. split; [done|]. intros.
    split; intros; lia. }
  destruct (get 1 s) as [[| |b] s1] eqn:Hget;
    [by injection Hrun as <- <-; apply Hone..|].
  destruct (b !! "results") as [records|] eqn:Hres;
    [|by injection Hrun as <- <-; apply Hone].
  destruct (b !! "total") as [[|total|]|] eqn:Htotal;
    [by injection Hrun as <- <-; apply Hone| |
     by injection Hrun as <- <-; apply Hone..].
  destruct (total_pages total) as [e|n] eqn:Hn;
    [by injection Hrun as <- <-; apply Hone|].
  destruct records as [| |l];
    [by injection Hrun as <- <-; apply Hone..|].
  simpl in Hrun.
  apply fetch_rest_log in Hrun as (pre & post & Hpages & Hlog).
  simpl in Hlog. unfold range in Hpages.
  apply seqZ_prefix in Hpages as [Hpre Hlen].
  exists (1 + Z.of_nat (length pre)). split; [lia|]. split.
  - rewrite Hlog, (seqZ_cons 1) by lia. f_equal.
    rewrite Hpre at 1. f_equal; lia.
  - intros b' s1' total' [= <- <-] Ht. rewrite Htotal in Ht.
    injection Ht as <-. rewrite Hn. split; [|done].
    intros n' [= <-]. lia.
Qed.

(** X3. A page whose body is not JSON ends the fetch with
    [JSONDecodeError]: no records are returned and no further page is
    requested.  The later pages are those of the page count the code
    computes, which is the ceiling of total over [PER_PAGE] for a
    total of at most [50 * 2 ^ 48] in absolute value. *)
Theorem extract_all_pages_bad_json s :
  (∀ s1, get 1 s = (BadJson, s1) →
     extract_all_pages get (mkWorld s [])
     = (inl JSONDecodeError, mkWorld s1 [1]))
  ∧ (∀ b s1 total n l pre page post rs s2 lss s3,
       get 1 s = (Body b, s1) →
       b !! "total" = Some (JInt total) →
       total_pages total = inr n →
       b !! "results" = Some (JList l) →
       range 2 (n + 1) = pre ++ page :: post →
       replies get pre s1 = (rs, s2) →
       Forall2 carries_results rs lss →
       get page s2 = (BadJson, s3) →
       extract_all_pages get (mkWorld s [])
       = (inl JSONDecodeError, mkWorld s3 (1 :: pre ++ [page])))
  ∧ (∀ total, - (50 * 2 ^ 48) ≤ total ≤ 50 * 2 ^ 48 →
       total_pages total = inr (ceil_div total PER_PAGE)).
Proof.
  split; [|split; [|apply FloatFacts.total_pages_exact]].
  - intros s1 Hget. unfold extract_all_pages, bind, fetch_page. simpl.
    by rewrite Hget.
  - intros b s1 total n l pre page post rs s2 lss s3
      Hget Htotal Hn Hres Hrange Hrep Hall Hget'.
    rewrite (ExtractFacts.extract_first_page get _ _ _ _ _ _
               Hget Htotal Hn Hres).
    rewrite Hrange.
    rewrite (ExtractFacts.fetch_rest_app get _ _ _ (mkWorld s1 [1]) _ _ _
               Hrep Hall).
    simpl. unfold bind, fetch_page. simpl. by rewrite Hget'.
Qed.

(** X4. Page 1 with a value of the wrong kind, only page 1 being
    requested in each case: a null total is reported like a missing
    one; a total that is a list raises [TypeError]; an integer total
    too large for a float raises the error of the division, whatever
    the records are; and with an integer total that is not too large,
    records that are null or an integer raise [TypeError]. *)
Theorem extract_all_pages_wrong_kind s b s1 :
  get 1 s = (Body b, s1) →
  is_Some (b !! "results") →
  (b !! "total" = Some JNull →
   extract_all_pages get (mkWorld s [])
   = (inl (ValueError "total" None), mkWorld s1 [1]))
  ∧ (∀ l, b !! "total" = Some (JList l) →
       extract_all_pages get (mkWorld s []) = (inl TypeError, mkWorld s1 [1]))
  ∧ (∀ total e,
       b !! "total" = Some (JInt total) → total_pages total = inl e →
       extract_all_pages get (mkWorld s []) = (inl e, mkWorld s1 [1]))
  ∧ (∀ total n,
       b !! "total" = Some (JInt total) → total_pages total = inr n →
       b !! "results" = Some JNull ∨ (∃ k, b !! "results" = Some (JInt k)) →
       extract_all_pages get (mkWorld s []) = (inl TypeError, mkWorld s1 [1])).
Proof.
  intros Hget [v Hres]. unfold extract_all_pages, bind, fetch_page, lift.
  simpl. rewrite Hget, Hres. split; [by intros ->|]. split; [by intros l ->|].
  split; [by intros total e -> ->|].
  intros total n -> -> [Hv|[k Hv]]; by simplify_eq.
Qed.
End WithServer.

Lemma extract_all_pages_complete_witness :
  ∃ n l lss,
    [Demo.b1; Demo.b2; Demo.b3] = l ++ concat lss
    ∧ [1; 2; 3]%Z = (1 :: range 2 (n + 1))%Z.
Proof.
  destruct (extract_all_pages_complete Demo.scripted Demo.three_pages
              (JList [Demo.b1; Demo.b2; Demo.b3]) (mkWorld [] [1; 2; 3]%Z)
              eq_refl)
    as (b & s1 & total & n & l & rs & lss & _ & _ & _ & _ & _ & _ & Hv & Hlog).
  exists n, l, lss. split; [by injection Hv|exact Hlog].
Defined.

Lemma extract_all_pages_requests_witness :
  ∃ k, (1 ≤ k)%Z ∧ [1; 2; 3]%Z = seqZ 1 k.
Proof.
  destruct (extract_all_pages_requests Demo.scripted Demo.down_third
              (inl RequestException)
              (mkWorld [Demo.page 120 [Demo.b3]] [1; 2; 3]%Z) eq_refl)
    as (k & Hk & Hlog & _).
  exists k. split; [exact Hk|exact Hlog].
Defined.

Lemma extract_all_pages_bad_json_witness :
  extract_all_pages Demo.scripted (Demo.start [BadJson])
  = (inl JSONDecodeError, mkWorld [] [1%Z])
  ∧ extract_all_pages Demo.scripted
      (Demo.start [Demo.page 120 [Demo.b1]; BadJson])
    = (inl JSONDecodeError, mkWorld [] [1; 2]%Z).
Proof.
  split.
  - exact (proj1 (extract_all_pages_bad_json Demo.scripted [BadJson]) _ eq_refl).
  - refine (proj1 (proj2 (extract_all_pages_bad_json Demo.scripted
      [Demo.page 120 [Demo.b1]; BadJson])) _ _ 120%Z 3%Z [Demo.b1] [] 2%Z [3%Z]
      [] _ [] _ eq_refl eq_refl eq_refl eq_refl eq_refl eq_refl _ eq_refl).
    constructor.
Defined.

Lemma extract_all_pages_wrong_kind_witness :
  extract_all_pages Demo.scripted
    (Demo.start [Body {[ "total" := JInt 10; "results" := JNull ]}])
  = (inl TypeError, mkWorld [] [1%Z]).
Proof.
  refine (proj2 (proj2 (proj2 (extract_all_pages_wrong_kind Demo.scripted
    [Body {[ "total" := JInt 10; "results" := JNull ]}] _ _ eq_refl _)))
    10%Z 1%Z eq_refl eq_refl _).
  - eexists. reflexivity.
  - left. reflexivity.
Defined.
End ExtractMore.

(** ** More on the text operations *)

Module TextMore.
Import Text.

Lemma append_cons c (a b : string) :
  (String c a ++ b)%string = String c (a ++ b)%string.
Proof. reflexivity. Qed.

Lemma lstrip_split s :
  ∃ pre, s = (pre ++ lstrip s)%string
         ∧ Forall (λ c, is_space c = true) (list_ascii_of_string pre).
Proof.
  induction s as [|c s (pre & Hs & Hpre)].
  - exists EmptyString. by split; [|constructor].
  - cbn [lstrip]. destruct (is_space c) eqn:Hc.
    + exists (String c pre).
      split; [rewrite append_cons; by f_equal|by constructor].
    + exists EmptyString. by split; [|constructor].
Qed.

Lemma rstrip_split s :
  ∃ post, s = (rstrip s ++ post)%string
          ∧ Forall (λ c, is_space c = true) (list_ascii_of_string post).
Proof.
  induction s as [|c s (post & Hs & Hpost)].
  - exists EmptyString. by split; [|constructor].
  - cbn [rstrip]. destruct (rstrip s) as [|d r] eqn:Hr.
    + simpl in Hs. subst s. destruct (is_space c) eqn:Hc.
      * exists (String c post). by split; [|constructor].
      * exists post. by split.
    + exists post. split; [rewrite append_cons; by f_equal|done].
Qed.

Lemma rstrip_last s t c :
  rstrip s = (t ++ String c EmptyString)%string → is_space c = false.
Proof.
  revert t. induction s as [|a s IH]; intros t; cbn [rstrip].
  - by destruct t.
  - destruct (rstrip s) as [|d r] eqn:Hr.
    + destruct (is_space a) eqn:Ha; [by destruct t|].
      destruct t as [|b [|b' t]]; simpl; by intros [= <-].
    + destruct t as [|b t]; simpl; [done|].
      intros [= <- Heq]. by eapply IH.
Qed.

Lemma strip_first s c t : strip s = String c t → is_space c = false.
Proof.
  unfold strip.
  destruct (TextFacts.lstrip_head s) as [->|(a & u & -> & Ha)]; [done|].
  cbn [rstrip]. destruct (rstrip u); [rewrite Ha|]; by intros [= <- _].
Qed.

(** X5. [strip] removes white space at the two ends and nothing
    else: the text is some white space, the stripped text, some white
    space; and the stripped text neither starts nor ends with a
    white-space character. *)
Theorem strip_trims s :
  (∃ pre post,
     s = (pre ++ strip s ++ post)%string
     ∧ Forall (λ c, is_space c = true) (list_ascii_of_string pre)
     ∧ Forall (λ c, is_space c = true) (list_ascii_of_string post))
  ∧ (∀ c t, strip s = String c t → is_space c = false)
  ∧ (∀ t c, strip s = (t ++ String c EmptyString)%string → is_space c = false).
Proof.
  split; [|split; [apply strip_first|intros t c; apply rstrip_last]].
  destruct (lstrip_split s) as (pre & Hs & Hpre).
  destruct (rstrip_split (lstrip s)) as (post & Hl & Hpost).
  exists pre, post. split; [|done]. unfold strip. by rewrite <-Hl.
Qed.

Lemma to_lower_cased_as b c : to_lower (cased_as b c) = to_lower c.
Proof.
  destruct b; destruct c as [[] [] [] [] [] [] [] []]; reflexivity.
Qed.

(** X6. [title] changes the case of letters and nothing else: the
    text keeps its length and, letter case apart, its characters. *)
Theorem title_changes_case_only s :
  String.length (title s) = String.length s
  ∧ to_lower <$> list_ascii_of_string (title s)
    = to_lower <$> list_ascii_of_string s.
Proof.
  unfold title. generalize false as b. induction s as [|c s IH]; intros b.
  - done.
  - rewrite TextFacts.title_from_cons. destruct (IH (is_cased c)) as [Hlen Hlow].
    split; [simpl; by rewrite Hlen|].
    cbn [list_ascii_of_string]. rewrite !fmap_cons.
    by rewrite to_lower_cased_as, Hlow.
Qed.

(** X7. On ASCII text, stripping and title-casing ([str.strip] and
    [str.title]) commute, doing both twice is the same as once, and
    what they give is left as it is by stripping; they are then
    [strip] and [title]. *)
Theorem strip_title_compose `{Pandas} s :
  ascii_text s = true →
  py_strip (py_title s) = py_title (py_strip s)
  ∧ py_title (py_strip (py_title (py_strip s))) = py_title (py_strip s)
  ∧ py_strip (py_title (py_strip s)) = py_title (py_strip s)
  ∧ py_title (py_strip s) = title (strip s)
  ∧ strip (title s) = title (strip s)
  ∧ title (strip (title (strip s))) = title (strip s)
  ∧ strip (title (strip s)) = title (strip s).
Proof.
  intros Hs.
  assert (ascii_text (strip s) = true) as Hstrip
    by by apply TextFacts.ascii_text_strip.
  assert (ascii_text (title s) = true) as Htitle
    by by apply TextFacts.ascii_text_title.
  assert (ascii_text (title (strip s)) = true) as Hboth
    by by apply TextFacts.ascii_text_title.
  assert (strip (title (strip s)) = title (strip s)) as Hfixed
    by by rewrite TextFacts.strip_title, TextFacts.strip_idem.
  rewrite (py_title_ascii s), (py_strip_ascii s) by done.
  rewrite (py_strip_ascii (title s)), (py_title_ascii (strip s)) by done.
  rewrite (py_strip_ascii (title (strip s))) by done.
  rewrite Hfixed. rewrite (py_title_ascii (title (strip s))) by done.
  split_and!; try done;
    first [apply TextFacts.strip_title | apply TextFacts.title_from_idem].
Qed.

(** ["  acme corp  "], with the sample of the libraries. *)
Lemma strip_title_compose_witness :
  py_title (py_strip "  acme corp  ") = "Acme Corp"
  ∧ py_strip (py_title "  acme corp  ") = "Acme Corp"
  ∧ py_strip (py_title (py_strip "  acme corp  ")) = "Acme Corp".
Proof.
  destruct (strip_title_compose "  acme corp  " eq_refl)
    as (Hcomm & _ & Hfixed & Heq & _).
  split; [exact Heq|]. split; [by rewrite Hcomm|by rewrite Hfixed].
Defined.
End TextMore.

(** ** More on the normaliser *)

Module TransformMore.
Import Transform Rows TransformFacts.
Section WithPandas.
Context `{Pandas}.

Lemma first_missing (X : gset string) (l : list string) :
  ¬ Forall (λ c, c ∈ X) l →
  ∃ pre c post, l = pre ++ c :: post ∧ Forall (λ c', c' ∈ X) pre ∧ c ∉ X.
Proof.
  induction l as [|c l IH]; intros Hl; [by destruct Hl|].
  destruct (decide (c ∈ X)) as [Hc|Hc].
  - destruct IH as (pre & c' & post & -> & Hpre & Hc').
    { intros Hall. apply Hl. by constructor. }
    exists (c :: pre), c', post. by repeat split; [constructor|].
  - exists [], c, l. by repeat split.
Qed.

Lemma transform_frame_first_missing df pre c post :
  expected_columns = pre ++ c :: post →
  Forall (λ c', c' ∈ columns df) pre → c ∉ columns df →
  transform_frame df = inl (KeyError c).
Proof.
  unfold expected_columns. intros Heq Hpre Hc.
  destruct pre as [|p1 [|p2 [|p3 [|p4 [|p5 pre]]]]];
    simpl in Heq; simplify_eq; [..|by destruct pre];
    repeat (apply Forall_cons in Hpre as [? Hpre]);
    unfold transform_frame, dropna, drop_duplicates.
  - by rewrite decide_False.
  - rewrite decide_True by done. cbn [columns rows].
    rewrite decide_True by done. by rewrite getitem_notin.
  - rewrite decide_True by done. cbn [columns rows].
    rewrite decide_True by done.
    rewrite (getitem_in _ "check_in_date") by done.
    by rewrite getitem_notin
      by (repeat (apply notin_setitem; [done|]); done).
  - rewrite decide_True by done. cbn [columns rows].
    rewrite decide_True by done.
    rewrite (getitem_in _ "check_in_date") by done.
    rewrite (getitem_in (setitem _ _ _) "check_out_date")
      by (simpl; set_solver).
    by rewrite getitem_notin
      by (repeat (apply notin_setitem; [done|]); done).
  - rewrite decide_True by done. cbn [columns rows].
    rewrite decide_True by done.
    rewrite (getitem_in _ "check_in_date") by done.
    rewrite (getitem_in (setitem _ _ _) "check_out_date")
      by (simpl; set_solver).
    rewrite (getitem_in (setitem _ _ _) "owner_company")
      by (simpl; set_solver).
    by rewrite getitem_notin
      by (repeat (apply notin_setitem; [done|]); done).
Qed.

(** X8. The [KeyError] of [transform_data] names the first of the
    five fields, in the order booking_id, check_in_date,
    check_out_date, owner_company, owner_company_country, that no
    record has; an empty list of records raises it for booking_id. *)
Theorem transform_data_first_missing records c :
  (transform_data records = inl (KeyError c)
   ↔ ∃ pre post,
       expected_columns = pre ++ c :: post
       ∧ Forall (λ c', c' ∈ all_keys records) pre
       ∧ c ∉ all_keys records)
  ∧ transform_data [] = inl (KeyError "booking_id").
Proof.
  split; [split|].
  - intros Herr.
    destruct (decide (Forall (λ c, c ∈ all_keys records) expected_columns))
      as [Hcols|Hmiss].
    { rewrite transform_data_run in Herr by done. by destruct (clash _). }
    apply first_missing in Hmiss as (pre & c' & post & Heq & Hpre & Hc').
    pose proof (transform_frame_first_missing (DataFrame_of records)
                  pre c' post Heq Hpre Hc') as Hraise.
    unfold transform_data in Herr. rewrite Hraise in Herr.
    injection Herr as ->. eauto.
  - intros (pre & post & Heq & Hpre & Hc).
    by apply (transform_frame_first_missing (DataFrame_of records) pre c post).
  - apply (transform_frame_first_missing (DataFrame_of []) [] "booking_id"
             ["check_in_date"; "check_out_date"; "owner_company";
              "owner_company_country"]); [done|constructor|].
    apply not_elem_of_empty.
Qed.

(** X9. Every row of the result holds a timestamp in both date
    columns, the check-out not before the check-in. *)
Theorem transform_data_dates records out i r' :
  transform_data records = inr out →
  (i, r') ∈ rows out →
  ∃ t_in t_out,
    r' !! "check_in_date" = Some (CTime t_in)
    ∧ r' !! "check_out_date" = Some (CTime t_out)
    ∧ (t_in ≤ t_out)%Z.
Proof.
  intros (Hcols & ->)%transform_data_inv. cbn [rows].
  intros (r0 & a & b & _ & _ & -> & Hge & _)%output_row_origin.
  apply ge_cell_true in Hge as (x & y & -> & -> & Hle).
  destruct (lookup_clean_row (CTime x) (CTime y) (fill records r0))
    as (_ & Ha & Hb & _).
  eauto.
Qed.

Lemma lookup_fill_in records r c :
  r ∈ records →
  fill records r !! c
  = if decide (c ∈ all_keys records)
    then Some (held records c (at_col c r)) else None.
Proof.
  intros Hr. rewrite lookup_fill. unfold at_col.
  rewrite lookup_union, lookup_gset_to_gmap.
  destruct (r !! c) as [v|] eqn:Hv.
  - rewrite decide_True by (apply elem_of_all_keys; eauto).
    by destruct (guard _).
  - case_decide as Hc.
    + by rewrite option_guard_True.
    + by rewrite option_guard_False.
Qed.

(** X10. Every row of the result has a value in each column of the
    table and in no other; outside the two date and the two text
    columns the value is the one the table holds for the record the
    row comes from.  That is the record's own value when the column
    has a text and when each value of the column is an integer or a
    text, and NaN where the record lacks the field; in a column that
    pandas holds as float64 it is the float nearest to the record's
    integer, and NaN for the record's null. *)
Theorem transform_data_other_columns records out i r' :
  transform_data records = inr out →
  (i, r') ∈ rows out →
  (∀ c, is_Some (r' !! c) ↔ c ∈ columns out)
  ∧ ∃ r0,
      records !! i = Some r0
      ∧ (∀ c, c ∈ columns out →
              c ∉ ["check_in_date"; "check_out_date";
                   "owner_company"; "owner_company_country"] →
              r' !! c = Some (held records c (at_col c r0)))
      ∧ (∀ c, (∃ s, CStr s ∈ field c records)
              ∨ Forall is_int_or_text (field c records) →
              held records c (at_col c r0) = at_col c r0)
      ∧ (∀ c, r0 !! c = None → held records c (at_col c r0) = CNaN)
      ∧ (∀ c n, upcasts (field c records) = true →
                r0 !! c = Some (CInt n) →
                held records c (at_col c r0) = CFloat (Float.of_int n))
      ∧ (∀ c, upcasts (field c records) = true →
              r0 !! c = Some CNone →
              held records c (at_col c r0) = CNaN).
Proof.
  intros (Hcols & ->)%transform_data_inv. cbn [rows columns].
  intros (r0 & a & b & Hr0 & _ & -> & _)%output_row_origin.
  assert (r0 ∈ records) as Hin by by eapply list_elem_of_lookup_2.
  unfold has_expected_columns, expected_columns in Hcols.
  repeat (apply Forall_cons in Hcols as [? Hcols]).
  assert (∀ c, c ∉ ["check_in_date"; "check_out_date";
                    "owner_company"; "owner_company_country"] →
               clean_row a b (fill records r0) !! c
               = fill records r0 !! c) as Hother.
  { intros c Hc. unfold clean_row.
    rewrite !lookup_insert_ne; [done|..];
      intros <-; apply Hc; set_solver. }
  split.
  - intros c.
    destruct (decide (c ∈ ["check_in_date"; "check_out_date";
                           "owner_company"; "owner_company_country"]))
      as [Hc|Hc].
    + destruct (lookup_clean_row a b (fill records r0)) as (_ & ? & ? & ? & ?).
      repeat (apply elem_of_cons in Hc as [->|Hc]); [..|by apply elem_of_nil in Hc];
        by split.
    + rewrite Hother, lookup_fill_in by done.
      case_decide; [by split|].
      split; [by intros [? ?]|done].
  - exists r0. split; [done|]. split_and!.
    + intros c Hc Hnot.
      rewrite Hother, lookup_fill_in by done. by rewrite decide_True.
    + intros c [[s Hs]|Hfull]; [by eapply held_text|by apply held_full].
    + intros c Hc. unfold at_col. rewrite Hc. apply held_nan.
    + intros c n Hup Hc. unfold held, at_col. by rewrite Hup, Hc.
    + intros c Hup Hc. unfold held, at_col. by rewrite Hup, Hc.
Qed.

(** X11. In every row of the result the company and the country are
    texts; and when the value the table holds for the record the row
    comes from is ASCII text, once turned into text, the text of the
    row is ASCII, without white space at either end and in title
    case: stripping it or title-casing it changes nothing. *)
Theorem transform_data_text_trimmed records out i r' :
  transform_data records = inr out →
  (i, r') ∈ rows out →
  ∃ r0 s t,
    records !! i = Some r0
    ∧ r' !! "owner_company" = Some (CStr s)
    ∧ r' !! "owner_company_country" = Some (CStr t)
    ∧ (Text.ascii_text
         (str_of_cell (held records "owner_company"
                         (at_col "owner_company" r0))) = true →
       Text.ascii_text s = true
       ∧ Text.strip s = s ∧ Text.title s = s
       ∧ py_strip s = s ∧ py_title s = s)
    ∧ (Text.ascii_text
         (str_of_cell (held records "owner_company_country"
                         (at_col "owner_company_country" r0))) = true →
       Text.ascii_text t = true
       ∧ Text.strip t = t ∧ Text.title t = t
       ∧ py_strip t = t ∧ py_title t = t).
Proof.
  intros (Hcols & ->)%transform_data_inv. cbn [rows].
  intros (r0 & a & b & Hr0 & _ & -> & _)%output_row_origin.
  destruct (lookup_clean_row a b (fill records r0)) as (_ & _ & _ & Hv & Hw).
  rewrite at_col_fill in Hv, Hw.
  assert (∀ v, Text.ascii_text (str_of_cell v) = true →
            ∃ s, text_of v = CStr s
                 ∧ Text.ascii_text s = true
                 ∧ Text.strip s = s ∧ Text.title s = s
                 ∧ py_strip s = s ∧ py_title s = s) as Htext.
  { intros v Hascii. eexists. split; [by apply text_of_ascii|].
    assert (Text.ascii_text (Text.title (Text.strip (str_of_cell v))) = true)
      as Hs by by apply TextFacts.ascii_text_title, TextFacts.ascii_text_strip.
    assert (Text.strip (Text.title (Text.strip (str_of_cell v)))
            = Text.title (Text.strip (str_of_cell v))) as Hstrip
      by by rewrite TextFacts.strip_title, TextFacts.strip_idem.
    assert (Text.title (Text.title (Text.strip (str_of_cell v)))
            = Text.title (Text.strip (str_of_cell v))) as Htitle
      by apply TextFacts.title_from_idem.
    split; [done|]. split; [done|]. split; [done|].
    split; [by rewrite py_strip_ascii|by rewrite py_title_ascii]. }
  exists r0. eexists _, _. split; [done|].
  split; [exact Hv|]. split; [exact Hw|]. split.
  - intros (s & Heq & Hs)%Htext. unfold text_of in Heq.
    injection Heq as Heq. by rewrite Heq.
  - intros (s & Heq & Hs)%Htext. unfold text_of in Heq.
    injection Heq as Heq. by rewrite Heq.
Qed.

(** X12. The last record with a key decides for the key, two keys
    being the same when the table holds them as the same value: when
    that record is not in the result, no row of the result has its
    key, even if an earlier record with the key was sound.  When the
    keys are held as they are given, this is so for the last record
    with a key as it is given. *)
Theorem transform_data_last_decides records out i r0 :
  transform_data records = inr out →
  records !! i = Some r0 →
  last_in_table records i ∨ (exact_keys records ∧ last_with_key records i) →
  i ∉ index out →
  ∀ j r', (j, r') ∈ rows out →
          at_col "booking_id" r' ≠ key_of records r0.
Proof.
  intros (Hcols & ->)%transform_data_inv Hr0 Hi Hnot j r' Hj Hkey.
  assert (last_in_table records i) as (q & Hq & _ & Hlast).
  { destruct Hi as [?|[? ?]]; [done|by apply last_with_key_table]. }
  rewrite Hr0 in Hq. injection Hq as <-.
  unfold index in Hnot. cbn [rows] in *.
  pose proof Hj as (rj & a & b & Hrj & _ & -> & _ & _ & Hlastj)%output_row_origin.
  rewrite at_col_clean_row_key, key_fill in Hkey.
  destruct (Nat.lt_total i j) as [Hlt|[->|Hlt]].
  - by apply (Hlast j rj Hlt Hrj).
  - apply Hnot. apply list_elem_of_fmap. by eexists (j, _).
  - by apply (Hlastj i r0 Hlt Hr0).
Qed.

(** X13. Records that all lack a key give a table without rows, not
    an error. *)
Theorem transform_data_keyless records :
  has_expected_columns records →
  (∀ r, r ∈ records → isna (at_col "booking_id" r) = true) →
  ∃ out, transform_data records = inr out
         ∧ rows out = [] ∧ columns out = all_keys records.
Proof.
  intros Hcols Hnull.
  assert (survivors (rows (DataFrame_of records)) = []) as Hnone.
  { destruct (survivors _) as [|x rest] eqn:Hs; [done|].
    assert (x ∈ survivors (rows (DataFrame_of records))) as Hx
      by (rewrite Hs; apply list_elem_of_here).
    apply elem_of_survivors in Hx as (Hin & Hna & _);
      [|apply increasing_rows].
    destruct x as [k r]. apply elem_of_rows in Hin as (r0 & Hr0 & ->).
    simpl in Hna. rewrite key_fill in Hna. unfold key_of in Hna.
    rewrite isna_held in Hna.
    apply list_elem_of_lookup_2 in Hr0. rewrite (Hnull r0 Hr0) in Hna. done. }
  assert (clash (survivors (rows (DataFrame_of records))) = false) as Hclash.
  { rewrite Hnone. unfold clash, column. simpl. apply tz_clash_nil. }
  eexists. split; [by apply transform_data_ok|].
  split; [|done]. cbn [rows].
  destruct (output_rows records) as [|[i r'] rest] eqn:Hrows; [done|].
  assert ((i, r') ∈ output_rows records) as Hin
    by (rewrite Hrows; apply list_elem_of_here).
  apply output_row_origin in Hin as (r0 & _ & _ & Hr0 & _ & _ & _ & Hna & _).
  apply list_elem_of_lookup_2 in Hr0. rewrite (Hnull r0 Hr0) in Hna. done.
Qed.
End WithPandas.

Lemma spoiled_run : transform_data DemoMore.spoiled = inr DemoMore.spoiled_out.
Proof. vm_compute. reflexivity. Qed.

Lemma transform_data_dates_witness :
  ∃ t_in t_out,
    Demo.b1_out !! "check_in_date" = Some (CTime t_in)
    ∧ Demo.b1_out !! "check_out_date" = Some (CTime t_out)
    ∧ (t_in ≤ t_out)%Z.
Proof.
  exact (transform_data_dates Demo.bad_dates Demo.bad_dates_out 0 Demo.b1_out
           bad_dates_run (list_elem_of_here _ _)).
Defined.

(** The price 100 of the one record stays the integer 100; next to
    a record without a price it is held as the float 100. *)
Lemma transform_data_other_columns_witness :
  (∃ r0,
     Demo.priced !! 0 = Some r0
     ∧ (<[ "price" := CInt 100 ]> Demo.b1_out) !! "price"
       = Some (held Demo.priced "price" (at_col "price" r0))
     ∧ held Demo.priced "price" (at_col "price" r0) = CInt 100)
  ∧ held (Demo.priced ++ [Demo.b1]) "price" (CInt 100) = CFloat 100.
Proof.
  split; [|reflexivity].
  destruct (transform_data_other_columns Demo.priced Demo.priced_out 0
              (<[ "price" := CInt 100 ]> Demo.b1_out)
              priced_run (list_elem_of_here _ _))
    as [_ (r0 & Hr0 & Hc & Hraw & _)].
  exists r0. split; [exact Hr0|]. split; [apply Hc; compute_done|].
  injection Hr0 as <-. reflexivity.
Defined.

Lemma transform_data_text_trimmed_witness :
  ∃ s t,
    Demo.b1_out !! "owner_company" = Some (CStr s)
    ∧ Demo.b1_out !! "owner_company_country" = Some (CStr t)
    ∧ Text.strip s = s ∧ Text.title s = s
    ∧ Text.strip t = t ∧ Text.title t = t.
Proof.
  destruct (transform_data_text_trimmed Demo.bad_dates Demo.bad_dates_out 0
              Demo.b1_out bad_dates_run (list_elem_of_here _ _))
    as (r0 & s & t & Hr0 & Hs & Ht & Hcompany & Hcountry).
  injection Hr0 as <-.
  destruct Hcompany as (_ & ? & ? & _); [reflexivity|].
  destruct Hcountry as (_ & ? & ? & _); [reflexivity|].
  exists s, t. repeat split; assumption.
Defined.

Lemma spoiled_last : last_in_table DemoMore.spoiled 1.
Proof.
  eexists. split; [reflexivity|]. split; [reflexivity|].
  intros [|[|j]] rj Hlt Hrj; [lia..|]. done.
Qed.

(** The sound booking 1 is lost to its spoiled second sending. *)
Lemma transform_data_last_decides_witness :
  transform_data DemoMore.spoiled = inr DemoMore.spoiled_out
  ∧ ∀ j r', (j, r') ∈ rows DemoMore.spoiled_out →
            at_col "booking_id" r' ≠ CInt 1.
Proof.
  split; [exact spoiled_run|].
  refine (transform_data_last_decides DemoMore.spoiled DemoMore.spoiled_out 1 _
            spoiled_run eq_refl (or_introl spoiled_last) _).
  simpl. apply not_elem_of_nil.
Defined.

Lemma transform_data_keyless_witness :
  ∃ out, transform_data DemoMore.keyless = inr out ∧ rows out = [].
Proof.
  destruct (transform_data_keyless DemoMore.keyless) as (out & Hout & Hrows & _).
  - compute_done.
  - intros r Hr.
    repeat (apply elem_of_cons in Hr as [->|Hr]; [reflexivity|]).
    by apply elem_of_nil in Hr.
  - exists out. split; [exact Hout|exact Hrows].
Defined.
End TransformMore.

(** ** The database stages *)

Module DbFacts.
Import Transform Db Traces.
#[local] Set Warnings "-clear-no-such-hyp".

Ltac trace_facts :=
  unfold attempted, succeeded, all_well, connects in *; simpl in *;
  rewrite ?Forall_cons, ?Forall_nil;
  set_unfold; naive_solver.
Section WithEnv.
Context {Env : Type}.
Variable perform : event → Env → option error * Env.
Variable read_text : string → Env → (error + string) * Env.
Variable read_table : event → Env → (error + Transform.DataFrame) * Env.

Ltac open_up H :=
  cbv beta iota zeta delta
    [create_from create_table present_final_table call finally catch bind
     open_cursor execute_file get_conn if_conn if_cur on_conn on_cur method
     truth lift act read_file read set_conn set_cur ret raise raised attempt
     world conn cur env trace given] in H.

Ltac env_step H :=
  match type of H with
  | context [perform ?ev ?e] =>
      destruct (perform ev e) as [[?|] ?] eqn:?; open_up H
  | context [read_text ?p ?e] =>
      destruct (read_text p e) as [[?|?] ?] eqn:?; open_up H
  | context [read_table ?ev ?e] =>
      destruct (read_table ev e) as [[?|?] ?] eqn:?; open_up H
  end.

Ltac finish H :=
  injection H as <- <-; simpl;
  eexists; split; [by rewrite <-?app_assoc|].

(** What a call of [create_from] adds to the trace. *)
Lemma create_from_run path w r w' :
  create_from perform read_text path w = (r, w') →
  ∃ t, trace w' = trace w ++ t
       ∧ (attempted Commit t →
          succeeded Connect t ∧ succeeded Cursor t
          ∧ succeeded (ReadFile path) t
          ∧ ∃ sql, succeeded (Execute sql []) t)
       ∧ (attempted Rollback t ↔ succeeded Connect t ∧ ¬ succeeded Commit t)
       ∧ (succeeded Connect t →
          attempted CloseConn t ∨ ∃ e, (CloseCursor, Some e) ∈ t)
       ∧ (succeeded Cursor t → attempted CloseCursor t)
       ∧ (r = inr tt ↔ all_well t)
       ∧ (∀ e, r = inl e → ∃ ev, (ev, Some e) ∈ t)
       ∧ connects t = 1.
Proof.
  intros Hrun. open_up Hrun.
  repeat env_step Hrun; finish Hrun.
  all: split_and!; trace_facts.
Qed.

(** What a call of [create_table] adds to the trace. *)
Lemma create_table_run path w r w' :
  create_table perform read_text path w = (r, w') →
  ∃ t, trace w' = trace w ++ t
       ∧ (attempted Commit t →
          succeeded Connect t ∧ succeeded Cursor t
          ∧ succeeded (ReadFile path) t
          ∧ ∃ sql, succeeded (Execute sql []) t)
       ∧ ¬ attempted Rollback t
       ∧ (∀ e, (Connect, Some e) ∈ t →
            r = inl (UnboundLocalError "cur") ∧ t = [(Connect, Some e)])
       ∧ (∀ e, (Cursor, Some e) ∈ t →
            r = inl (UnboundLocalError "cur") ∧ ¬ attempted CloseConn t)
       ∧ (succeeded Cursor t →
          attempted CloseCursor t
          ∧ (attempted CloseConn t ∨ ∃ e, (CloseCursor, Some e) ∈ t)
          ∧ ∀ e, r = inl e → ∃ ev, (ev, Some e) ∈ t)
       ∧ (r = inr tt ↔ all_well t)
       ∧ connects t = 1.
Proof.
  intros Hrun. open_up Hrun.
  repeat env_step Hrun; finish Hrun.
  all: split_and!; trace_facts.
Qed.

(** What a call of [present_final_table] adds to the trace. *)
Lemma present_final_table_run csv_path w r w' :
  present_final_table perform read_text read_table csv_path w = (r, w') →
  ∃ t, trace w' = trace w ++ t
       ∧ (∀ e, r = inl e → last t = Some (CloseConn, Some e))
       ∧ (succeeded Connect t ↔ attempted CloseConn t)
       ∧ (∀ path df o, (ToCsv path df, o) ∈ t →
            given csv_path = Some path ∧ succeeded (Print df) t)
       ∧ (∀ df, succeeded (Print df) t → ∀ path, given csv_path = Some path →
            attempted (ToCsv path df) t)
       ∧ (∀ sql params, ¬ attempted (Execute sql params) t)
       ∧ ¬ attempted Commit t
       ∧ connects t = 1.
Proof.
  intros Hrun. open_up Hrun.
  repeat env_step Hrun;
    try (destruct csv_path as [[|c path]|]; open_up Hrun;
         repeat env_step Hrun);
    finish Hrun.
  all: split_and!; trace_facts.
Qed.

(** *** The loop of [load_rows] *)

Lemma row_values_ok df r cs (f : @Frame Env) :
  Forall (λ c, c ∈ columns df) cs →
  row_values df r cs f = (inr (values cs r), f).
Proof.
  induction 1 as [|c cs Hc _ IH]; [done|].
  cbn [row_values]. unfold bind, row_get. rewrite decide_True by done.
  unfold ret at 1. by rewrite IH.
Qed.

Lemma row_values_missing df r pre c post (f : @Frame Env) :
  Forall (λ c', c' ∈ columns df) pre → c ∉ columns df →
  row_values df r (pre ++ c :: post) f = (inl (Py (KeyError c)), f).
Proof.
  intros Hpre Hc. induction Hpre as [|c' pre Hc' _ IH]; simpl.
  - unfold bind, row_get. by rewrite decide_False.
  - unfold bind, row_get. rewrite decide_True by done.
    unfold ret at 1. by rewrite IH.
Qed.

Lemma insert_row_ok sql cs df ir (f : Frame) :
  cur f = Bound → Forall (λ c, c ∈ columns df) cs →
  ∃ o e,
    perform (Execute sql (values cs ir.2)) (env (world f)) = (o, e)
    ∧ insert_row perform sql cs df ir f
      = (match o with Some err => inl err | None => inr tt end,
         mkFrame (mkWorld e (trace (world f) ++ [sent sql cs o ir]))
           (conn f) (cur f)).
Proof using perform.
  intros Hcur Hcs. unfold insert_row, bind. rewrite row_values_ok by done.
  unfold on_cur. rewrite Hcur. unfold method, lift, act.
  destruct (perform _ _) as [o e]. exists o, e. split; [done|].
  destruct o; simpl; by rewrite Hcur.
Qed.

(** With the columns there, the loop sends the rows in order and
    stops at the first statement that raises. *)
Lemma for_each_insert_ok sql cs df l (f : Frame) r f' :
  cur f = Bound → Forall (λ c, c ∈ columns df) cs →
  for_each l (insert_row perform sql cs df) f = (r, f') →
  conn f' = conn f ∧ cur f' = Bound
  ∧ ∃ t, trace (world f') = trace (world f) ++ t
         ∧ ((r = inr tt ∧ t = sent sql cs None <$> l)
            ∨ ∃ pre ir post e,
                l = pre ++ ir :: post ∧ r = inl e
                ∧ t = (sent sql cs None <$> pre) ++ [sent sql cs (Some e) ir]).
Proof using perform.
  intros Hcur Hcs. revert f Hcur.
  induction l as [|ir l IH]; intros f Hcur Hrun.
  - injection Hrun as <- <-. split; [done|]. split; [done|].
    exists []. rewrite app_nil_r. split; [done|]. by left.
  - cbn [for_each] in Hrun. unfold bind in Hrun.
    destruct (insert_row_ok sql cs df ir f Hcur Hcs) as (o & e & _ & Hrow).
    rewrite Hrow in Hrun. destruct o as [err|].
    + injection Hrun as <- <-. split; [done|]. split; [done|].
      exists [sent sql cs (Some err) ir]. split; [done|]. right.
      by exists [], ir, l, err.
    + apply IH in Hrun as (Hconn & Hcur' & t & Ht & Hcases); [|done].
      simpl in *. split; [done|]. split; [done|].
      exists (sent sql cs None ir :: t).
      split; [by rewrite Ht, <-app_assoc|].
      destruct Hcases as [[-> ->]|(pre & ir' & post & e' & -> & -> & ->)].
      * by left.
      * right. by exists (ir :: pre), ir', post, e'.
Qed.

(** Without one of the columns, the first row raises [KeyError]
    before any statement is sent. *)
Lemma for_each_insert_missing sql cs df l (f : Frame) pre c post :
  cs = pre ++ c :: post →
  Forall (λ c', c' ∈ columns df) pre → c ∉ columns df →
  for_each l (insert_row perform sql cs df) f
  = (match l with [] => inr tt | _ => inl (Py (KeyError c)) end, f).
Proof using perform.
  intros -> Hpre Hc. destruct l as [|ir l]; [done|].
  cbn [for_each]. unfold bind, insert_row. unfold bind.
  by rewrite row_values_missing.
Qed.

Lemma statements_app t1 t2 :
  statements (t1 ++ t2) = statements t1 ++ statements t2.
Proof. apply omap_app. Qed.

Lemma statements_sent sql cs o l :
  statements (sent sql cs o <$> l) = stated sql cs o <$> l.
Proof. induction l as [|ir l IH]; [done|]. simpl. by f_equal. Qed.

Lemma connects_app t1 t2 : connects (t1 ++ t2) = connects t1 + connects t2.
Proof. unfold connects. by rewrite List.filter_app, length_app. Qed.

Lemma connects_sent sql cs o l : connects (sent sql cs o <$> l) = 0.
Proof. induction l as [|ir l IH]; [done|]. exact IH. Qed.

Lemma all_well_sent sql cs l : all_well (sent sql cs None <$> l).
Proof. by apply Forall_fmap, Forall_true. Qed.

Ltac open_load H :=
  cbv beta iota zeta delta
    [load_rows call finally catch bind
     open_cursor execute_file get_conn if_conn if_cur on_conn on_cur method
     truth lift act read_file read set_conn set_cur ret raise raised
     world conn cur env trace] in H.

Ltac load_step H :=
  match type of H with
  | context [perform ?ev ?e] =>
      destruct (perform ev e) as [[?|] ?] eqn:?; open_load H
  end.

Lemma connects_cons x t :
  connects (x :: t) = (if is_connect x then 1 else 0) + connects t.
Proof. unfold connects. simpl. by destruct (is_connect x). Qed.

Ltac count_connects :=
  rewrite ?connects_cons, ?connects_app, ?connects_cons, ?connects_sent;
  reflexivity.

(** What a call of [load_rows] adds to the trace, when the table has
    the columns. *)
Lemma load_rows_run sql cs df w r w' :
  Forall (λ c, c ∈ columns df) cs →
  load_rows perform sql cs df w = (r, w') →
  ∃ t, trace w' = trace w ++ t
       ∧ (∃ pre rest,
            rows df = pre ++ rest
            ∧ (statements t = stated sql cs None <$> pre
               ∨ ∃ ir post e,
                   rest = ir :: post
                   ∧ statements t
                     = (stated sql cs None <$> pre) ++ [stated sql cs (Some e) ir]))
       ∧ (attempted Commit t → statements t = stated sql cs None <$> rows df)
       ∧ (r = inr tt ↔ all_well t)
       ∧ connects t = 1.
Proof using perform.
  clear read_text read_table. intros Hcs Hrun. open_load Hrun.
  load_step Hrun.
  { finish Hrun. split_and!; [|trace_facts..].
    exists [], (rows df). split; [done|]. by left. }
  load_step Hrun.
  { finish Hrun. split_and!; [|trace_facts..].
    exists [], (rows df). split; [done|]. by left. }
  destruct (for_each _ _ _) as [r1 f1] eqn:Hloop.
  apply for_each_insert_ok in Hloop
    as (Hconn & Hcur & t & Ht & Hcases); [|done..].
  destruct f1 as [[e1 t1] c1 u1]. simpl in Hconn, Hcur, Ht. subst c1 u1 t1.
  pose proof (all_well_sent sql cs (rows df)) as Hwell.
  destruct Hcases as [[-> ->]|(pre & ir & post & e' & Hrows & -> & ->)].
  - open_load Hrun; repeat load_step Hrun; injection Hrun as <- <-; simpl;
      (eexists; split; [by rewrite <-?app_assoc|]); simpl;
      rewrite ?statements_app, ?statements_sent; simpl; rewrite ?app_nil_r;
      (split_and!;
       [ exists (rows df), []; rewrite app_nil_r; by split; [|left]
       | done
       | unfold all_well in *;
         rewrite ?Forall_cons, ?Forall_app, ?Forall_cons, ?Forall_nil;
         simpl; naive_solver
       | count_connects ]).
  - pose proof (all_well_sent sql cs pre) as Hpre.
    open_load Hrun; repeat load_step Hrun; injection Hrun as <- <-; simpl;
      (eexists; split; [by rewrite <-?app_assoc|]); simpl;
      rewrite ?statements_app, ?statements_sent; simpl; rewrite ?app_nil_r;
      (split_and!;
       [ exists pre, (ir :: post); split; [done|]; right;
         by exists ir, post, e'
       | intros Hc; exfalso; revert Hc;
         unfold attempted, sent; set_unfold; naive_solver
       | unfold all_well in *;
         rewrite ?Forall_cons, ?Forall_app, ?Forall_cons, ?Forall_nil;
         simpl; naive_solver
       | count_connects ]).
Qed.

(** The three ways of a call of [load_rows], when the table has the
    columns: no cursor and nothing sent; every row sent and the
    commit attempted; a statement that raised, nothing sent after it
    and no commit. *)
Lemma load_rows_cases sql cs df w r w' :
  Forall (λ c, c ∈ columns df) cs →
  load_rows perform sql cs df w = (r, w') →
  ∃ t, trace w' = trace w ++ t
       ∧ ((statements t = [] ∧ ¬ succeeded Cursor t ∧ ¬ attempted Commit t
           ∧ r = inl (UnboundLocalError "cur"))
          ∨ (statements t = stated sql cs None <$> rows df
             ∧ succeeded Cursor t ∧ attempted Commit t)
          ∨ (∃ pre ir post e,
               rows df = pre ++ ir :: post
               ∧ statements t
                 = (stated sql cs None <$> pre) ++ [stated sql cs (Some e) ir]
               ∧ succeeded Cursor t ∧ ¬ attempted Commit t))
       ∧ (r = inr tt →
          succeeded Connect t ∧ succeeded Cursor t ∧ succeeded Commit t
          ∧ succeeded CloseCursor t ∧ succeeded CloseConn t)
       ∧ attempted Connect t
       ∧ (succeeded Connect t → attempted Cursor t)
       ∧ (succeeded Cursor t → attempted CloseCursor t)
       ∧ (succeeded CloseCursor t → attempted CloseConn t).
Proof using perform.
  clear read_text read_table. intros Hcs Hrun. open_load Hrun.
  load_step Hrun.
  { finish Hrun. split_and!; [left; split_and!; trace_facts|trace_facts..]. }
  load_step Hrun.
  { finish Hrun. split_and!; [left; split_and!; trace_facts|trace_facts..]. }
  destruct (for_each _ _ _) as [r1 f1] eqn:Hloop.
  apply for_each_insert_ok in Hloop
    as (Hconn & Hcur & t & Ht & Hcases); [|done..].
  destruct f1 as [[e1 t1] c1 u1]. simpl in Hconn, Hcur, Ht. subst c1 u1 t1.
  destruct Hcases as [[-> ->]|(pre & ir & post & e' & Hrows & -> & ->)].
  - open_load Hrun; repeat load_step Hrun; injection Hrun as <- <-; simpl;
      (eexists; split; [by rewrite <-?app_assoc|]); simpl;
      (split_and!;
       [ right; left;
         rewrite ?statements_app, ?statements_sent; simpl;
         rewrite ?app_nil_r; split_and!; [done|..];
         unfold attempted, succeeded; set_unfold; naive_solver
       | unfold attempted, succeeded; set_unfold; naive_solver.. ]).
  - open_load Hrun; repeat load_step Hrun; injection Hrun as <- <-; simpl;
      (eexists; split; [by rewrite <-?app_assoc|]); simpl;
      (split_and!;
       [ right; right; exists pre, ir, post, e';
         rewrite ?statements_app, ?statements_sent; simpl;
         rewrite ?app_nil_r; split_and!; [done..| |];
         unfold attempted, succeeded, sent; set_unfold; naive_solver
       | unfold attempted, succeeded; set_unfold; naive_solver.. ]).
Qed.

(** What a call of [load_rows] adds to the trace, when the table
    lacks one of the columns. *)
Lemma load_rows_missing sql cs df pre c post w r w' :
  cs = pre ++ c :: post →
  Forall (λ c', c' ∈ columns df) pre → c ∉ columns df →
  load_rows perform sql cs df w = (r, w') →
  ∃ t, trace w' = trace w ++ t
       ∧ statements t = []
       ∧ (rows df ≠ [] →
          ¬ attempted Commit t ∧ r ≠ inr tt
          ∧ (all_well t → r = inl (Py (KeyError c))))
       ∧ (rows df = [] → (r = inr tt ↔ all_well t))
       ∧ connects t = 1.
Proof using perform.
  clear read_text read_table. intros Hcs Hpre Hc Hrun. open_load Hrun.
  load_step Hrun.
  { finish Hrun. split_and!; trace_facts. }
  load_step Hrun.
  { finish Hrun. split_and!; trace_facts. }
  rewrite (for_each_insert_missing sql cs df (rows df) _ pre c post Hcs Hpre Hc)
    in Hrun.
  destruct (rows df) as [|ir l]; open_load Hrun; repeat load_step Hrun;
    finish Hrun; split_and!; trace_facts.
Qed.

Lemma first_missing_column (X : gset string) (l : list string) :
  ¬ Forall (λ c, c ∈ X) l →
  ∃ pre c post, l = pre ++ c :: post ∧ Forall (λ c', c' ∈ X) pre ∧ c ∉ X.
Proof.
  induction l as [|c l IH]; intros Hl; [by destruct Hl|].
  destruct (decide (c ∈ X)) as [Hc|Hc].
  - destruct IH as (pre & c' & post & -> & Hpre & Hc').
    { intros Hall. apply Hl. by constructor. }
    exists (c :: pre), c', post. by repeat split; [constructor|].
  - exists [], c, l. by repeat split.
Qed.

(** Every call of [load_rows] asks for one connection. *)
Lemma load_rows_connects sql cs df w r w' :
  load_rows perform sql cs df w = (r, w') →
  ∃ t, trace w' = trace w ++ t ∧ connects t = 1.
Proof using perform.
  intros Hrun.
  destruct (decide (Forall (λ c, c ∈ columns df) cs)) as [Hcs|Hcs].
  - apply load_rows_run in Hrun as (t & Ht & _ & _ & _ & Hn); [|done]. eauto.
  - apply first_missing_column in Hcs as (pre & c & post & Hcs & Hpre & Hc).
    eapply load_rows_missing in Hrun as (t & Ht & _ & _ & _ & Hn); eauto.
Qed.

Lemma read_csv_data_run w r w' :
  read_csv_data read_table w = (r, w') →
  ∃ t, trace w' = trace w ++ t ∧ connects t = 0.
Proof.
  unfold read_csv_data, catch, read, raise. intros Hrun.
  destruct (read_table _ _) as [[e|df] e1]; injection Hrun as <- <-;
    by eexists.
Qed.

(** *** The statements about the database stages *)

(** X14. [create_country_currency] and [create_final_table]
    ([create_from] at their file): the commit is attempted only after
    the connection, the cursor, the reading of the file and the
    statement went well; a rollback is attempted exactly when the
    connection was got and no commit went through; the call returns
    exactly when nothing raised, and what it raises is what an action
    raised. *)
Theorem create_from_transaction path w r w' :
  create_from perform read_text path w = (r, w') →
  ∃ t, trace w' = trace w ++ t
       ∧ (attempted Commit t →
          succeeded Connect t ∧ succeeded Cursor t
          ∧ succeeded (ReadFile path) t
          ∧ ∃ sql, succeeded (Execute sql []) t)
       ∧ (attempted Rollback t ↔ succeeded Connect t ∧ ¬ succeeded Commit t)
       ∧ (r = inr tt ↔ all_well t)
       ∧ (∀ e, r = inl e → ∃ ev, (ev, Some e) ∈ t).
Proof.
  intros (t & Ht & Hcommit & Hroll & _ & _ & Hwell & Herr & _)%create_from_run.
  exists t. done.
Qed.

(** X15. [create_country_currency] and [create_final_table] give
    back what they took: a cursor that was got is closed, and a
    connection that was got is closed unless closing the cursor
    raised. *)
Theorem create_from_closes path w r w' :
  create_from perform read_text path w = (r, w') →
  ∃ t, trace w' = trace w ++ t
       ∧ (succeeded Cursor t → attempted CloseCursor t)
       ∧ (succeeded Connect t →
          attempted CloseConn t ∨ ∃ e, (CloseCursor, Some e) ∈ t).
Proof.
  intros (t & Ht & _ & _ & Hconn & Hcur & _)%create_from_run.
  exists t. done.
Qed.

(** X16. [create_booking_table] and [create_rate_table]
    ([create_table] at their file) lose the error of a failed start:
    when the connection cannot be got, or the cursor cannot, the call
    raises [UnboundLocalError] for [cur]; in the second case the
    connection is never closed. *)
Theorem create_table_unbound path w r w' :
  create_table perform read_text path w = (r, w') →
  ∃ t, trace w' = trace w ++ t
       ∧ (∀ e, (Connect, Some e) ∈ t →
            r = inl (UnboundLocalError "cur") ∧ t = [(Connect, Some e)])
       ∧ (∀ e, (Cursor, Some e) ∈ t →
            r = inl (UnboundLocalError "cur") ∧ ¬ attempted CloseConn t).
Proof.
  intros (t & Ht & _ & _ & Hconn & Hcur & _)%create_table_run.
  exists t. done.
Qed.

(** X17. [create_booking_table] and [create_rate_table]: the commit
    is attempted only after the statement went well, no rollback is
    ever attempted, the call returns exactly when nothing raised, and
    once the cursor is got it is closed and what the call raises is
    what an action raised. *)
Theorem create_table_transaction path w r w' :
  create_table perform read_text path w = (r, w') →
  ∃ t, trace w' = trace w ++ t
       ∧ (attempted Commit t →
          succeeded Connect t ∧ succeeded Cursor t
          ∧ succeeded (ReadFile path) t
          ∧ ∃ sql, succeeded (Execute sql []) t)
       ∧ ¬ attempted Rollback t
       ∧ (r = inr tt ↔ all_well t)
       ∧ (succeeded Cursor t →
          attempted CloseCursor t
          ∧ ∀ e, r = inl e → ∃ ev, (ev, Some e) ∈ t).
Proof.
  intros (t & Ht & Hcommit & Hroll & _ & _ & Hcur & Hwell & _)%create_table_run.
  exists t. split_and!; try done. intros Hc.
  destruct (Hcur Hc) as (? & _ & ?). done.
Qed.

(** X18. [load_to_postgres] and [load_csv_to_postgres] ([load_rows]
    at their statement and columns), on a table that has the columns.
    The call asks for a connection and, when it got one, for a cursor.
    Without a cursor nothing is sent and the call raises.  With a
    cursor the statements are sent row by row in the order of the
    table, each with the values of its row, up to the first that
    raises: either every row was sent and the commit attempted, or a
    statement raised, nothing was sent after it and there was no
    commit.  The cursor, once got, is closed, and then the
    connection.  The call returns exactly when no action raised; and
    then every row was sent and committed, and cursor and connection
    were closed. *)
Theorem load_rows_in_order sql cs df w r w' :
  Forall (λ c, c ∈ columns df) cs →
  load_rows perform sql cs df w = (r, w') →
  ∃ t, trace w' = trace w ++ t
       ∧ ((statements t = [] ∧ ¬ succeeded Cursor t ∧ ¬ attempted Commit t
           ∧ r = inl (UnboundLocalError "cur"))
          ∨ (statements t = stated sql cs None <$> rows df
             ∧ succeeded Cursor t ∧ attempted Commit t)
          ∨ (∃ pre ir post e,
               rows df = pre ++ ir :: post
               ∧ statements t
                 = (stated sql cs None <$> pre) ++ [stated sql cs (Some e) ir]
               ∧ succeeded Cursor t ∧ ¬ attempted Commit t))
       ∧ (attempted Commit t → statements t = stated sql cs None <$> rows df)
       ∧ (r = inr tt ↔ all_well t)
       ∧ (r = inr tt →
          statements t = stated sql cs None <$> rows df
          ∧ succeeded Connect t ∧ succeeded Cursor t ∧ succeeded Commit t
          ∧ succeeded CloseCursor t ∧ succeeded CloseConn t)
       ∧ attempted Connect t
       ∧ (succeeded Connect t → attempted Cursor t)
       ∧ (succeeded Cursor t → attempted CloseCursor t)
       ∧ (succeeded CloseCursor t → attempted CloseConn t).
Proof using perform.
  intros Hcs Hrun.
  pose proof Hrun as (t & Ht & _ & Hcommit & Hwell & _)%load_rows_run;
    [|done].
  apply load_rows_cases in Hrun
    as (t' & Ht' & Hcases & Hdone & Hconn & Hcur & Hclose & Hend); [|done].
  assert (t' = t) as -> by (rewrite Ht in Ht'; by apply app_inv_head in Ht').
  exists t. split_and!; try done.
  intros Hr. destruct (Hdone Hr) as (? & ? & Hc & ? & ?).
  split_and!; try done. apply Hcommit. by exists None.
Qed.

(** X19. [load_to_postgres] and [load_csv_to_postgres] on a table
    that lacks a column: no statement is sent; with rows in the table
    there is no commit and the call raises, the [KeyError] of the
    first column missing when no action raised; with no row in the
    table the missing column goes unnoticed. *)
Theorem load_rows_key_error sql cs df pre c post w r w' :
  cs = pre ++ c :: post →
  Forall (λ c', c' ∈ columns df) pre → c ∉ columns df →
  load_rows perform sql cs df w = (r, w') →
  ∃ t, trace w' = trace w ++ t
       ∧ statements t = []
       ∧ (rows df ≠ [] →
          ¬ attempted Commit t ∧ r ≠ inr tt
          ∧ (all_well t → r = inl (Py (KeyError c))))
       ∧ (rows df = [] → (r = inr tt ↔ all_well t)).
Proof using perform.
  intros Hcs Hpre Hc Hrun.
  eapply load_rows_missing in Hrun as (t & Ht & Hs & Hrows & Hempty & _); eauto.
Qed.


(** *** What the stages before the presentation leave unseen *)

Lemma quiet_app t1 t2 : quiet (t1 ++ t2) ↔ quiet t1 ∧ quiet t2.
Proof. apply Forall_app. Qed.

Lemma create_from_shape path w r w' :
  create_from perform read_text path w = (r, w') →
  ∃ t, trace w' = trace w ++ t ∧ connects t = 1 ∧ quiet t.
Proof.
  intros Hrun. open_up Hrun.
  repeat env_step Hrun; finish Hrun.
  all: split; [reflexivity|repeat constructor].
Qed.

Lemma create_table_shape path w r w' :
  create_table perform read_text path w = (r, w') →
  ∃ t, trace w' = trace w ++ t ∧ connects t = 1 ∧ quiet t.
Proof.
  intros Hrun. open_up Hrun.
  repeat env_step Hrun; finish Hrun.
  all: split; [reflexivity|repeat constructor].
Qed.

Lemma read_csv_data_shape w r w' :
  read_csv_data read_table w = (r, w') →
  ∃ t, trace w' = trace w ++ t ∧ connects t = 0 ∧ quiet t.
Proof.
  unfold read_csv_data, catch, read, raise. intros Hrun.
  destruct (read_table _ _) as [[e|df] e1]; injection Hrun as <- <-;
    (eexists; split; [done|]; split; [reflexivity|repeat constructor]).
Qed.

Lemma row_values_frame df r cs (f : @Frame Env) x f1 :
  row_values df r cs f = (x, f1) → f1 = f.
Proof.
  revert x. induction cs as [|c cs IH]; intros x Hrun.
  - by injection Hrun as _ <-.
  - cbn [row_values] in Hrun. unfold bind, row_get in Hrun.
    case_decide; [|by injection Hrun as _ <-].
    unfold ret at 1 in Hrun.
    destruct (row_values df r cs f) as [[e|vs] f2] eqn:Hvs.
    + injection Hrun as _ <-. by eapply IH.
    + injection Hrun as _ <-. by eapply IH.
Qed.

Lemma insert_row_shape sql cs df ir (f : Frame) r f' :
  cur f = Bound →
  insert_row perform sql cs df ir f = (r, f') →
  conn f' = conn f ∧ cur f' = Bound
  ∧ ∃ t, trace (world f') = trace (world f) ++ t
         ∧ connects t = 0 ∧ quiet t.
Proof using perform.
  clear read_text read_table.
  intros Hcur Hrun. unfold insert_row, bind in Hrun.
  destruct (row_values df ir.2 cs f) as [[e|params] f1] eqn:Hv;
    apply row_values_frame in Hv as ->.
  - injection Hrun as <- <-. split; [done|]. split; [done|].
    exists []. rewrite app_nil_r. by repeat split; try constructor.
  - unfold on_cur in Hrun. rewrite Hcur in Hrun.
    unfold method, lift, act in Hrun.
    destruct (perform _ _) as [[err|] e]; injection Hrun as <- <-; simpl;
      (split; [done|]; split; [done|]; eexists; split; [done|];
       split; [reflexivity|repeat constructor]).
Qed.

Lemma for_each_insert_shape sql cs df l (f : Frame) r f' :
  cur f = Bound →
  for_each l (insert_row perform sql cs df) f = (r, f') →
  conn f' = conn f ∧ cur f' = Bound
  ∧ ∃ t, trace (world f') = trace (world f) ++ t
         ∧ connects t = 0 ∧ quiet t.
Proof using perform.
  clear read_text read_table.
  revert f. induction l as [|ir l IH]; intros f Hcur Hrun.
  - injection Hrun as <- <-. split; [done|]. split; [done|].
    exists []. rewrite app_nil_r. by repeat split; try constructor.
  - cbn [for_each] in Hrun. unfold bind in Hrun.
    destruct (insert_row perform sql cs df ir f) as [[e|[]] f1] eqn:Hrow;
      apply insert_row_shape in Hrow as (Hc1 & Hu1 & t1 & Ht1 & Hn1 & Hq1);
      try done.
    + by injection Hrun as <- <-; eauto 10.
    + apply IH in Hrun as (Hc2 & Hu2 & t2 & Ht2 & Hn2 & Hq2); [|done].
      split; [congruence|]. split; [done|]. exists (t1 ++ t2).
      split; [by rewrite Ht2, Ht1, <-app_assoc|].
      split; [by rewrite connects_app, Hn1, Hn2|by apply quiet_app].
Qed.

Lemma load_rows_shape sql cs df w r w' :
  load_rows perform sql cs df w = (r, w') →
  ∃ t, trace w' = trace w ++ t ∧ connects t = 1 ∧ quiet t.
Proof using perform.
  clear read_text read_table. intros Hrun. open_load Hrun.
  load_step Hrun.
  { finish Hrun. split; [reflexivity|repeat constructor]. }
  load_step Hrun.
  { finish Hrun. split; [reflexivity|repeat constructor]. }
  destruct (for_each _ _ _) as [r1 f1] eqn:Hloop.
  apply for_each_insert_shape in Hloop
    as (Hconn & Hcur & t & Ht & Hn & Hq); [|done].
  destruct f1 as [[e1 t1] c1 u1]. simpl in Hconn, Hcur, Ht. subst c1 u1 t1.
  destruct r1 as [e'|[]];
    open_load Hrun; repeat load_step Hrun; injection Hrun as <- <-; simpl;
    (eexists; split; [by rewrite <-?app_assoc|]);
    (split;
     [ rewrite ?connects_cons, ?connects_app, ?connects_cons, Hn; reflexivity
     | unfold quiet in *;
       rewrite ?Forall_cons, ?Forall_app, ?Forall_cons, ?Forall_nil;
       simpl; naive_solver ]).
Qed.

Lemma present_final_table_shape csv_path w r w' :
  present_final_table perform read_text read_table csv_path w = (r, w') →
  ∃ t, trace w' = trace w ++ t ∧ connects t = 1
       ∧ ∀ path df o, (ToCsv path df, o) ∈ t → given csv_path = Some path.
Proof.
  intros (t & Ht & _ & _ & Hcsv & _ & _ & _ & Hn)%present_final_table_run.
  exists t. split; [done|]. split; [done|].
  intros path df o Hin. by destruct (Hcsv path df o Hin).
Qed.
End WithEnv.

(** The stages in the sample environments. *)

Lemma country_currency_run :
  create_country_currency (DemoDb.failing 3) (DemoDb.text_failing DemoDb.never)
    DemoDb.fresh
  = DemoDb.country_currency_fails.
Proof. vm_compute. reflexivity. Qed.

Lemma final_table_run :
  create_final_table (DemoDb.failing 4) (DemoDb.text_failing DemoDb.never)
    DemoDb.fresh
  = DemoDb.final_table_fails.
Proof. vm_compute. reflexivity. Qed.

Lemma booking_table_run :
  create_booking_table (DemoDb.failing 0) (DemoDb.text_failing DemoDb.never)
    DemoDb.fresh
  = DemoDb.booking_table_fails.
Proof. vm_compute. reflexivity. Qed.

Lemma rate_table_run :
  create_rate_table (DemoDb.failing 3) (DemoDb.text_failing DemoDb.never)
    DemoDb.fresh
  = DemoDb.rate_table_fails.
Proof. vm_compute. reflexivity. Qed.

Lemma bookings_loaded_run :
  load_to_postgres (DemoDb.failing DemoDb.never) Demo.one_two_one_out
    DemoDb.fresh
  = DemoDb.bookings_loaded.
Proof. vm_compute. reflexivity. Qed.

Lemma rates_as_bookings_run :
  load_to_postgres (DemoDb.failing DemoDb.never) DemoDb.rates DemoDb.fresh
  = DemoDb.rates_as_bookings.
Proof. vm_compute. reflexivity. Qed.


(** The statement raises: a rollback is attempted, no commit. *)
Lemma create_from_transaction_witness :
  DemoDb.country_currency_fails.1 = inl DemoDb.boom
  ∧ ∃ t, trace DemoDb.country_currency_fails.2 = t
         ∧ (attempted Rollback t ↔ succeeded Connect t ∧ ¬ succeeded Commit t).
Proof.
  split; [reflexivity|].
  destruct (create_from_transaction (DemoDb.failing 3)
              (DemoDb.text_failing DemoDb.never) "country_currency.sql"
              DemoDb.fresh _ _ country_currency_run)
    as (t & Ht & _ & Hroll & _).
  exists t. split; [exact Ht|exact Hroll].
Defined.

Lemma create_from_closes_witness :
  ∃ t, trace DemoDb.final_table_fails.2 = t
       ∧ (succeeded Cursor t → attempted CloseCursor t).
Proof.
  destruct (create_from_closes (DemoDb.failing 4)
              (DemoDb.text_failing DemoDb.never) "final_table.sql"
              DemoDb.fresh _ _ final_table_run) as (t & Ht & Hcur & _).
  exists t. split; [exact Ht|exact Hcur].
Defined.

(** No connection: the call raises [UnboundLocalError], not the
    error of the connection. *)
Lemma create_table_unbound_witness :
  DemoDb.booking_table_fails
  = (inl (UnboundLocalError "cur"), mkWorld 1 [(Connect, Some DemoDb.boom)])
  ∧ ∃ t, trace DemoDb.booking_table_fails.2 = t
         ∧ ∀ e, (Connect, Some e) ∈ t →
                DemoDb.booking_table_fails.1 = inl (UnboundLocalError "cur")
                ∧ t = [(Connect, Some e)].
Proof.
  split; [reflexivity|].
  destruct (create_table_unbound (DemoDb.failing 0)
              (DemoDb.text_failing DemoDb.never) "bookings.sql"
              DemoDb.fresh _ _ booking_table_run) as (t & Ht & Hconn & _).
  exists t. split; [exact Ht|exact Hconn].
Defined.

Lemma create_table_transaction_witness :
  ∃ t, trace DemoDb.rate_table_fails.2 = t ∧ ¬ attempted Rollback t.
Proof.
  destruct (create_table_transaction (DemoDb.failing 3)
              (DemoDb.text_failing DemoDb.never) "currency_rates.sql"
              DemoDb.fresh _ _ rate_table_run) as (t & Ht & _ & Hroll & _).
  exists t. split; [exact Ht|exact Hroll].
Defined.

Lemma booking_columns_present :
  Forall (λ c, c ∈ columns Demo.one_two_one_out) booking_columns.
Proof. repeat constructor; compute_done. Qed.

(** The two rows of the cleaned table are sent and committed. *)
Lemma load_rows_in_order_witness :
  DemoDb.bookings_loaded.1 = inr tt
  ∧ ∃ t, trace DemoDb.bookings_loaded.2 = t
         ∧ statements t
           = stated INSERT_BOOKING booking_columns None
             <$> rows Demo.one_two_one_out
         ∧ succeeded Commit t ∧ succeeded CloseConn t.
Proof.
  split; [reflexivity|].
  destruct (load_rows_in_order (DemoDb.failing DemoDb.never)
              INSERT_BOOKING booking_columns Demo.one_two_one_out
              DemoDb.fresh _ _ booking_columns_present bookings_loaded_run)
    as (t & Ht & _ & _ & _ & Hdone & _).
  destruct (Hdone eq_refl) as (Hs & _ & _ & Hcommit & _ & Hclose).
  exists t. split; [exact Ht|]. split; [exact Hs|].
  split; [exact Hcommit|exact Hclose].
Defined.

Lemma rates_lack_booking_id : "booking_id" ∉ columns DemoDb.rates.
Proof. compute_done. Qed.

(** A table of rates handed to [load_to_postgres]: [KeyError] for
    booking_id, nothing sent. *)
Lemma load_rows_key_error_witness :
  DemoDb.rates_as_bookings.1 = inl (Py (KeyError "booking_id"))
  ∧ ∃ t, trace DemoDb.rates_as_bookings.2 = t ∧ statements t = [].
Proof.
  split; [reflexivity|].
  destruct (load_rows_key_error (DemoDb.failing DemoDb.never)
              INSERT_BOOKING booking_columns DemoDb.rates [] "booking_id"
              ["check_in_date"; "check_out_date"; "owner_company";
               "owner_company_country"] DemoDb.fresh _ _ eq_refl
              (Forall_nil_2 _) rates_lack_booking_id rates_as_bookings_run)
    as (t & Ht & Hs & _).
  exists t. split; [exact Ht|exact Hs].
Defined.

End DbFacts.

(** ** The pipeline *)

Module MainFacts.
Import Transform Rows Db Traces Main.

Section Loaded.
Context `{Pandas} {Env : Type}.
Variable perform : event → Env → option error * Env.

Lemma fresh_keys_NoDup ks : fresh_keys ks → NoDup ks.
Proof.
  induction ks as [|k ks IH]; [constructor|].
  intros [Hk Hks]. constructor; [|by apply IH].
  intros Hin. rewrite Forall_forall in Hk. specialize (Hk k Hin).
  unfold same_key in Hk. rewrite bool_decide_eq_true_2 in Hk by done.
  by rewrite orb_true_r in Hk.
Qed.

(** The values the loader reads from a row of the normaliser. *)
Lemma values_clean x :
  clean x →
  ∃ a b v v',
    values booking_columns x.2
    = [at_col "booking_id" x.2; CTime a; CTime b; CStr v; CStr v']
    ∧ isna (at_col "booking_id" x.2) = false ∧ (a ≤ b)%Z.
Proof.
  intros (a & b & v & w & Hge & Ha & Hb & Hv & Hw & Hna).
  apply TransformFacts.ge_cell_true in Hge as (ta & tb & -> & -> & Hle).
  exists ta, tb. eexists _, _. split; [|done].
  unfold values, booking_columns. simpl. unfold at_col at 2 3 4 5.
  rewrite Ha, Hb, Hv, Hw. reflexivity.
Qed.

(** The statements that were sent are those of the first rows of the
    table. *)
Lemma load_rows_sent sql cs df w r w' :
  Forall (λ c, c ∈ columns df) cs →
  load_rows perform sql cs df w = (r, w') →
  ∃ t l rest,
    trace w' = trace w ++ t
    ∧ (r = inr tt ↔ all_well t)
    ∧ rows df = l ++ rest
    ∧ (statements t).*1 = (λ ir, (sql, values cs ir.2)) <$> l.
Proof using perform.
  intros Hcs Hrun.
  apply DbFacts.load_rows_run in Hrun
    as (t & Ht & (pre & rest & Hrows & Hst) & _ & Hwell & _); [|done].
  destruct Hst as [Hst|(ir & post & e & -> & Hst)].
  - exists t, pre, rest. split_and!; try done.
    rewrite Hst. rewrite <-list_fmap_compose. done.
  - exists t, (pre ++ [ir]), post. split_and!; try done.
    + by rewrite <-app_assoc.
    + rewrite Hst, !fmap_app, <-list_fmap_compose. done.
Qed.

(** X20. [load_to_postgres] on a table that [transform_data]
    returned: the call fails only when an action on the database
    raises, never for a column; every statement sent is the insertion
    of a booking with five values, the key not null, the two dates
    timestamps with the check-out not before the check-in, the
    company and the country texts; and no two statements carry the
    same key. *)
Theorem load_to_postgres_transformed records out w r w' :
  transform_data records = inr out →
  load_to_postgres perform out w = (r, w') →
  ∃ t, trace w' = trace w ++ t
       ∧ (r = inr tt ↔ all_well t)
       ∧ Forall (λ s, s.1.1 = INSERT_BOOKING
                      ∧ ∃ k a b v v',
                          s.1.2 = [k; CTime a; CTime b; CStr v; CStr v']
                          ∧ isna k = false ∧ (a ≤ b)%Z)
           (statements t)
       ∧ NoDup ((λ s, head s.1.2) <$> statements t).
Proof using perform.
  intros [Hcols ->]%TransformFacts.transform_data_inv Hrun.
  apply load_rows_sent in Hrun as (t & l & rest & Ht & Hwell & Hrows & Hst);
    [|exact Hcols].
  simpl in Hrows.
  assert (Forall clean l) as Hclean.
  { pose proof (TransformFacts.output_clean
                  (rows (DataFrame_of records))) as Hall.
    fold (output_rows records) in Hall. rewrite Hrows in Hall.
    by apply Forall_app in Hall as [? _]. }
  assert (NoDup (at_col "booking_id" <$> l.*2)) as Hkeys.
  { apply fresh_keys_NoDup.
    eapply TransformFacts.fresh_keys_sublist;
      [|apply (TransformFacts.output_fresh_keys
                 (rows (DataFrame_of records)))].
    fold (output_rows records). rewrite Hrows, !fmap_app.
    apply sublist_inserts_r. done. }
  exists t. split_and!; try done.
  - assert (Forall (λ p : string * list cell,
                      p.1 = INSERT_BOOKING
                      ∧ ∃ k a b v v',
                          p.2 = [k; CTime a; CTime b; CStr v; CStr v']
                          ∧ isna k = false ∧ (a ≤ b)%Z)
              (statements t).*1) as Hall; [|by apply Forall_fmap in Hall].
    rewrite Hst. apply Forall_fmap.
    eapply Forall_impl; [exact Hclean|].
    intros x (a & b & v & v' & Hv & Hna & Hle)%values_clean.
    split; [done|]. exists (at_col "booking_id" x.2), a, b, v, v'.
    split; [exact Hv|done].
  - assert (NoDup ((λ p : string * list cell, head p.2)
                     <$> (statements t).*1)) as Hnd;
      [|rewrite <-list_fmap_compose in Hnd; exact Hnd].
    rewrite Hst.
    assert ((λ p : string * list cell, head p.2)
              <$> ((λ ir : nat * record,
                      (INSERT_BOOKING, values booking_columns ir.2)) <$> l)
            = Some <$> (at_col "booking_id" <$> l.*2)) as ->.
    { rewrite <-!list_fmap_compose. reflexivity. }
    apply NoDup_fmap_2; [apply _|done].
Qed.
End Loaded.

(** The two sendings of booking 1 give one statement with its key. *)
Lemma load_to_postgres_transformed_witness :
  ∃ t, trace DemoDb.bookings_loaded.2 = t
       ∧ (DemoDb.bookings_loaded.1 = inr tt ↔ all_well t)
       ∧ NoDup ((λ s, head s.1.2) <$> statements t).
Proof.
  destruct (load_to_postgres_transformed (DemoDb.failing DemoDb.never)
              Demo.one_two_one Demo.one_two_one_out DemoDb.fresh _ _
              TransformFacts.one_two_one_run DbFacts.bookings_loaded_run)
    as (t & Ht & Hwell & _ & Hkeys).
  exists t. split; [exact Ht|]. split; [exact Hwell|exact Hkeys].
Defined.

Section WithOutside.
Context `{Pandas} {Server Env : Type}.
Variable get : Z → Server → response * Server.
Variable perform : event → Env → option error * Env.
Variable read_text : string → Env → (error + string) * Env.
Variable read_table : event → Env → (error + DataFrame) * Env.

Lemma quiet_not_shown t x : quiet t → x ∈ t → shows x.1 = false.
Proof. unfold quiet. rewrite Forall_forall. auto. Qed.

Ltac not_shown :=
  match goal with
  | Hq : quiet ?t, Hin : _ ∈ ?t |- _ =>
      by apply (quiet_not_shown _ _ Hq) in Hin
  end.

Ltac count :=
  rewrite ?DbFacts.connects_app;
  repeat match goal with Hn : connects _ = _ |- _ => rewrite Hn; clear Hn end;
  simpl.

Ltac end_of_run Htr :=
  simpl; split_and!;
  [ done
  | done
  | try done; intros Hno; by destruct (Hno _ _ eq_refl Htr)
  | eexists; split_and!;
    [ repeat match goal with Ht : trace _ = _ |- _ => rewrite Ht end;
      rewrite <-?app_assoc; reflexivity
    | count; set_solver
    | intros path df' o' Hin; rewrite ?elem_of_app in Hin;
      repeat (destruct_or! Hin); try not_shown
    | intros df' o' Hin; rewrite ?elem_of_app in Hin;
      repeat (destruct_or! Hin); try not_shown ] ].

(** What a run of [main] does to the API and to the database. *)
Lemma main_run o r a :
  Extract.extract_all_pages get (api o) = (r, a) →
  (Main.main get perform read_text read_table o).1 = inr tt
  ∧ api (Main.main get perform read_text read_table o).2 = a
  ∧ ((∀ l df, r = inr (JList l) → transform_data l ≠ inr df) →
     db (Main.main get perform read_text read_table o).2 = db o)
  ∧ ∃ t, trace (db (Main.main get perform read_text read_table o).2)
         = trace (db o) ++ t
         ∧ connects t ∈ [0; 1; 2; 3; 4; 7]
         ∧ (∀ path df o', (ToCsv path df, o') ∈ t →
              path = "output/final_table.csv" ∧ connects t = 7)
         ∧ (∀ df o', (Print df, o') ∈ t → connects t = 7).
Proof.
  intros Hex.
  unfold Main.main, bind, attempt, on_api, on_db, listed, transformed,
    create_booking_table, create_rate_table, load_to_postgres,
    load_csv_to_postgres, create_country_currency, create_final_table.
  rewrite Hex.
  assert (∀ d : @Db.World Env, trace d = trace d ++ []) as Hnil
    by (intros d; by rewrite app_nil_r).
  destruct r as [e|[| |l]]; simpl;
    try (split_and!; [done..|]; exists []; split; [apply Hnil|];
         split; [set_solver|]; split; by intros * ?%elem_of_nil).
  destruct (transform_data l) as [e|df] eqn:Htr; simpl;
    try (split_and!; [done..|]; exists []; split; [apply Hnil|];
         split; [set_solver|]; split; by intros * ?%elem_of_nil).
  destruct (create_table perform read_text _ (db o)) as [[e1|[]] d1] eqn:H1;
    apply DbFacts.create_table_shape in H1 as (t1 & Ht1 & Hn1 & Hq1);
    [end_of_run Htr|]. simpl.
  destruct (read_csv_data read_table d1) as [[e2|rates] d2] eqn:H2;
    apply DbFacts.read_csv_data_shape in H2 as (t2 & Ht2 & Hn2 & Hq2);
    [end_of_run Htr|]. simpl.
  destruct (create_table perform read_text _ d2) as [[e3|[]] d3] eqn:H3;
    apply DbFacts.create_table_shape in H3 as (t3 & Ht3 & Hn3 & Hq3);
    [end_of_run Htr|]. simpl.
  destruct (load_rows perform _ _ df d3) as [[e4|[]] d4] eqn:H4;
    apply DbFacts.load_rows_shape in H4 as (t4 & Ht4 & Hn4 & Hq4);
    [end_of_run Htr|]. simpl.
  destruct (load_rows perform _ _ rates d4) as [[e5|[]] d5] eqn:H5;
    apply DbFacts.load_rows_shape in H5 as (t5 & Ht5 & Hn5 & Hq5);
    [end_of_run Htr|]. simpl.
  destruct (create_from perform read_text _ d5) as [r6 d6] eqn:H6.
  apply DbFacts.create_from_shape in H6 as (t6 & Ht6 & Hn6 & Hq6). simpl.
  destruct (create_from perform read_text _ d6) as [r7 d7] eqn:H7.
  apply DbFacts.create_from_shape in H7 as (t7 & Ht7 & Hn7 & Hq7). simpl.
  destruct (present_final_table perform read_text read_table _ d7)
    as [r8 d8] eqn:H8.
  apply DbFacts.present_final_table_shape in H8 as (t8 & Ht8 & Hn8 & Hcsv).
  end_of_run Htr.
  - apply Hcsv in Hin. injection Hin as <-. split; [done|]. by count.
  - by count.
Qed.

(** X22. [main] never raises, and it leaves the API as
    [extract_all_pages] leaves it.  When the extraction raises, or
    the records lack one of the five fields, the database side is left
    as it was: no action is attempted on it.  This is so for an
    extraction that returns no records. *)
Theorem main_ends_early o r a :
  Extract.extract_all_pages get (api o) = (r, a) →
  (Main.main get perform read_text read_table o).1 = inr tt
  ∧ api (Main.main get perform read_text read_table o).2 = a
  ∧ (∀ e, r = inl e →
       db (Main.main get perform read_text read_table o).2 = db o)
  ∧ (∀ l, r = inr (JList l) → ¬ has_expected_columns l →
       db (Main.main get perform read_text read_table o).2 = db o)
  ∧ (r = inr (JList []) →
     db (Main.main get perform read_text read_table o).2 = db o).
Proof.
  intros (Hret & Hapi & Hdb & _)%main_run. split_and!; try done.
  - intros e ->. apply Hdb. by intros.
  - intros l -> Hcols. apply Hdb. intros l' df [= <-] Hrun.
    by apply TransformFacts.transform_data_inv in Hrun as [? _].
  - intros ->. apply Hdb. intros l' df [= <-] Hrun.
    apply TransformFacts.transform_data_inv in Hrun as [Hcols _].
    apply Forall_cons in Hcols as [Hin _].
    apply TransformFacts.elem_of_all_keys in Hin as (r & Hr & _).
    by apply elem_of_nil in Hr.
Qed.

(** X23. A run of [main] asks the database for 0, 1, 2, 3, 4 or 7
    connections, never 5 or 6: the last three stages, one connection
    each, are attempted all or none.  A table is printed, and a CSV
    file written, only in a run that asked for all seven, and the
    file only at output/final_table.csv. *)
Theorem main_connections o :
  ∃ t, trace (db (Main.main get perform read_text read_table o).2)
       = trace (db o) ++ t
       ∧ connects t ∈ [0; 1; 2; 3; 4; 7]
       ∧ (∀ path df o', (ToCsv path df, o') ∈ t →
            path = "output/final_table.csv" ∧ connects t = 7)
       ∧ (∀ df o', (Print df, o') ∈ t → connects t = 7).
Proof.
  destruct (Extract.extract_all_pages get (api o)) as [r a] eqn:Hex.
  by apply main_run in Hex as (_ & _ & _ & Ht).
Qed.
End WithOutside.

(** The API reports no records: the database side is left as it
    was. *)
Lemma main_ends_early_witness :
  db (Main.main Demo.scripted (DemoDb.failing DemoDb.never)
        (DemoDb.text_failing DemoDb.never)
        (DemoDb.table_failing DemoDb.never) DemoMain.nothing_to_fetch).2
  = DemoDb.fresh.
Proof.
  exact (proj2 (proj2 (proj2 (proj2
    (main_ends_early Demo.scripted (DemoDb.failing DemoDb.never)
       (DemoDb.text_failing DemoDb.never)
       (DemoDb.table_failing DemoDb.never) DemoMain.nothing_to_fetch
       (inr (JList [])) (Extract.mkWorld [] [1%Z]) eq_refl)))) eq_refl).
Defined.
End MainFacts.
